(** * The Muggle Guide — single-page client (src/frontend/app.js)

    A shallow embedding of the client core: the JavaScript values the code
    manipulates, the application state object, the API client with its
    refresh protocol, and the Discover, Book Detail and Library views with
    their event handlers.

    Modelling conventions.
    - JavaScript numbers are integers ([Z]); [NaN] is [None] where a
      conversion can produce it.  Fractions and exponents are outside the
      model.
    - Strings are byte strings holding UTF-8.
    - An [async] function is run to completion: every [await] is resolved
      in place by the server oracle of the world.  Interleavings of several
      pending handlers are outside the model.
    - A thrown exception keeps every mutation made before the throw, as in
      JavaScript: the monad returns the world next to the outcome.
    - The elements the page provides ([#app], [#navbar], [#nav-username],
      [#toast-container]) exist.  Markup is kept as far as a handler reads
      or writes it. *)

From Stdlib Require Import ZArith List String Ascii Bool Lia.
From Stdlib Require Import DecimalString DecimalZ.
From Stdlib Require Decimal DecimalPos.
Import ListNotations.
Open Scope string_scope.
Open Scope Z_scope.

(* ================================================================== *)
(** ** JavaScript values                                                *)
(* ================================================================== *)

Module Js.

#[local] Set Warnings "-register-all".

Inductive value : Type :=
| VUndefined
| VNull
| VBool (b : bool)
| VNum (n : Z)
| VStr (s : string)
| VArr (items : list value)
| VObj (fields : list (string * value)).

(** Thrown objects; the code only ever reads [.message]. *)
Inductive exn : Type :=
| Error (message : string)
| TypeError (message : string)
| SyntaxError (message : string)
| DOMException (message : string).

Definition message (e : exn) : string :=
  match e with Error m | TypeError m | SyntaxError m | DOMException m => m end.

Inductive outcome (A : Type) : Type :=
| Return (a : A)
| Throw (e : exn).
Arguments Return {A} a.
Arguments Throw {A} e.

(** Number::toString on an integer.  The numbers of the model are the
    integers: it is exact for those a double holds and prints in full
    (magnitude below 10^21); from there JavaScript prints an exponent. *)
Definition num_to_string (n : Z) : string := NilZero.string_of_int (Z.to_int n).

(** ToString. *)
Fixpoint to_string (v : value) : string :=
  match v with
  | VUndefined => "undefined"
  | VNull => "null"
  | VBool true => "true"
  | VBool false => "false"
  | VNum n => num_to_string n
  | VStr s => s
  | VArr items =>
      (fix join (l : list value) : string :=
         match l with
         | [] => ""
         | x :: rest =>
             let sx := match x with
                       | VUndefined | VNull => ""
                       | _ => to_string x
                       end in
             match rest with
             | [] => sx
             | _ :: _ => sx ++ "," ++ join rest
             end
         end) items
  | VObj _ => "[object Object]"
  end.

(** ToBoolean. *)
Definition truthy (v : value) : bool :=
  match v with
  | VUndefined | VNull => false
  | VBool b => b
  | VNum n => negb (n =? 0)
  | VStr s => negb (String.eqb s "")
  | VArr _ | VObj _ => true
  end.

(** [a || b]. *)
Definition or_else (a b : value) : value := if truthy a then a else b.

Fixpoint lookup (k : string) (fields : list (string * value)) : value :=
  match fields with
  | [] => VUndefined
  | (k', v) :: rest => if String.eqb k k' then v else lookup k rest
  end.

Definition cannot_read (k : string) (what : string) : string :=
  "Cannot read properties of " ++ what ++ " (reading '" ++ k ++ "')".

(** [v.k] for a data property [k]: own properties of objects, [length] of
    arrays and strings; reading a property of [null] or [undefined] throws. *)
Definition prop (v : value) (k : string) : outcome value :=
  match v with
  | VUndefined => Throw (TypeError (cannot_read k "undefined"))
  | VNull => Throw (TypeError (cannot_read k "null"))
  | VObj fields => Return (lookup k fields)
  | VArr items =>
      Return (if String.eqb k "length" then VNum (Z.of_nat (List.length items))
              else VUndefined)
  | VStr s =>
      Return (if String.eqb k "length" then VNum (Z.of_nat (String.length s))
              else VUndefined)
  | VBool _ | VNum _ => Return VUndefined
  end.

Definition value_eqb (a b : value) : bool :=
  match a, b with
  | VUndefined, VUndefined => true
  | VNull, VNull => true
  | VBool x, VBool y => Bool.eqb x y
  | VNum x, VNum y => x =? y
  | VStr x, VStr y => String.eqb x y
  | _, _ => false
  end.

(** [a === b] on primitives; two distinct parsed objects are never
    identical. *)
Definition strict_eq (a b : value) : bool := value_eqb a b.


(** *** Strings: white space, integers, percent-encoding *)

(** The white space and line terminators of one byte. *)
Definition is_space (c : ascii) : bool :=
  let n := nat_of_ascii c in
  (Nat.eqb n 32 || (Nat.leb 9 n && Nat.leb n 13))%bool.

(** U+00A0, in UTF-8. *)
Definition is_space2 (a b : ascii) : bool :=
  (Nat.eqb (nat_of_ascii a) 194 && Nat.eqb (nat_of_ascii b) 160)%bool.

(** U+1680, U+2000 to U+200A, U+2028, U+2029, U+202F, U+205F, U+3000 and
    U+FEFF, in UTF-8. *)
Definition is_space3 (a b c : ascii) : bool :=
  let x := nat_of_ascii a in
  let y := nat_of_ascii b in
  let z := nat_of_ascii c in
  ((Nat.eqb x 225 && Nat.eqb y 154 && Nat.eqb z 128)
   || (Nat.eqb x 226 && Nat.eqb y 128
       && ((Nat.leb 128 z && Nat.leb z 138) || Nat.eqb z 168 || Nat.eqb z 169
           || Nat.eqb z 175))
   || (Nat.eqb x 226 && Nat.eqb y 129 && Nat.eqb z 159)
   || (Nat.eqb x 227 && Nat.eqb y 128 && Nat.eqb z 128)
   || (Nat.eqb x 239 && Nat.eqb y 187 && Nat.eqb z 191))%bool.

(** Removes the white space at the start; [two] and [three] recognise the
    characters of two and three bytes. *)
Fixpoint strip_spaces (two : ascii -> ascii -> bool)
         (three : ascii -> ascii -> ascii -> bool) (s : string) : string :=
  match s with
  | EmptyString => EmptyString
  | String c rest =>
      if is_space c then strip_spaces two three rest
      else
        match rest with
        | EmptyString => s
        | String c2 rest2 =>
            if two c c2 then strip_spaces two three rest2
            else
              match rest2 with
              | EmptyString => s
              | String c3 rest3 =>
                  if three c c2 c3 then strip_spaces two three rest3 else s
              end
        end
  end.

(** String.prototype.trimStart. *)
Definition trim_start (s : string) : string := strip_spaces is_space2 is_space3 s.

Definition reverse (s : string) : string :=
  string_of_list_ascii (rev (list_ascii_of_string s)).

(** String.prototype.trimEnd: on the reversed text the bytes of a
    character come last first. *)
Definition trim_end (s : string) : string :=
  reverse (strip_spaces (fun a b => is_space2 b a) (fun a b c => is_space3 c b a)
             (reverse s)).

(** String.prototype.trim: the white space and line terminators of
    ECMAScript, on a UTF-8 byte string. *)
Definition trim (s : string) : string := trim_end (trim_start s).

Definition digit_value (radix : Z) (c : ascii) : option Z :=
  let n := Z.of_nat (nat_of_ascii c) in
  let d := if (48 <=? n) && (n <=? 57) then Some (n - 48)
           else if (97 <=? n) && (n <=? 122) then Some (n - 87)
           else if (65 <=? n) && (n <=? 90) then Some (n - 55)
           else None in
  match d with
  | Some k => if k <? radix then Some k else None
  | None => None
  end.

(** The value of the longest prefix of digits, [acc] when there is none. *)
Fixpoint digits (radix : Z) (s : string) (acc : option Z) : option Z :=
  match s with
  | EmptyString => acc
  | String c rest =>
      match digit_value radix c with
      | Some d =>
          digits radix rest
            (Some (radix * match acc with Some a => a | None => 0 end + d))
      | None => acc
      end
  end.

Definition strip_sign (s : string) : Z * string :=
  match s with
  | String "-" rest => (-1, rest)
  | String "+" rest => (1, rest)
  | _ => (1, s)
  end.

(** parseInt(s) with no radix argument; [None] is NaN.  The result is the
    integer the digits denote, which is what JavaScript returns up to
    2^53; beyond that the code gets the nearest double.  A theorem that
    reads a number the code does not bound states the range (see
    [exact_integer]). *)
Definition parseInt (s : string) : option Z :=
  let '(sign, s1) := strip_sign (trim_start s) in
  let '(radix, s2) :=
    match s1 with
    | String "0" (String "x" rest) => (16, rest)
    | String "0" (String "X" rest) => (16, rest)
    | _ => (10, s1)
    end in
  match digits radix s2 None with
  | Some n => Some (sign * n)
  | None => None
  end.

Fixpoint all_digits (s : string) : bool :=
  match s with
  | EmptyString => true
  | String c rest =>
      match digit_value 10 c with
      | Some _ => all_digits rest
      | None => false
      end
  end.

(** ToNumber; [None] is NaN.  A string converts when it is empty or a
    signed decimal integer once trimmed.  The other numeric literals of
    JavaScript (fractions, exponents, hexadecimal, Infinity) denote numbers
    the model does not have, or integers in another notation: text of that
    kind is outside the model. *)
Definition to_number (v : value) : option Z :=
  let of_string (s : string) : option Z :=
    let t := trim s in
    if String.eqb t "" then Some 0
    else let '(sign, r) := strip_sign t in
         if negb (String.eqb r "") && all_digits r
         then match digits 10 r None with
              | Some n => Some (sign * n)
              | None => None
              end
         else None in
  match v with
  | VUndefined => None
  | VNull => Some 0
  | VBool b => Some (if b then 1 else 0)
  | VNum n => Some n
  | VStr s => of_string s
  | VArr _ | VObj _ => of_string (to_string v)
  end.

(** [a > 0] *)
Definition positive (v : value) : bool :=
  match to_number v with Some n => 0 <? n | None => false end.

Definition hex_digit (n : nat) : ascii :=
  ascii_of_nat (if Nat.ltb n 10 then 48 + n else 55 + n).

Definition unreserved (c : ascii) : bool :=
  let n := nat_of_ascii c in
  ((Nat.leb 48 n && Nat.leb n 57) || (Nat.leb 65 n && Nat.leb n 90)
   || (Nat.leb 97 n && Nat.leb n 122)
   || existsb (Nat.eqb n) [45; 95; 46; 33; 126; 42; 39; 40; 41]%nat)%bool.

(** encodeURIComponent on a UTF-8 byte string: every byte that is not an
    unreserved character becomes [%XX]. *)
Fixpoint encodeURIComponent (s : string) : string :=
  match s with
  | EmptyString => EmptyString
  | String c rest =>
      if unreserved c then String c (encodeURIComponent rest)
      else
        let n := nat_of_ascii c in
        String "%" (String (hex_digit (Nat.div n 16))
                      (String (hex_digit (Nat.modulo n 16))
                         (encodeURIComponent rest)))
  end.

End Js.
Export Js.

(* ================================================================== *)
(** ** The world: application state, storage, document, network        *)
(* ================================================================== *)

Record http_request : Type := mkRequest {
  method : string;
  url : string;
  authorization : option string;   (* the Authorization header *)
  body : option value              (* the value given to JSON.stringify *)
}.

(** What [res.json()] yields: the parsed body, or the rejection of an
    absent or unparseable one. *)
Record http_response : Type := mkResponse {
  status : Z;
  json_body : outcome value
}.

Inductive fetched : Type :=
| NetworkFailure (msg : string)
| Response (r : http_response).

Record User : Type := mkUser {
  user_id : option Z;     (* parseInt(payload.sub); None is NaN *)
  role : value;
  username : value
}.

(** The [state] object of app.js. *)
Record AppState : Type := mkState {
  token : value;
  user : option User;
  currentPage : option string;
  books : value;
  totalBooks : value;
  page : Z;
  pageSize : Z;
  searchQuery : string;
  genreFilter : string
}.

Definition initial_state : AppState :=
  {| token := VNull; user := None; currentPage := None;
     books := VArr []; totalBooks := VNum 0; page := 1; pageSize := 20;
     searchQuery := ""; genreFilter := "" |}.

(** Which markup [#app] currently holds. *)
Inductive mounted : Type :=
| AuthPage | DiscoverPage | BookPage | RecommendationsPage | LibraryPage.

Record toast_item : Type := mkToast { toast_text : string; toast_type : string }.

Record World : Type := mkWorld {
  state : AppState;
  mg_refresh : option string;            (* localStorage['mg_refresh'] *)
  navbar_hidden : bool;                  (* #navbar has class hidden *)
  app : mounted;
  toasts : list toast_item;              (* #toast-container, oldest first *)
  nav_username : string;                 (* #nav-username textContent *)
  sent : list http_request;                   (* every fetch issued, oldest first *)
  server : list http_request -> fetched;      (* answer to the last request of a history *)
  auth_fresh : bool                           (* renderAuth has replaced the sign-in form since a submit listener last began *)
}.

Definition set_state (f : AppState -> AppState) (w : World) : World :=
  {| state := f (state w); mg_refresh := mg_refresh w;
     navbar_hidden := navbar_hidden w; app := app w; toasts := toasts w; nav_username := nav_username w;
     sent := sent w; server := server w;
     auth_fresh := auth_fresh w |}.

Definition set_token (t : value) (s : AppState) : AppState :=
  {| token := t; user := user s; currentPage := currentPage s; books := books s;
     totalBooks := totalBooks s; page := page s; pageSize := pageSize s;
     searchQuery := searchQuery s; genreFilter := genreFilter s |}.

Definition set_user (u : option User) (s : AppState) : AppState :=
  {| token := token s; user := u; currentPage := currentPage s; books := books s;
     totalBooks := totalBooks s; page := page s; pageSize := pageSize s;
     searchQuery := searchQuery s; genreFilter := genreFilter s |}.

Definition set_page (p : Z) (s : AppState) : AppState :=
  {| token := token s; user := user s; currentPage := currentPage s; books := books s;
     totalBooks := totalBooks s; page := p; pageSize := pageSize s;
     searchQuery := searchQuery s; genreFilter := genreFilter s |}.

Definition set_searchQuery (q : string) (s : AppState) : AppState :=
  {| token := token s; user := user s; currentPage := currentPage s; books := books s;
     totalBooks := totalBooks s; page := page s; pageSize := pageSize s;
     searchQuery := q; genreFilter := genreFilter s |}.

Definition set_genreFilter (g : string) (s : AppState) : AppState :=
  {| token := token s; user := user s; currentPage := currentPage s; books := books s;
     totalBooks := totalBooks s; page := page s; pageSize := pageSize s;
     searchQuery := searchQuery s; genreFilter := g |}.

Definition set_books (b t : value) (s : AppState) : AppState :=
  {| token := token s; user := user s; currentPage := currentPage s; books := b;
     totalBooks := t; page := page s; pageSize := pageSize s;
     searchQuery := searchQuery s; genreFilter := genreFilter s |}.

Definition set_storage (r : option string) (w : World) : World :=
  {| state := state w; mg_refresh := r; navbar_hidden := navbar_hidden w;
     app := app w; toasts := toasts w; nav_username := nav_username w; sent := sent w; server := server w;
     auth_fresh := auth_fresh w |}.

Definition set_navbar_hidden (h : bool) (w : World) : World :=
  {| state := state w; mg_refresh := mg_refresh w; navbar_hidden := h;
     app := app w; toasts := toasts w; nav_username := nav_username w; sent := sent w; server := server w;
     auth_fresh := auth_fresh w |}.

Definition set_app (m : mounted) (w : World) : World :=
  {| state := state w; mg_refresh := mg_refresh w;
     navbar_hidden := navbar_hidden w; app := m; toasts := toasts w; nav_username := nav_username w;
     sent := sent w; server := server w;
     auth_fresh := auth_fresh w |}.

(** [#app] gets the markup of the sign-in form: a new form, with new
    elements, replaces whatever was there; what a listener of an earlier
    form still holds is detached from the page. *)
Definition render_auth (w : World) : World :=
  {| state := state w; mg_refresh := mg_refresh w;
     navbar_hidden := navbar_hidden w; app := AuthPage; toasts := toasts w;
     nav_username := nav_username w; sent := sent w; server := server w;
     auth_fresh := true |}.

(** A listener of the sign-in form writes to the elements it holds. *)
Definition touch_auth (w : World) : World :=
  {| state := state w; mg_refresh := mg_refresh w;
     navbar_hidden := navbar_hidden w; app := app w; toasts := toasts w;
     nav_username := nav_username w; sent := sent w; server := server w;
     auth_fresh := false |}.

Definition add_toast (t : toast_item) (w : World) : World :=
  {| state := state w; mg_refresh := mg_refresh w;
     navbar_hidden := navbar_hidden w; app := app w;
     toasts := toasts w ++ [t]; nav_username := nav_username w; sent := sent w; server := server w;
     auth_fresh := auth_fresh w |}.

Definition set_nav_username (n : string) (w : World) : World :=
  {| state := state w; mg_refresh := mg_refresh w;
     navbar_hidden := navbar_hidden w; app := app w; toasts := toasts w;
     nav_username := n; sent := sent w; server := server w;
     auth_fresh := auth_fresh w |}.

(** Assigning [v] to textContent, a nullable string: [null] and
    [undefined] give the empty text. *)
Definition as_text (v : value) : string :=
  match v with VNull | VUndefined => "" | _ => to_string v end.

Definition log_request (r : http_request) (w : World) : World :=
  {| state := state w; mg_refresh := mg_refresh w;
     navbar_hidden := navbar_hidden w; app := app w; toasts := toasts w; nav_username := nav_username w;
     sent := sent w ++ [r]; server := server w;
     auth_fresh := auth_fresh w |}.

(* ================================================================== *)
(** ** The monad of handlers                                            *)
(* ================================================================== *)

Definition M (A : Type) : Type := World -> outcome A * World.

Definition ret {A} (a : A) : M A := fun w => (Return a, w).

Definition throw {A} (e : exn) : M A := fun w => (Throw e, w).

Definition bind {A B} (c : M A) (k : A -> M B) : M B := fun w =>
  match c w with
  | (Return a, w') => k a w'
  | (Throw e, w') => (Throw e, w')
  end.

(** [try { c } catch (e) { h e }] *)
Definition try_catch {A} (c : M A) (h : exn -> M A) : M A := fun w =>
  match c w with
  | (Return a, w') => (Return a, w')
  | (Throw e, w') => h e w'
  end.

Definition lift {A} (o : outcome A) : M A := fun w => (o, w).

Definition gets {A} (f : World -> A) : M A := fun w => (Return (f w), w).

Definition modify (f : World -> World) : M unit := fun w => (Return tt, f w).

Declare Scope js_scope.
Delimit Scope js_scope with js.
Notation "x <- c ;; k" := (bind c (fun x => k))
  (at level 61, c at next level, right associativity) : js_scope.
Notation "c ;;; k" := (bind c (fun _ => k))
  (at level 61, right associativity) : js_scope.
Open Scope js_scope.

(* ================================================================== *)
(** ** API client and session (app.js lines 29-137)                     *)
(* ================================================================== *)

Definition API : string := "/api".

Definition ok (r : http_response) : bool := (200 <=? status r) && (status r <=? 299).

(** [await fetch(url, opts)]: the request is logged, the server answers
    the history; a transport failure rejects. *)
Definition fetch (r : http_request) : M http_response := fun w =>
  let w' := log_request r w in
  match server w (sent w') with
  | NetworkFailure msg => (Throw (TypeError msg), w')
  | Response res => (Return res, w')
  end.

Definition json (r : http_response) : M value := lift (json_body r).

Definition showApp : M unit := modify (set_navbar_hidden false).

Definition hideApp : M unit := modify (set_navbar_hidden true).

(** Lines 160-208: the markup.  The listeners of the form are in [Auth]. *)
Definition renderAuth : M unit := modify render_auth.

(** Lines 108-114. *)
Definition logout : M unit :=
  modify (set_state (set_token VNull)) ;;;
  modify (set_state (set_user None)) ;;;
  modify (set_storage None) ;;;
  hideApp ;;;
  renderAuth.

Definition refresh_request (refresh : string) : http_request :=
  {| method := "POST"; url := API ++ "/auth/refresh"; authorization := None;
     body := Some (VObj [("refresh_token", VStr refresh)]) |}.

Definition bearer (t : value) : string := "Bearer " ++ to_string t.

Definition build_request (meth path : string) (b : value) (t : value) : http_request :=
  {| method := meth; url := API ++ path;
     authorization := if truthy t then Some (bearer t) else None;
     body := if truthy b then Some b else None |}.

Definition with_authorization (a : string) (r : http_request) : http_request :=
  {| method := method r; url := url r; authorization := Some a; body := body r |}.

(** Lines 47-49: what the retried response resolves to. *)
Definition retry_result (retry : http_response) : outcome value :=
  if negb (ok retry) then
    match json_body retry with
    | Throw e => Throw e
    | Return payload =>
        match prop payload "detail" with
        | Throw e => Throw e
        | Return detail =>
            Throw (Error (to_string (or_else detail (VStr "Request failed"))))
        end
    end
  else if status retry =? 204 then Return VNull
  else json_body retry.

(** Lines 55-60: what a response other than 401 resolves to. *)
Definition first_result (res : http_response) : outcome value :=
  if negb (ok res) then
    let err := match json_body res with
               | Return payload => payload
               | Throw _ => VObj []            (* .catch(() => ({})) *)
               end in
    match prop err "detail" with
    | Throw e => Throw e
    | Return detail =>
        Throw (Error (to_string
                        (or_else detail
                           (VStr ("Error " ++ num_to_string (status res))))))
    end
  else if status res =? 204 then Return VNull
  else json_body res.

Module api.

(** Lines 63-79. *)
Definition refreshToken : M bool :=
  stored <- gets mg_refresh ;;
  match stored with
  | None => ret false
  | Some refresh =>
      if String.eqb refresh "" then ret false
      else
        try_catch
          (data <- (r <- fetch (refresh_request refresh) ;;
                    if ok r then json r else ret VNull) ;;
           if truthy data then
             access <- lift (prop data "access_token") ;;
             modify (set_state (set_token access)) ;;;
             fresh <- lift (prop data "refresh_token") ;;
             modify (set_storage (Some (to_string fresh))) ;;;
             ret true
           else ret false)
          (fun _ => ret false)
  end.

(** Lines 31-61. *)
Definition request (meth path : string) (b : value) : M value :=
  t <- gets (fun w => token (state w)) ;;
  let opts := build_request meth path b t in
  res <- fetch opts ;;
  if status res =? 401 then
    refreshed <- refreshToken ;;
    if (refreshed : bool) then
      t' <- gets (fun w => token (state w)) ;;
      retry <- fetch (with_authorization (bearer t') opts) ;;
      lift (retry_result retry)
    else
      logout ;;;
      throw (Error "Session expired")
  else lift (first_result res).

Definition get (path : string) : M value := request "GET" path VNull.
Definition post (path : string) (b : value) : M value := request "POST" path b.
Definition put (path : string) (b : value) : M value := request "PUT" path b.
Definition del (path : string) : M value := request "DELETE" path VNull.

End api.


(** *** toast (lines 796-806); the removal after three seconds is left out *)

Definition toast (text kind : string) : M unit :=
  modify (add_toast {| toast_text := text; toast_type := kind |}).

(** *** Identity from the access token (lines 116-127) *)

(** token.split('.') *)
Fixpoint split_dot (s : string) (cur : string) : list string :=
  match s with
  | EmptyString => [cur]
  | String c rest =>
      if Ascii.eqb c "." then cur :: split_dot rest ""
      else split_dot rest (cur ++ String c "")
  end.

Definition sextet (c : ascii) : option N :=
  let n := N_of_ascii c in
  if (65 <=? n)%N && (n <=? 90)%N then Some (n - 65)%N
  else if (97 <=? n)%N && (n <=? 122)%N then Some (n - 71)%N
  else if (48 <=? n)%N && (n <=? 57)%N then Some (n + 4)%N
  else if (n =? 43)%N then Some 62%N
  else if (n =? 47)%N then Some 63%N
  else None.

Fixpoint sextets (s : list ascii) : option (list N) :=
  match s with
  | [] => Some []
  | c :: rest =>
      match sextet c, sextets rest with
      | Some x, Some xs => Some (x :: xs)
      | _, _ => None
      end
  end.

Definition byte (n : N) : ascii := ascii_of_N (n mod 256).

(** Groups of four sextets give three bytes; a last group of two or three
    gives one or two, the spare bits dropped. *)
Fixpoint decode_groups (fuel : nat) (l : list N) : list ascii :=
  match fuel with
  | O => []
  | S fuel' =>
      match l with
      | a :: b :: c :: d :: rest =>
          let n := (a * 262144 + b * 4096 + c * 64 + d)%N in
          byte (n / 65536) :: byte (n / 256) :: byte n :: decode_groups fuel' rest
      | [a; b; c] =>
          let n := (a * 4096 + b * 64 + c)%N in
          [byte (n / 1024); byte (n / 4)]
      | [a; b] => [byte ((a * 64 + b) / 16)]
      | _ => []
      end
  end.

Definition is_base64_space (c : ascii) : bool :=
  existsb (Ascii.eqb c) ["009"; "010"; "012"; "013"; " "]%char.

Definition strip_padding (l : list ascii) : list ascii :=
  if Nat.eqb (Nat.modulo (List.length l) 4) 0 then
    match rev l with
    | "="%char :: "="%char :: r => rev r
    | "="%char :: r => rev r
    | _ => l
    end
  else l.

Definition invalid_character : exn :=
  DOMException "The string to be decoded is not correctly encoded.".

(** atob: the forgiving base64 decoding of the HTML standard, on the
    alphabet [A-Za-z0-9+/]. *)
Definition atob (s : string) : outcome string :=
  let l := filter (fun c => negb (is_base64_space c)) (list_ascii_of_string s) in
  let l := strip_padding l in
  if Nat.eqb (Nat.modulo (List.length l) 4) 1 then Throw invalid_character
  else match sextets l with
       | Some xs => Return (string_of_list_ascii (decode_groups (List.length xs) xs))
       | None => Throw invalid_character
       end.

(** token.split('.')[1], for any value the token variable may hold. *)
Definition middle_segment (tok : value) : outcome value :=
  match tok with
  | VStr s => Return (nth 1 (map VStr (split_dot s "")) VUndefined)
  | VUndefined | VNull => prop tok "split"
  | _ => Throw (TypeError "token.split is not a function")
  end.

Section Decode.

(** JSON.parse, which the engine provides. *)
Variable JSON_parse : string -> outcome value.

(** Lines 116-127. *)
Definition decodeAndSetUser (tok : value) : M unit :=
  try_catch
    (seg <- lift (middle_segment tok) ;;
     text <- lift (atob (to_string seg)) ;;
     payload <- lift (JSON_parse text) ;;
     sub <- lift (prop payload "sub") ;;
     r <- lift (prop payload "role") ;;
     name <- lift (prop payload "username") ;;
     let u := {| user_id := parseInt (to_string sub);
                 role := or_else r (VStr "user");
                 username := or_else name (VStr ("User " ++ to_string sub)) |} in
     modify (set_state (set_user (Some u))) ;;;
     modify (set_nav_username (as_text (username u))))
    (fun _ => ret tt).

End Decode.

(** The URL-safe alphabet of a token segment, brought to the one of
    base64: [-] is [+] and [_] is [/]. *)
Definition from_url_safe (s : string) : string :=
  string_of_list_ascii
    (map (fun c => if Ascii.eqb c "-" then "+"%char
                   else if Ascii.eqb c "_" then "/"%char else c)
       (list_ascii_of_string s)).

Definition base64url_decode (s : string) : outcome string := atob (from_url_safe s).

(* ================================================================== *)
(** ** Discover view (app.js lines 252-400)                             *)
(* ================================================================== *)

Module Discover.

Inductive grid_content : Type :=
| Blank                              (* as mounted by renderDiscover *)
| Skeleton                           (* eight placeholder cards *)
| NoResults
| Cards (cards : list value)         (* one card per book, in order *)
| LoadError (text : string).

(** A rendered button of the pagination bar. *)
Record button : Type := mkButton {
  disabled : bool;
  data_page : Z        (* parseInt(btn.dataset.page): the number written there,
                          see parseInt_num_to_string *)
}.

Record pagination_bar : Type := mkBar {
  previous : button;
  info : string;
  next : button
}.

(** One instance of the view: its elements, the variables its closures
    capture, and the timeouts it has armed and not yet run or cleared. *)
Record View : Type := mkView {
  input_value : string;              (* #search-input .value *)
  searchTimer : option Z;            (* let searchTimer: the last timer id *)
  now : Z;                           (* the clock, in milliseconds *)
  timers : list (Z * Z);             (* pending timeouts: (id, due), oldest first *)
  next_timer : Z;                    (* the id setTimeout returns next *)
  grid : grid_content;
  pagination : option pagination_bar;   (* None: #pagination is empty *)
  pagination_listeners : nat;        (* click listeners on #pagination *)
  chips : list (string * bool)       (* genre chips: label, has class active *)
}.

Definition set_input (s : string) (v : View) : View :=
  {| input_value := s; searchTimer := searchTimer v; now := now v;
     timers := timers v; next_timer := next_timer v; grid := grid v;
     pagination := pagination v; pagination_listeners := pagination_listeners v;
     chips := chips v |}.

Definition set_timers (slot : option Z) (ts : list (Z * Z)) (nx : Z) (v : View) : View :=
  {| input_value := input_value v; searchTimer := slot; now := now v;
     timers := ts; next_timer := nx; grid := grid v;
     pagination := pagination v; pagination_listeners := pagination_listeners v;
     chips := chips v |}.

Definition set_now (t : Z) (v : View) : View :=
  {| input_value := input_value v; searchTimer := searchTimer v; now := t;
     timers := timers v; next_timer := next_timer v; grid := grid v;
     pagination := pagination v; pagination_listeners := pagination_listeners v;
     chips := chips v |}.

Definition set_grid (g : grid_content) (v : View) : View :=
  {| input_value := input_value v; searchTimer := searchTimer v; now := now v;
     timers := timers v; next_timer := next_timer v; grid := g;
     pagination := pagination v; pagination_listeners := pagination_listeners v;
     chips := chips v |}.

Definition set_pagination (p : option pagination_bar) (n : nat) (v : View) : View :=
  {| input_value := input_value v; searchTimer := searchTimer v; now := now v;
     timers := timers v; next_timer := next_timer v; grid := grid v;
     pagination := p; pagination_listeners := n; chips := chips v |}.

Definition set_chips (c : list (string * bool)) (v : View) : View :=
  {| input_value := input_value v; searchTimer := searchTimer v; now := now v;
     timers := timers v; next_timer := next_timer v; grid := grid v;
     pagination := pagination v; pagination_listeners := pagination_listeners v;
     chips := c |}.

Definition is_discover (m : mounted) : bool :=
  match m with DiscoverPage => true | _ => false end.

(** Math.ceil(total / pageSize); [None] when the quotient is not a finite
    number ([state.pageSize] is 20 and never assigned; a zero page size is
    answered as NaN). *)
Definition ceil_div (total : option Z) (size : Z) : option Z :=
  match total with
  | Some t => if size =? 0 then None else Some (- ((- t) / size))
  | None => None
  end.

Definition totalPages (s : AppState) : option Z :=
  ceil_div (to_number (totalBooks s)) (pageSize s).

(** [x <= 1] and [p >= x] for a possibly non-finite [x]. *)
Definition at_most_one (x : option Z) : bool :=
  match x with Some n => n <=? 1 | None => false end.

Definition reaches (p : Z) (x : option Z) : bool :=
  match x with Some n => n <=? p | None => false end.

Definition shown_pages (x : option Z) : string :=
  match x with Some n => num_to_string n | None => "NaN" end.

Definition render_bar (s : AppState) : pagination_bar :=
  {| previous := {| disabled := page s <=? 1;
                    data_page := page s - 1 |};
     info := "Page " ++ num_to_string (page s) ++ " of " ++ shown_pages (totalPages s);
     next := {| disabled := reaches (page s) (totalPages s);
                data_page := page s + 1 |} |}.

(** Lines 381-392; every rendering of the bar adds a click listener. *)
Definition renderPagination (v : View) : M View :=
  m <- gets app ;;
  if negb (is_discover m) then ret v
  else
    s <- gets state ;;
    if at_most_one (totalPages s) then
      ret (set_pagination None (pagination_listeners v) v)
    else
      ret (set_pagination (Some (render_bar s)) (S (pagination_listeners v)) v).

Definition not_a_function (what : string) : exn :=
  TypeError (what ++ " is not a function").

(** createBookCard: the card of a book.  Only what can make it throw is
    kept of the markup. *)
Definition createBookCard (book : value) : outcome value :=
  match prop book "genre" with
  | Throw e => Throw e
  | Return _ =>
      match prop book "avg_rating" with
      | Throw e => Throw e
      | Return avg =>
          if positive avg then
            match avg with
            | VNum _ => Return book
            | _ => Throw (not_a_function "book.avg_rating.toFixed")
            end
          else Return book
      end
  end.

Fixpoint for_each_card (bs : list value) : outcome (list value) :=
  match bs with
  | [] => Return []
  | b :: rest =>
      match createBookCard b with
      | Throw e => Throw e
      | Return c =>
          match for_each_card rest with
          | Throw e => Throw e
          | Return cs => Return (c :: cs)
          end
      end
  end.

Definition books_url (s : AppState) : string :=
  "/books?page=" ++ num_to_string (page s)
  ++ "&page_size=" ++ num_to_string (pageSize s)
  ++ (if String.eqb (searchQuery s) "" then ""
      else "&search=" ++ encodeURIComponent (searchQuery s))
  ++ (if String.eqb (genreFilter s) "" then ""
      else "&genre=" ++ encodeURIComponent (genreFilter s)).

(** Lines 316-360. *)
Definition loadBooks (v : View) : M View :=
  m <- gets app ;;
  if negb (is_discover m) then ret v
  else
    let v := set_grid Skeleton v in
    try_catch
      (s <- gets state ;;
       data <- api.get (books_url s) ;;
       bs <- lift (prop data "books") ;;
       total <- lift (prop data "total") ;;
       modify (set_state (set_books bs total)) ;;;
       len <- lift (prop bs "length") ;;
       g <- (if strict_eq len (VNum 0) then ret NoResults
             else match bs with
                  | VArr items =>
                      cards <- lift (for_each_card items) ;; ret (Cards cards)
                  | _ => throw (not_a_function "data.books.forEach")
                  end) ;;
       renderPagination (set_grid g v))
      (fun err => ret (set_grid (LoadError (message err)) v)).

(** The callback of the search timeout (lines 281-283). *)
Definition search_fire (v : View) : M View :=
  modify (set_state (set_searchQuery (trim (input_value v)))) ;;;
  modify (set_state (set_page 1)) ;;;
  loadBooks v.

Definition delay : Z := 350.

Fixpoint remove_timer (id : Z) (ts : list (Z * Z)) : list (Z * Z) :=
  match ts with
  | [] => []
  | (i, due) :: rest => if i =? id then rest else (i, due) :: remove_timer id rest
  end.

Definition clearTimeout (slot : option Z) (ts : list (Z * Z)) : list (Z * Z) :=
  match slot with
  | Some id => remove_timer id ts
  | None => ts
  end.

(** The input listener (lines 278-285): the user has made the field hold
    [s]. *)
Definition on_input (s : string) (v : View) : View :=
  let v := set_input s v in
  let ts := clearTimeout (searchTimer v) (timers v) in
  let id := next_timer v in
  set_timers (Some id) (ts ++ [(id, now v + delay)]) (id + 1) v.

(** Run, oldest first, the pending timeouts that are due at [t]. *)
Fixpoint run_due (t : Z) (pending : list (Z * Z)) (v : View) : M View :=
  match pending with
  | [] => ret v
  | (id, due) :: rest =>
      if due <=? t then
        v1 <- search_fire (set_timers (searchTimer v) (remove_timer id (timers v))
                             (next_timer v) v) ;;
        run_due t rest v1
      else run_due t rest v
  end.

(** [ms] milliseconds pass without any event of the user. *)
Definition wait (ms : Z) (v : View) : M View :=
  let t := now v + ms in
  run_due t (timers v) (set_now t v).

Definition genres : list string :=
  ["All"; "Classic"; "Fantasy"; "Science Fiction"; "Thriller"; "Romance";
   "Dystopian"; "Non-Fiction"; "Memoir"; "Fiction"; "Horror"].

Definition data_genre (g : string) : string :=
  if String.eqb g "All" then "" else g.

(** Lines 292-303. *)
Definition renderGenreChips (v : View) : M View :=
  m <- gets app ;;
  if negb (is_discover m) then ret v
  else
    s <- gets state ;;
    ret (set_chips
           (map (fun g =>
                   (g, (String.eqb g "All" && String.eqb (genreFilter s) "")
                       || String.eqb (genreFilter s) g))
                genres) v).

(** The click listener of the chips (lines 305-313), for a click on the
    chip [g]. *)
Definition on_chip (g : string) (v : View) : M View :=
  modify (set_state (set_genreFilter (data_genre g))) ;;;
  modify (set_state (set_page 1)) ;;;
  loadBooks (set_chips (map (fun c => (fst c, String.eqb (fst c) g)) (chips v)) v).

(** One click listener of [#pagination] (lines 393-399), for a click on
    [btn]. *)
Definition on_page_button (btn : button) (v : View) : M View :=
  if disabled btn then ret v
  else
    modify (set_state (set_page (data_page btn))) ;;;
    loadBooks v.

(** The value attribute is written between double quotes, which
    escapeHtml leaves as they are: the field holds the query up to its
    first double quote. *)
Fixpoint until_quote (s : string) : string :=
  match s with
  | EmptyString => EmptyString
  | String c rest =>
      if Nat.eqb (nat_of_ascii c) 34 then EmptyString
      else String c (until_quote rest)
  end.

(** The markup of lines 255-274 and the variable of line 277. *)
Definition mount (s : AppState) : View :=
  {| input_value := until_quote (searchQuery s); searchTimer := None; now := 0; timers := [];
     next_timer := 1; grid := Blank; pagination := None;
     pagination_listeners := 0; chips := [] |}.

(** Lines 253-290. *)
Definition renderDiscover : M View :=
  modify (set_app DiscoverPage) ;;;
  s <- gets state ;;
  v <- loadBooks (mount s) ;;
  renderGenreChips v.

End Discover.

(* ================================================================== *)
(** ** Book Detail view (app.js lines 402-570)                          *)
(* ================================================================== *)

Module Detail.

(** Child nodes of an action button.  Text is kept as displayed, without
    the white space of the template. *)
Inductive node : Type :=
| TextNode (text : string)
| Svg (fill : string).

Record action_button : Type := mkAction {
  classes : list string;
  children : list node
}.

Record star : Type := mkStar {
  data_value : Z;      (* parseInt(star.dataset.value): the number written there,
                          see parseInt_num_to_string *)
  filled : bool;
  hovered : bool
}.

Record View : Type := mkView {
  bookId : Z;
  like_btn : action_button;
  bookmark_btn : action_button;
  stars : list star;
  rating_label : string;       (* #rating-label textContent *)
  currentRating : value        (* let currentRating *)
}.

Definition set_like (b : action_button) (v : View) : View :=
  {| bookId := bookId v; like_btn := b; bookmark_btn := bookmark_btn v;
     stars := stars v; rating_label := rating_label v;
     currentRating := currentRating v |}.

Definition set_bookmark (b : action_button) (v : View) : View :=
  {| bookId := bookId v; like_btn := like_btn v; bookmark_btn := b;
     stars := stars v; rating_label := rating_label v;
     currentRating := currentRating v |}.

Definition set_rating (r : value) (st : list star) (l : string) (v : View) : View :=
  {| bookId := bookId v; like_btn := like_btn v; bookmark_btn := bookmark_btn v;
     stars := st; rating_label := l; currentRating := r |}.

(** What the user has done with the book, folded from the interaction
    records (lines 411-421). *)
Record marks : Type := mkMarks {
  userLiked : bool;
  userBookmarked : bool;
  userRating : value
}.

Definition no_marks : marks :=
  {| userLiked := false; userBookmarked := false; userRating := VNum 0 |}.

(** The body of the forEach callback. *)
Definition mark_one (bookId : Z) (i : value) (m : marks) : outcome marks :=
  match prop i "book_id" with
  | Throw e => Throw e
  | Return b =>
      if strict_eq b (VNum bookId) then
        match prop i "interaction_type", prop i "rating" with
        | Return t, Return r =>
            Return
              {| userLiked := userLiked m || strict_eq t (VStr "like");
                 userBookmarked := userBookmarked m || strict_eq t (VStr "bookmark");
                 userRating := if strict_eq t (VStr "rate") && truthy r then r
                               else userRating m |}
        | Throw e, _ | _, Throw e => Throw e
        end
      else Return m
  end.

(** interactions.forEach(...): the marks reached, and the exception that
    stopped the loop if one did. *)
Fixpoint mark_all (bookId : Z) (records : list value) (m : marks) : marks * option exn :=
  match records with
  | [] => (m, None)
  | i :: rest =>
      match mark_one bookId i m with
      | Return m' => mark_all bookId rest m'
      | Throw e => (m, Some e)
      end
  end.

(** [i <= userRating] *)
Definition at_most (i : Z) (r : value) : bool :=
  match to_number r with Some n => i <=? n | None => false end.

Definition render_action (active : bool) (active_class label active_label : string)
  : action_button :=
  {| classes := "action-btn" :: (if active then [active_class] else []);
     children := [Svg (if active then "currentColor" else "none");
                  TextNode (if active then active_label else label)] |}.

(** The markup of lines 459-478. *)
Definition mount (id : Z) (m : marks) : View :=
  {| bookId := id;
     like_btn := render_action (userLiked m) "active-like" "Like" "Liked";
     bookmark_btn := render_action (userBookmarked m) "active-bookmark" "Bookmark" "Bookmarked";
     stars := map (fun i => {| data_value := i; filled := at_most i (userRating m);
                               hovered := false |}) [1; 2; 3; 4; 5];
     rating_label := if positive (userRating m)
                     then "You rated " ++ to_string (userRating m) ++ "/5"
                     else "Click to rate";
     currentRating := userRating m |}.

Definition contains (cls : string) (b : action_button) : bool :=
  existsb (String.eqb cls) (classes b).

Definition class_add (cls : string) (b : action_button) : action_button :=
  {| classes := if contains cls b then classes b else classes b ++ [cls];
     children := children b |}.

Fixpoint has_svg (ns : list node) : bool :=
  match ns with
  | [] => false
  | Svg _ :: _ => true
  | TextNode _ :: rest => has_svg rest
  end.

(** this.querySelector('svg').setAttribute('fill', f) *)
Fixpoint fill_first_svg (f : string) (ns : list node) : list node :=
  match ns with
  | [] => []
  | Svg _ :: rest => Svg f :: rest
  | TextNode t :: rest => TextNode t :: fill_first_svg f rest
  end.

(** this.lastElementChild?.remove(): the last child that is an element. *)
Fixpoint remove_last_element (ns : list node) : list node :=
  match ns with
  | [] => []
  | Svg f :: rest => if has_svg rest then Svg f :: remove_last_element rest else rest
  | TextNode t :: rest => TextNode t :: remove_last_element rest
  end.

(** What a confirmed write does to the button (lines 501-504, 514-517). *)
Definition activate (cls text : string) (b : action_button) : outcome action_button :=
  let b := class_add cls b in
  if has_svg (children b) then
    Return {| classes := classes b;
              children := remove_last_element
                            (fill_first_svg "currentColor" (children b))
                          ++ [TextNode text] |}
  else Throw (TypeError (cannot_read "setAttribute" "null")).

(** textContent of the button. *)
Fixpoint label (ns : list node) : string :=
  match ns with
  | [] => ""
  | TextNode t :: rest => t ++ label rest
  | Svg _ :: rest => label rest
  end.

Definition interaction (id : Z) (kind : string) : value :=
  VObj [("book_id", VNum id); ("interaction_type", VStr kind)].

(** Lines 497-507. *)
Definition on_like (v : View) : M View :=
  if contains "active-like" (like_btn v) then ret v
  else
    try_catch
      (_ <- api.post "/interactions" (interaction (bookId v) "like") ;;
       (* the class is added before the icon is looked up *)
       match activate "active-like" " Liked" (like_btn v) with
       | Return b => toast "Added to your likes ❤️" "success" ;;; ret (set_like b v)
       | Throw e =>
           toast (message e) "error" ;;;
           ret (set_like (class_add "active-like" (like_btn v)) v)
       end)
      (fun err => toast (message err) "error" ;;; ret v).

(** Lines 510-520. *)
Definition on_bookmark (v : View) : M View :=
  if contains "active-bookmark" (bookmark_btn v) then ret v
  else
    try_catch
      (_ <- api.post "/interactions" (interaction (bookId v) "bookmark") ;;
       match activate "active-bookmark" " Bookmarked" (bookmark_btn v) with
       | Return b => toast "Bookmarked! 🔖" "success" ;;; ret (set_bookmark b v)
       | Throw e =>
           toast (message e) "error" ;;;
           ret (set_bookmark (class_add "active-bookmark" (bookmark_btn v)) v)
       end)
      (fun err => toast (message err) "error" ;;; ret v).

Definition rate_body (id val : Z) : value :=
  VObj [("book_id", VNum id); ("interaction_type", VStr "rate"); ("rating", VNum val)].

(** stars.forEach((s, i) => s.classList.toggle('filled', i < val)) *)
Fixpoint fill_stars (val : Z) (i : Z) (st : list star) : list star :=
  match st with
  | [] => []
  | s :: rest =>
      {| data_value := data_value s; filled := i <? val; hovered := hovered s |}
      :: fill_stars val (i + 1) rest
  end.

(** The click listener of the star [s] (lines 536-550). *)
Definition on_star (s : star) (v : View) : M View :=
  let val := data_value s in
  if strict_eq (VNum val) (currentRating v) then ret v
  else
    try_catch
      (_ <- api.post "/interactions" (rate_body (bookId v) val) ;;
       toast ("Rated " ++ num_to_string val ++ " star"
              ++ (if 1 <? val then "s" else "") ++ " ⭐") "success" ;;;
       ret (set_rating (VNum val) (fill_stars val 0 (stars v))
              ("You rated " ++ num_to_string val ++ "/5") v))
      (fun err => toast (message err) "error" ;;; ret v).

End Detail.

(* ================================================================== *)
(** ** Library view (app.js lines 662-773)                              *)
(* ================================================================== *)

Module Library.

Record row : Type := mkRow {
  data_book_id : string;      (* the data-book-id attribute *)
  title : string;             (* .library-item-title textContent *)
  record : value              (* the interaction the row shows *)
}.

Inductive content : Type :=
| Loading
| NothingHere (filter : string)
| Rows (rows : list row)
| LoadError (text : string).

Record View : Type := mkView {
  activeFilter : string;
  allInteractions : value;
  active_tab : string;        (* data-filter of the tab with class active *)
  shown : content             (* #library-content *)
}.


Definition set_interactions (a : value) (v : View) : View :=
  {| activeFilter := activeFilter v; allInteractions := a;
     active_tab := active_tab v; shown := shown v |}.

Definition set_shown (c : content) (v : View) : View :=
  {| activeFilter := activeFilter v; allInteractions := allInteractions v;
     active_tab := active_tab v; shown := c |}.

Definition is_library (m : mounted) : bool :=
  match m with LibraryPage => true | _ => false end.

(** i => i.interaction_type === filter *)
Definition has_type (filter : string) (i : value) : outcome bool :=
  match prop i "interaction_type" with
  | Return t => Return (strict_eq t (VStr filter))
  | Throw e => Throw e
  end.

Fixpoint filter_by (filter : string) (l : list value) : outcome (list value) :=
  match l with
  | [] => Return []
  | i :: rest =>
      match has_type filter i with
      | Throw e => Throw e
      | Return keep =>
          match filter_by filter rest with
          | Throw e => Throw e
          | Return kept => Return (if keep then i :: kept else kept)
          end
      end
  end.

(** The rows of filtered.map(...). *)
Fixpoint render_rows (l : list value) : outcome (list row) :=
  match l with
  | [] => Return []
  | i :: rest =>
      match prop i "book_id" with
      | Throw e => Throw e
      | Return id =>
          match render_rows rest with
          | Throw e => Throw e
          | Return rows =>
              Return ({| data_book_id := to_string id;
                         title := "Book #" ++ to_string id;
                         record := i |} :: rows)
          end
      end
  end.

(** [...new Set(l)]: first occurrences, in order. *)
Fixpoint distinct (l : list value) : list value :=
  match l with
  | [] => []
  | x :: rest => x :: filter (fun y => negb (strict_eq x y)) (distinct rest)
  end.

Definition book_ids (l : list value) : list value :=
  map (fun i => match prop i "book_id" with
                | Return id => id
                | Throw _ => VUndefined
                end) l.

Definition retitle (id : string) (t : string) (rows : list row) : list row :=
  map (fun r => if String.eqb (data_book_id r) id
                then {| data_book_id := data_book_id r; title := t; record := record r |}
                else r) rows.

(** The loop of enrichLibraryItems over the distinct ids (lines 765-772). *)
Fixpoint enrich (ids : list value) (rows : list row) : M (list row) :=
  match ids with
  | [] => ret rows
  | id :: rest =>
      rows' <- try_catch
                 (book <- api.get ("/books/" ++ to_string id) ;;
                  m <- gets app ;;
                  t <- lift (prop book "title") ;;
                  (* the rows are looked up in the document *)
                  ret (if is_library m then retitle (to_string id) (as_text t) rows
                       else rows))
                 (fun _ => ret rows) ;;
      enrich rest rows'
  end.

Definition enrichLibraryItems (interactions : list value) (rows : list row)
  : M (list row) :=
  enrich (distinct (book_ids interactions)) rows.

(** Lines 715-761.  The rows are written before the titles are fetched:
    whatever the fetches do, the list is on the page. *)
Definition renderLibraryList (interactions : value) (filter : string) (v : View)
  : M View :=
  m <- gets app ;;
  if negb (is_library m) then ret v
  else
    filtered <-
      (if String.eqb filter "all" then ret interactions
       else match interactions with
            | VArr l => kept <- lift (filter_by filter l) ;; ret (VArr kept)
            | VUndefined | VNull => lift (prop interactions "filter")
            | _ => throw (TypeError "interactions.filter is not a function")
            end) ;;
    len <- lift (prop filtered "length") ;;
    if strict_eq len (VNum 0) then ret (set_shown (NothingHere filter) v)
    else
      match filtered with
      | VArr l =>
          rows <- lift (render_rows l) ;;
          rows' <- enrichLibraryItems l rows ;;
          ret (set_shown (Rows rows') v)
      | _ => throw (TypeError "filtered.map is not a function")
      end.


Definition interactions_path : string := "/interactions/me?page_size=100".

(** Lines 663-713. *)
Definition renderLibrary : M View :=
  modify (set_app LibraryPage) ;;;
  let v := {| activeFilter := "all"; allInteractions := VArr [];
              active_tab := "all"; shown := Loading |} in
  try_catch
    (a <- api.get interactions_path ;;
     let v := set_interactions a v in
     try_catch (renderLibraryList a (activeFilter v) v)
       (fun err => ret (set_shown (LoadError (message err)) v)))
    (fun err => ret (set_shown (LoadError (message err)) v)).

End Library.

(* ================================================================== *)
(** ** Vocabulary of the statements                                     *)
(* ================================================================== *)

(** The value of a decimal numeral read from the left, after [acc]. *)
Fixpoint horner (d : Decimal.uint) (acc : Z) : Z :=
  match d with
  | Decimal.Nil => acc
  | Decimal.D0 d => horner d (10 * acc)
  | Decimal.D1 d => horner d (10 * acc + 1)
  | Decimal.D2 d => horner d (10 * acc + 2)
  | Decimal.D3 d => horner d (10 * acc + 3)
  | Decimal.D4 d => horner d (10 * acc + 4)
  | Decimal.D5 d => horner d (10 * acc + 5)
  | Decimal.D6 d => horner d (10 * acc + 6)
  | Decimal.D7 d => horner d (10 * acc + 7)
  | Decimal.D8 d => horner d (10 * acc + 8)
  | Decimal.D9 d => horner d (10 * acc + 9)
  end.


(** The answer the server gives to [r] when it is sent from world [w]. *)
Definition answer (w : World) (r : http_request) : fetched :=
  server w (sent w ++ [r]).

(** The world once the requests [t] have been sent. *)
Definition after_trace (w : World) (t : list http_request) : World :=
  fold_left (fun w r => log_request r w) t w.

(** The requests [api.refreshToken] issues from [w]: none without a stored
    token, else the one refresh call. *)
Definition refresh_trace (w : World) : list http_request :=
  match mg_refresh w with
  | None => []
  | Some refresh =>
      if String.eqb refresh "" then [] else [refresh_request refresh]
  end.

(** The payload of the refresh that succeeds from [w], if it does: a
    token is stored, the answer is 2xx and its body parses to a truthy
    value. *)
Definition refresh_payload (w : World) : option value :=
  match mg_refresh w with
  | None => None
  | Some refresh =>
      if String.eqb refresh "" then None
      else match answer w (refresh_request refresh) with
           | NetworkFailure _ => None
           | Response r =>
               if ok r then
                 match json_body r with
                 | Return data => if truthy data then Some data else None
                 | Throw _ => None
                 end
               else None
           end
  end.

Definition or_undefined (o : outcome value) : value :=
  match o with Return v => v | Throw _ => VUndefined end.

(** The world a successful refresh with payload [data] leaves. *)
Definition refreshed_world (w : World) (data : value) : World :=
  set_storage (Some (to_string (or_undefined (prop data "refresh_token"))))
    (set_state (set_token (or_undefined (prop data "access_token")))
       (after_trace w (refresh_trace w))).

(** The world [logout()] leaves. *)
Definition logged_out (w : World) : World :=
  render_auth
    (set_navbar_hidden true
       (set_storage None
          (set_state (set_user None) (set_state (set_token VNull) w)))).

Definition result_of {A} (x : outcome A * World) : outcome A := fst x.
Definition world_of {A} (x : outcome A * World) : World := snd x.

(** The requests sent between two worlds. *)
Definition sent_since (w w' : World) : list http_request :=
  skipn (List.length (sent w)) (sent w').

(** *** Worlds and servers of the examples *)

Definition last_request (log : list http_request) : option http_request :=
  match rev log with r :: _ => Some r | [] => None end.

Definition is_refresh_call (r : http_request) : bool :=
  String.eqb (url r) (API ++ "/auth/refresh").

Definition token_pair (access refresh : string) : value :=
  VObj [("access_token", VStr access); ("refresh_token", VStr refresh)].

Definition detail_body (text : string) : value := VObj [("detail", VStr text)].

(** Answers the refresh call with a new pair of tokens and every other
    request with [other]. *)
Definition refreshing_server (other : http_response) (log : list http_request) : fetched :=
  match last_request log with
  | Some r =>
      if is_refresh_call r
      then Response {| status := 200; json_body := Return (token_pair "new" "r2") |}
      else Response other
  | None => Response other
  end.

(** Answers every request with [res]. *)
Definition constant_server (res : fetched) (log : list http_request) : fetched := res.

(** Answers 401 until a request carries the refreshed token. *)
Definition expiring_server (fresh : http_response) (log : list http_request) : fetched :=
  match last_request log with
  | Some r =>
      if is_refresh_call r
      then Response {| status := 200; json_body := Return (token_pair "new" "r2") |}
      else match authorization r with
           | Some "Bearer new" => Response fresh
           | _ => Response {| status := 401;
                              json_body := Return (detail_body "Token expired") |}
           end
  | None => Response fresh
  end.

(** A signed-in session showing [m]. *)
Definition session (m : mounted) (srv : list http_request -> fetched) : World :=
  {| state := set_token (VStr "old") initial_state;
     mg_refresh := Some "r1"; navbar_hidden := false; app := m; toasts := [];
     nav_username := "reader"; sent := []; server := srv; auth_fresh := false |}.

Definition unauthorized : http_response :=
  {| status := 401; json_body := Return (detail_body "Not authenticated") |}.

Definition book7 : http_response :=
  {| status := 200; json_body := Return (VObj [("id", VNum 7); ("title", VStr "Emma")]) |}.


Definition get_book7 (t : value) : http_request := build_request "GET" "/books/7" VNull t.

(** [c] leaves the observation [f] of the world as it found it. *)
Definition keeps {A X : Type} (f : World -> X) (c : M A) : Prop :=
  forall w, f (world_of (c w)) = f w.

(** The request is the refresh call, or the request [meth path b] under
    some Authorization header. *)
Definition refresh_or (meth path : string) (b : value) (r : http_request) : Prop :=
  (exists refresh, r = refresh_request refresh)
  \/ (method r = meth /\ url r = API ++ path
      /\ body r = (if truthy b then Some b else None)).

(** The user types: each key comes [gap] milliseconds after the event
    before it and leaves the field holding [s]. *)
Fixpoint type_keys (keys : list (Z * string)) (v : Discover.View) : M Discover.View :=
  match keys with
  | [] => ret v
  | (gap, s) :: rest =>
      v1 <- Discover.wait gap v ;;
      type_keys rest (Discover.on_input s v1)
  end.

(** What the field holds after the keys. *)
Definition typed (first : string) (keys : list (Z * string)) : string :=
  last (map snd keys) first.

(** The state a query for [q] starts from. *)
Definition query_state (q : string) (s : AppState) : AppState :=
  set_page 1 (set_searchQuery q s).

Definition books_request (s : AppState) : http_request :=
  build_request "GET" (Discover.books_url s) VNull (token s).

(** The search timeout [id] is the only pending one, armed at the
    current instant, and the slot of the closure names it. *)
Definition armed (v : Discover.View) : Prop :=
  exists id, Discover.timers v = [(id, Discover.now v + Discover.delay)]
             /\ Discover.searchTimer v = Some id.

(** At most the timeout the slot names is pending. *)
Definition single_slot (v : Discover.View) : Prop :=
  Discover.timers v = []
  \/ exists id due, Discover.timers v = [(id, due)]
                    /\ Discover.searchTimer v = Some id.

Definition empty_list : http_response :=
  {| status := 200;
     json_body := Return (VObj [("books", VArr []); ("total", VNum 0)]) |}.

(** The user types "fantasy", pauses for less than the delay, and goes on
    to "fantasy novel": the keys after the first "f". *)
Definition fantasy_novel_keys : list (Z * string) :=
    [(90, "fa");
     (90, "fan");
     (90, "fant");
     (90, "fanta");
     (90, "fantas");
     (90, "fantasy");
     (200, "fantasy ");
     (90, "fantasy n");
     (90, "fantasy no");
     (90, "fantasy nov");
     (90, "fantasy nove");
     (90, "fantasy novel")].

Definition created : http_response :=
  {| status := 201; json_body := Return (VObj [("id", VNum 1)]) |}.

Definition server_error : http_response :=
  {| status := 500; json_body := Return (detail_body "Internal error") |}.

Definition like_request (id : Z) (t : value) : http_request :=
  build_request "POST" "/interactions" (Detail.interaction id "like") t.

Definition rate_request (id val : Z) (t : value) : http_request :=
  build_request "POST" "/interactions" (Detail.rate_body id val) t.

Definition error_toast (e : exn) : toast_item :=
  {| toast_text := message e; toast_type := "error" |}.







(** *** Tokens of the examples *)

(** An integer a double holds exactly, and parseInt and the template
    literals read and print exactly. *)
Definition exact_integer (n : Z) : Prop :=
  - 9007199254740992 <= n <= 9007199254740992.

Definition dq : string := String (ascii_of_nat 34) EmptyString.

(** The text of the JSON object with the members sub, role and username. *)
Definition claims_text (sub role name : string) : string :=
  "{" ++ dq ++ "sub" ++ dq ++ ":" ++ dq ++ sub ++ dq ++ ","
  ++ dq ++ "role" ++ dq ++ ":" ++ dq ++ role ++ dq ++ ","
  ++ dq ++ "username" ++ dq ++ ":" ++ dq ++ name ++ dq ++ "}".

Definition claims (sub role name : string) : value :=
  VObj [("sub", VStr sub); ("role", VStr role); ("username", VStr name)].

Definition jwt_header : string := "eyJhbGciOiJIUzI1NiIsInR5cCI6IkpXVCJ9".

(** The claims of the user "a~b", in the URL-safe alphabet. *)
Definition tilde_segment : string := "eyJzdWIiOiI3Iiwicm9sZSI6InVzZXIiLCJ1c2VybmFtZSI6ImF-YiJ9".

(** The claims of the user "reader". *)
Definition reader_segment : string := "eyJzdWIiOiI3Iiwicm9sZSI6InVzZXIiLCJ1c2VybmFtZSI6InJlYWRlciJ9".

Definition jwt (segment : string) : value :=
  VStr (jwt_header ++ "." ++ segment ++ ".c2lnbmF0dXJl").

(** A parser that knows the two texts of the examples. *)
Definition example_parse (text : string) : outcome value :=
  if String.eqb text (claims_text "7" "user" "a~b") then Return (claims "7" "user" "a~b")
  else if String.eqb text (claims_text "7" "user" "reader")
       then Return (claims "7" "user" "reader")
       else Throw (SyntaxError "Unexpected token").

(* ================================================================== *)
(** ** The rest of app.js                                               *)
(* ================================================================== *)

(** *** Utilities (lines 776-794) *)

(** The serialisation of a text node by innerHTML: the ampersand, the
    angle brackets and the no-break space (bytes C2 A0) become entities. *)
Fixpoint escape_text (s : string) : string :=
  match s with
  | EmptyString => EmptyString
  | String c rest =>
      let n := nat_of_ascii c in
      if Nat.eqb n 38 then "&amp;" ++ escape_text rest
      else if Nat.eqb n 60 then "&lt;" ++ escape_text rest
      else if Nat.eqb n 62 then "&gt;" ++ escape_text rest
      else
        match rest with
        | String c2 rest2 =>
            if Nat.eqb n 194 && Nat.eqb (nat_of_ascii c2) 160
            then "&nbsp;" ++ escape_text rest2
            else String c (escape_text rest)
        | EmptyString => String c EmptyString
        end
  end.

(** Lines 776-781. *)
Definition escapeHtml (str : value) : string :=
  if truthy str then escape_text (to_string str) else "".

Section Dates.

(** The instant [new Date(dateStr)] denotes, in milliseconds; [None] is
    the invalid date. *)
Variable Date_parse : value -> option Z.

(** d.toLocaleDateString('en-US', { month: 'short', day: 'numeric' }) *)
Variable toLocaleDateString : Z -> string.


End Dates.

(** *** The page buttons: every listener of [#pagination] runs *)

(** A click on [btn] runs the [n] click listeners registered on
    [#pagination] when it happens (lines 393-399, once per rendering of the
    bar). *)
Fixpoint dispatch_page_click (n : nat) (btn : Discover.button) (v : Discover.View)
  : M Discover.View :=
  match n with
  | O => ret v
  | S k =>
      v1 <- Discover.on_page_button btn v ;;
      dispatch_page_click k btn v1
  end.

Definition click_page (btn : Discover.button) (v : Discover.View) : M Discover.View :=
  dispatch_page_click (Discover.pagination_listeners v) btn v.

(** *** Book Detail: entry and similar books (lines 403-426, 553-597) *)

Module BookDetail.

Inductive similar : Type :=
| Spinner
| NoSimilar                          (* "No similar books found yet..." *)
| SimilarCards (recs : list value)
| Later.                             (* "Recommendations will appear..." *)

Inductive page : Type :=
| NotFound (text : string)
| Shown (book : value) (v : Detail.View) (s : similar).

Definition is_book (m : mounted) : bool :=
  match m with BookPage => true | _ => false end.

(** The card of a similar book (lines 583-586): what can make it throw. *)
Definition similar_card (rec : value) : outcome value :=
  match prop rec "book_id" with
  | Throw e => Throw e
  | Return _ =>
      match prop rec "score" with
      | Throw e => Throw e
      | Return score =>
          if truthy score then
            match score with
            | VNum _ => Return rec
            | _ => Throw (Discover.not_a_function "rec.score.toFixed")
            end
          else Return rec
      end
  end.

Fixpoint similar_cards (recs : list value) : outcome (list value) :=
  match recs with
  | [] => Return []
  | r :: rest =>
      match similar_card r with
      | Throw e => Throw e
      | Return c =>
          match similar_cards rest with
          | Throw e => Throw e
          | Return cs => Return (c :: cs)
          end
      end
  end.

Definition similar_path (bookId : Z) : string :=
  "/recommendations/similar/" ++ num_to_string bookId ++ "?n=8".

(** Lines 572-597. *)
Definition loadSimilarBooks (bookId : Z) : M similar :=
  m <- gets app ;;
  if negb (is_book m) then ret Spinner
  else
    try_catch
      (data <- api.get (similar_path bookId) ;;
       if negb (truthy data) then ret NoSimilar
       else
         recs <- lift (prop data "recommendations") ;;
         if negb (truthy recs) then ret NoSimilar
         else
           len <- lift (prop recs "length") ;;
           if strict_eq len (VNum 0) then ret NoSimilar
           else
             match recs with
             | VArr l => cards <- lift (similar_cards l) ;; ret (SimilarCards cards)
             | _ => throw (Discover.not_a_function "data.recommendations.map")
             end)
      (fun _ => ret Later).

(** The markup of lines 426-489: what can make it throw. *)
Definition detail_markup (book : value) : outcome value :=
  match prop book "genre" with
  | Throw e => Throw e
  | Return _ =>
      match prop book "avg_rating" with
      | Throw e => Throw e
      | Return avg =>
          if positive avg then
            match avg with
            | VNum _ => Return book
            | _ => Throw (Discover.not_a_function "book.avg_rating.toFixed")
            end
          else Return book
      end
  end.

Definition book_path (bookId : Z) : string := "/books/" ++ num_to_string bookId.

(** Lines 411-421: the marks of the user on the book; an exception keeps
    the marks reached. *)
Definition load_marks (bookId : Z) : M Detail.marks :=
  try_catch
    (interactions <- api.get Library.interactions_path ;;
     match interactions with
     | VArr l => ret (fst (Detail.mark_all bookId l Detail.no_marks))
     | VUndefined | VNull => _ <- lift (prop interactions "forEach") ;; ret Detail.no_marks
     | _ => throw (Discover.not_a_function "interactions.forEach")
     end)
    (fun _ => ret Detail.no_marks).

(** Line 424. *)
Definition record_view (bookId : Z) : M unit :=
  try_catch
    (_ <- api.post "/interactions" (Detail.interaction bookId "view") ;; ret tt)
    (fun _ => ret tt).

(** Lines 403-570. *)
Definition renderBookDetail (bookId : Z) : M page :=
  modify (set_app BookPage) ;;;
  try_catch
    (book <- api.get (book_path bookId) ;;
     marks <- load_marks bookId ;;
     record_view bookId ;;;
     _ <- lift (detail_markup book) ;;
     modify (set_app BookPage) ;;;
     s <- loadSimilarBooks bookId ;;
     ret (Shown book (Detail.mount bookId marks) s))
    (fun err =>
       modify (set_app BookPage) ;;;
       ret (NotFound (message err))).

End BookDetail.

(** *** Recommendations (lines 600-660) *)

Module Recommendations.

Inductive content : Type :=
| Loading
| NotEnoughData                      (* the call to action back to Discover *)
| Items (recs : list value)          (* ranked, first is rank 1 *)
| Unavailable (text : string).

(** An item of the list (lines 635-643): what can make it throw. *)
Definition item (rec : value) : outcome value :=
  match prop rec "book_id" with
  | Throw e => Throw e
  | Return _ => Return rec
  end.

Fixpoint items (recs : list value) : outcome (list value) :=
  match recs with
  | [] => Return []
  | r :: rest =>
      match item r with
      | Throw e => Throw e
      | Return c =>
          match items rest with
          | Throw e => Throw e
          | Return cs => Return (c :: cs)
          end
      end
  end.

Definition top_path : string := "/recommendations/top?n=15".

Definition renderRecommendations : M content :=
  modify (set_app RecommendationsPage) ;;;
  try_catch
    (data <- api.get top_path ;;
     if negb (truthy data) then ret NotEnoughData
     else
       recs <- lift (prop data "recommendations") ;;
       if negb (truthy recs) then ret NotEnoughData
       else
         len <- lift (prop recs "length") ;;
         if strict_eq len (VNum 0) then ret NotEnoughData
         else
           match recs with
           | VArr l => shown <- lift (items l) ;; ret (Items shown)
           | _ => throw (Discover.not_a_function "data.recommendations.map")
           end)
    (fun err => ret (Unavailable (message err))).

End Recommendations.

(** *** Router (lines 139-157) *)

Definition set_currentPage (p : option string) (s : AppState) : AppState :=
  {| token := token s; user := user s; currentPage := p; books := books s;
     totalBooks := totalBooks s; page := page s; pageSize := pageSize s;
     searchQuery := searchQuery s; genreFilter := genreFilter s |}.

(** What [#app] holds after a navigation. *)
Inductive screen : Type :=
| OnDiscover (v : Discover.View)
| OnBook (p : BookDetail.page)
| OnRecommendations (c : Recommendations.content)
| OnLibrary (v : Library.View).

(** updateNavActive: the links of the navigation bar, each with whether
    it has the class active. *)
Definition updateNavActive (page : string) (links : list string)
  : list (string * bool) :=
  map (fun nav => (nav, String.eqb nav page)) links.

(** navigate(page, params), with [id] for params.id; the active link is
    the one [state.currentPage] names. *)
Definition navigate (page : string) (id : Z) : M screen :=
  modify (set_state (set_currentPage (Some page))) ;;;
  if String.eqb page "discover" then
    v <- Discover.renderDiscover ;; ret (OnDiscover v)
  else if String.eqb page "book" then
    p <- BookDetail.renderBookDetail id ;; ret (OnBook p)
  else if String.eqb page "recommendations" then
    c <- Recommendations.renderRecommendations ;; ret (OnRecommendations c)
  else if String.eqb page "library" then
    v <- Library.renderLibrary ;; ret (OnLibrary v)
  else
    v <- Discover.renderDiscover ;; ret (OnDiscover v).

(** *** Sign in, register, start (lines 87-106, 159-250, 808-836) *)

Module Auth.

(** The elements of the form that the listeners write. *)
Record Form : Type := mkForm {
  isLogin : bool;
  subtitle : string;
  submit_text : string;
  submit_disabled : bool;
  toggle_text : string;
  link_text : string;
  username_hidden : bool;
  error_text : string;
  error_visible : bool
}.

(** The markup of lines 162-199. *)
Definition initial_form : Form :=
  {| isLogin := true;
     subtitle := "Sign in to discover your next great read";
     submit_text := "Sign In"; submit_disabled := false;
     toggle_text := "Don't have an account?"; link_text := "Create one";
     username_hidden := true; error_text := ""; error_visible := false |}.

(** The click listener of the toggle link (lines 210-226). *)
Definition on_toggle (f : Form) : Form :=
  if negb (isLogin f) then
    {| isLogin := true;
       subtitle := "Sign in to discover your next great read";
       submit_text := "Sign In"; submit_disabled := submit_disabled f;
       toggle_text := "Don't have an account?"; link_text := "Create one";
       username_hidden := true; error_text := error_text f;
       error_visible := false |}
  else
    {| isLogin := false;
       subtitle := "Create an account to get started";
       submit_text := "Create Account"; submit_disabled := submit_disabled f;
       toggle_text := "Already have an account?"; link_text := "Sign in";
       username_hidden := false; error_text := error_text f;
       error_visible := false |}.

Section WithParser.

Variable JSON_parse : string -> outcome value.

Definition store_tokens (data : value) : M value :=
  access <- lift (prop data "access_token") ;;
  modify (set_state (set_token access)) ;;;
  fresh <- lift (prop data "refresh_token") ;;
  modify (set_storage (Some (to_string fresh))) ;;;
  ret access.

Definition credentials (email password : string) : value :=
  VObj [("email", VStr email); ("password", VStr password)].

Definition registration (email username password : string) : value :=
  VObj [("email", VStr email); ("username", VStr username);
        ("password", VStr password)].

(** Lines 88-96. *)
Definition login (email password : string) : M screen :=
  data <- api.post "/auth/login" (credentials email password) ;;
  access <- store_tokens data ;;
  decodeAndSetUser JSON_parse access ;;;
  showApp ;;;
  s <- navigate "discover" 0 ;;
  toast "Welcome back! 📚" "success" ;;;
  ret s.

(** Lines 98-106. *)
Definition register (email username password : string) : M screen :=
  data <- api.post "/auth/register" (registration email username password) ;;
  access <- store_tokens data ;;
  decodeAndSetUser JSON_parse access ;;;
  showApp ;;;
  s <- navigate "discover" 0 ;;
  toast "Account created! Happy reading 🎉" "success" ;;;
  ret s.

(** What a submission leaves. *)
Record submitted : Type := mkSubmitted {
  written : Form;             (* the elements the listener holds, as it left them *)
  on_page : option Form;      (* the sign-in form in [#app] afterwards, if it holds one *)
  opened : option screen      (* the screen a successful sign-in rendered *)
}.

Definition is_auth (m : mounted) : bool :=
  match m with AuthPage => true | _ => false end.

(** The submit listener (lines 228-249), with what the fields hold.  The
    elements it writes to are those [renderAuth] looked up when it added
    the listener (lines 201-207).  [logout()] calls [renderAuth], which
    replaces the form: what the listener writes after that goes to
    elements that are no longer on the page, and the page shows the new
    form as [renderAuth] wrote it. *)
Definition on_submit (email username password : string) (f : Form)
  : M submitted :=
  modify touch_auth ;;;
  let busy :=
    {| isLogin := isLogin f; subtitle := subtitle f;
       submit_text := if isLogin f then "Signing in…" else "Creating account…";
       submit_disabled := true; toggle_text := toggle_text f;
       link_text := link_text f; username_hidden := username_hidden f;
       error_text := error_text f; error_visible := false |} in
  r <- try_catch
         (s <- (if isLogin f then login email password
                else register email username password) ;;
          ret (busy, Some s))
         (fun err =>
            ret ({| isLogin := isLogin f; subtitle := subtitle f;
                    submit_text := if isLogin f then "Sign In" else "Create Account";
                    submit_disabled := false; toggle_text := toggle_text f;
                    link_text := link_text f; username_hidden := username_hidden f;
                    error_text := message err; error_visible := true |}, None)) ;;
  m <- gets app ;;
  replaced <- gets auth_fresh ;;
  ret {| written := fst r;
         on_page := if is_auth m
                    then Some (if (replaced : bool) then initial_form else fst r)
                    else None;
         opened := snd r |}.

(** What the page shows once [init] has settled: the sign-in form or the
    screen of the restored session. *)
Inductive started : Type :=
| SignIn (f : Form)
| Restored (s : screen).

(** Lines 809-836. *)
Definition init : M started :=
  stored <- gets mg_refresh ;;
  match stored with
  | None => renderAuth ;;; ret (SignIn initial_form)
  | Some refresh =>
      if String.eqb refresh "" then renderAuth ;;; ret (SignIn initial_form)
      else
        restored <- api.refreshToken ;;
        if (restored : bool) then
          t <- gets (fun w => token (state w)) ;;
          decodeAndSetUser JSON_parse t ;;;
          showApp ;;;
          s <- navigate "discover" 0 ;;
          ret (Restored s)
        else renderAuth ;;; ret (SignIn initial_form)
  end.

End WithParser.

End Auth.

(* ================================================================== *)
(** ** More vocabulary                                                  *)
(* ================================================================== *)

(** How often the character [c] occurs in [s]. *)
Fixpoint occurrences (c : ascii) (s : string) : nat :=
  match s with
  | EmptyString => O
  | String x rest => ((if Ascii.eqb x c then 1 else 0) + occurrences c rest)%nat
  end.

(** The server answers every request with [res]. *)
Definition always_answers (w : World) (res : http_response) : Prop :=
  forall log, server w log = Response res.

(** The server never answers 2xx. *)
Definition never_ok (w : World) : Prop :=
  forall log, match server w log with
              | Response r => ok r = false
              | NetworkFailure _ => True
              end.

(** The body of a page of the book list. *)
Definition book_list (bs : list value) (total : Z) : value :=
  VObj [("books", VArr bs); ("total", VNum total)].

Definition list_response (bs : list value) (total : Z) : http_response :=
  {| status := 200; json_body := Return (book_list bs total) |}.

(** The record [i] is about book [id] and of type [kind]. *)
Definition is_mark (id : Z) (kind : string) (i : value) : bool :=
  strict_eq (or_undefined (prop i "book_id")) (VNum id)
  && strict_eq (or_undefined (prop i "interaction_type")) (VStr kind).

(** The ratings of the records that rate book [id], in the order of the
    list. *)
Definition ratings_of (id : Z) (records : list value) : list value :=
  map (fun i => or_undefined (prop i "rating"))
    (filter (fun i => is_mark id "rate" i
                      && truthy (or_undefined (prop i "rating"))) records).

(** Neither [null] nor [undefined]: a property can be read. *)
Definition readable (v : value) : Prop := v <> VNull /\ v <> VUndefined.

(** i.interaction_type === filter, on a readable record. *)
Definition of_type (filter : string) (i : value) : bool :=
  strict_eq (or_undefined (prop i "interaction_type")) (VStr filter).

(** No two values of the list are identical. *)
Fixpoint pairwise_distinct (l : list value) : Prop :=
  match l with
  | [] => True
  | x :: rest => Forall (fun y => strict_eq x y = false) rest /\ pairwise_distinct rest
  end.

Definition book_request (id : value) (t : value) : http_request :=
  build_request "GET" ("/books/" ++ to_string id) VNull t.

Definition welcome_back : toast_item :=
  {| toast_text := "Welcome back! 📚"; toast_type := "success" |}.

(** The world once the tokens of [data] are stored (login and register,
    lines 90-91 and 100-101). *)
Definition tokens_stored (data : value) (w : World) : World :=
  set_storage (Some (to_string (or_undefined (prop data "refresh_token"))))
    (set_state (set_token (or_undefined (prop data "access_token"))) w).

(** The list fetch that opens Discover for the holder of [access]. *)
Definition opening_request (access : value) (w : World) : http_request :=
  build_request "GET" (Discover.books_url (state w)) VNull access.

(** Accepts every sign-in with the token of the user "reader", and lists
    no books. *)
Definition login_server (log : list http_request) : fetched :=
  match last_request log with
  | Some r =>
      if String.eqb (url r) (API ++ "/auth/login")
      then Response {| status := 200;
                       json_body := Return (VObj [("access_token", jwt reader_segment);
                                                  ("refresh_token", VStr "r2")]) |}
      else Response empty_list
  | None => Response empty_list
  end.

(** Nobody is signed in. *)
Definition signed_out (srv : list http_request -> fetched) : World :=
  {| state := initial_state; mg_refresh := None; navbar_hidden := true;
     app := AuthPage; toasts := []; nav_username := ""; sent := [];
     server := srv; auth_fresh := true |}.

Definition login_request (email password : string) (t : value) : http_request :=
  build_request "POST" "/auth/login" (Auth.credentials email password) t.

(** The form after a failed submission in sign-in mode. *)
Definition shows_error (text : string) (f : Auth.Form) : Prop :=
  Auth.error_text f = text
  /\ Auth.error_visible f = true
  /\ Auth.submit_disabled f = false
  /\ Auth.submit_text f = "Sign In".

(** Every character of [s] satisfies [p]. *)
Fixpoint all_chars (p : ascii -> bool) (s : string) : bool :=
  match s with
  | EmptyString => true
  | String c rest => p c && all_chars p rest
  end.

(** What encodeURIComponent writes: unreserved characters and [%]. *)
Definition url_safe (c : ascii) : bool := unreserved c || Ascii.eqb c "%".

(** The grid and the bar a successful load of [bs] leaves. *)
Definition listed (bs cards : list value) (s : AppState) (v : Discover.View)
  : Discover.View :=
  let v1 := Discover.set_grid
              (match bs with [] => Discover.NoResults | _ => Discover.Cards cards end)
              (Discover.set_grid Discover.Skeleton v) in
  if Discover.at_most_one (Discover.totalPages s)
  then Discover.set_pagination None (Discover.pagination_listeners v) v1
  else Discover.set_pagination (Some (Discover.render_bar s))
         (S (Discover.pagination_listeners v)) v1.

(** The user clicks "Next" ([true]) or "Previous" ([false]) of the bar
    that is shown, one click after the other. *)
Fixpoint browse (clicks : list bool) (v : Discover.View) : M Discover.View :=
  match clicks with
  | [] => ret v
  | c :: rest =>
      match Discover.pagination v with
      | Some bar =>
          v1 <- click_page (if c then Discover.next bar else Discover.previous bar) v ;;
          browse rest v1
      | None => browse rest v
      end
  end.

(** The two worlds agree on what the list fetch is built from, page
    apart, on the page that is mounted and on the server. *)
Definition steady (w w' : World) : Prop :=
  token (state w') = token (state w)
  /\ pageSize (state w') = pageSize (state w)
  /\ searchQuery (state w') = searchQuery (state w)
  /\ genreFilter (state w') = genreFilter (state w)
  /\ app w' = app w
  /\ server w' = server w.

(** The list fetch for page [p]. *)
Definition page_request (p : Z) (w : World) : http_request :=
  books_request (set_page p (state w)).

(** The value a computation returned, [d] if it threw. *)
Definition returned {A} (d : A) (x : outcome A * World) : A :=
  match fst x with Return a => a | Throw _ => d end.

Definition emma : value :=
  VObj [("id", VNum 7); ("title", VStr "Emma"); ("genre", VStr "Classic");
        ("avg_rating", VNum 4)].

(** The button of the bar that is shown, or a disabled one. *)
Definition shown_button (next : bool) (v : Discover.View) : Discover.button :=
  match Discover.pagination v with
  | Some bar => if next then Discover.next bar else Discover.previous bar
  | None => {| Discover.disabled := true; Discover.data_page := 0 |}
  end.

(** The bar that is shown, if one is, was drawn from the state. *)
Definition bar_is_current (v : Discover.View) (w : World) : Prop :=
  Discover.pagination v = None
  \/ Discover.pagination v = Some (Discover.render_bar (state w)).



(** A 2xx answer with the body [data]. *)
Definition ok_response (data : value) : http_response :=
  {| status := 200; json_body := Return data |}.

(** The value of data.recommendations makes the page show its empty
    state: data or the member is falsy, or the member is an empty list. *)
Definition nothing_recommended (data : value) : Prop :=
  truthy data = false
  \/ (readable data /\ truthy (or_undefined (prop data "recommendations")) = false)
  \/ prop data "recommendations" = Return (VArr []).

Definition top_request (w : World) : http_request :=
  build_request "GET" Recommendations.top_path VNull (token (state w)).

(** Neither of the angle brackets. *)
Definition no_angle (c : ascii) : bool :=
  negb (Nat.eqb (nat_of_ascii c) 60 || Nat.eqb (nat_of_ascii c) 62).



(** The double quote. *)
Definition quote : ascii := ascii_of_nat 34.

(** The chips with exactly the chip [g] active. *)
Definition only_active (g : string) : list (string * bool) :=
  map (fun c => (c, String.eqb c g)) Discover.genres.

Definition account_created : toast_item :=
  {| toast_text := "Account created! Happy reading 🎉"; toast_type := "success" |}.

Definition register_request (email username password : string) (t : value)
  : http_request :=
  build_request "POST" "/auth/register" (Auth.registration email username password) t.

(** Accepts every registration with the token of the user "reader", and
    lists no books. *)
Definition register_server (log : list http_request) : fetched :=
  match last_request log with
  | Some r =>
      if String.eqb (url r) (API ++ "/auth/register")
      then Response {| status := 201;
                       json_body := Return (VObj [("access_token", jwt reader_segment);
                                                  ("refresh_token", VStr "r2")]) |}
      else Response empty_list
  | None => Response empty_list
  end.
(* ================================================================== *)
(** ** Numbers written and read back                                    *)
(* ================================================================== *)

Lemma digits_numeral (d : Decimal.uint) :
  forall a, digits 10 (NilEmpty.string_of_uint d) (Some a) = Some (horner d a).
Proof.
  induction d; intros a; cbn [NilEmpty.string_of_uint digits horner];
    [reflexivity|..];
    match goal with
    | |- context [digit_value 10 ?c] =>
        let r := eval vm_compute in (digit_value 10 c) in
        change (digit_value 10 c) with r
    end;
    cbv iota beta; rewrite IHd; do 2 f_equal; lia.
Qed.

Lemma horner_positive (d : Decimal.uint) :
  forall p, horner d (Z.pos p) = Z.pos (Pos.of_uint_acc d p).
Proof.
  induction d; intros p; cbn [horner Pos.of_uint_acc]; [reflexivity|..];
    match goal with
    | |- horner d ?x = Z.pos (Pos.of_uint_acc d ?q) =>
        replace x with (Z.pos q) by lia
    end; apply IHd.
Qed.

Lemma horner_zero (d : Decimal.uint) : horner d 0 = Z.of_N (Pos.of_uint d).
Proof.
  induction d; cbn [horner Pos.of_uint]; [reflexivity|exact IHd|..];
    match goal with
    | |- horner d ?x = _ =>
        let r := eval vm_compute in x in change x with r
    end; apply horner_positive.
Qed.

Lemma digits_start (d : Decimal.uint) :
  d <> Decimal.Nil ->
  digits 10 (NilEmpty.string_of_uint d) None = Some (horner d 0).
Proof.
  destruct d; intros H; [contradiction|..];
    cbn [NilEmpty.string_of_uint digits];
    match goal with
    | |- context [digit_value 10 ?c] =>
        let r := eval vm_compute in (digit_value 10 c) in
        change (digit_value 10 c) with r
    end;
    cbv iota beta; rewrite digits_numeral; reflexivity.
Qed.

Lemma trim_start_keeps (c : ascii) (rest : string) :
  is_space c = false ->
  (forall b, is_space2 c b = false) ->
  (forall b d, is_space3 c b d = false) ->
  trim_start (String c rest) = String c rest.
Proof.
  intros H1 H2 H3. unfold trim_start. cbn [strip_spaces]. rewrite H1.
  destruct rest as [|c2 rest2]; [reflexivity|]. rewrite H2.
  destruct rest2 as [|c3 rest3]; [reflexivity|]. now rewrite H3.
Qed.

Lemma parseInt_numeral (d : Decimal.uint) :
  d <> Decimal.Nil ->
  parseInt (NilEmpty.string_of_uint d) = Some (horner d 0)
  /\ parseInt (String "-" (NilEmpty.string_of_uint d)) = Some (- horner d 0).
Proof.
  intros H. pose proof (digits_start d H) as Hd.
  assert (Hcore : forall sign,
             match digits 10 (NilEmpty.string_of_uint d) None with
             | Some n => Some (sign * n)
             | None => None
             end = Some (sign * horner d 0)) by (intros; now rewrite Hd).
  split.
  - rewrite <- (Z.mul_1_l (horner d 0)), <- (Hcore 1). unfold parseInt.
    destruct d as [|d|d|d|d|d|d|d|d|d|d]; [contradiction|..];
      cbn [NilEmpty.string_of_uint];
      rewrite trim_start_keeps by (try reflexivity; intros; reflexivity);
      try reflexivity.
    destruct d; reflexivity.
  - replace (- horner d 0) with (-1 * horner d 0) by lia. rewrite <- (Hcore (-1)).
    unfold parseInt.
    rewrite trim_start_keeps by (try reflexivity; intros; reflexivity).
    destruct d as [|d|d|d|d|d|d|d|d|d|d]; [contradiction|..]; try reflexivity.
    destruct d; reflexivity.
Qed.

(** Written by a template literal and read back by parseInt, an integer is
    itself: the numbers kept in data-page and data-value. *)
Lemma parseInt_num_to_string (n : Z) : parseInt (num_to_string n) = Some n.
Proof.
  destruct n as [|p|p]; [reflexivity|..]; unfold num_to_string;
    cbn [Z.to_int NilZero.string_of_int];
    pose proof (DecimalPos.Unsigned.to_uint_nonnil p) as Hn;
    destruct (parseInt_numeral (Pos.to_uint p) Hn) as [Hpos Hneg];
    rewrite horner_zero, DecimalPos.Unsigned.of_to in Hpos, Hneg.
  - unfold NilZero.string_of_uint. destruct (Pos.to_uint p); [contradiction|..];
      exact Hpos.
  - unfold NilZero.string_of_uint. destruct (Pos.to_uint p); [contradiction|..];
      exact Hneg.
Qed.

(* ================================================================== *)
(** ** The API client: refresh and the 401 protocol                     *)
(* ================================================================== *)

Lemma fetch_eq (r : http_request) (w : World) :
  fetch r w =
  match answer w r with
  | NetworkFailure msg => (Throw (TypeError msg), log_request r w)
  | Response res => (Return res, log_request r w)
  end.
Proof. reflexivity. Qed.

Lemma prop_truthy (data : value) (k : string) :
  truthy data = true -> prop data k = Return (or_undefined (prop data k)).
Proof. destruct data; simpl; intros H; try discriminate; reflexivity. Qed.

(** [api.refreshToken] as a total function of the world. *)
Lemma refreshToken_eq (w : World) :
  api.refreshToken w =
  match refresh_payload w with
  | Some data => (Return true, refreshed_world w data)
  | None => (Return false, after_trace w (refresh_trace w))
  end.
Proof.
  unfold api.refreshToken, refresh_payload, refreshed_world, after_trace, refresh_trace,
    bind, gets, ret.
  destruct (mg_refresh w) as [refresh|]; [|reflexivity].
  destruct (String.eqb refresh ""); [reflexivity|].
  unfold try_catch, bind. rewrite fetch_eq.
  destruct (answer w (refresh_request refresh)) as [msg|r]; [reflexivity|].
  destruct (ok r); simpl; [|reflexivity].
  unfold json, lift. destruct (json_body r) as [data|e]; [|reflexivity].
  destruct (truthy data) eqn:Ht; [|reflexivity].
  rewrite (prop_truthy data "access_token" Ht).
  rewrite (prop_truthy data "refresh_token" Ht). reflexivity.
Qed.

Lemma after_trace_state w t : state (after_trace w t) = state w.
Proof.
  unfold after_trace. revert w.
  induction t as [|r t IH]; intros w; simpl; [reflexivity|].
  now rewrite IH.
Qed.

Lemma after_trace_storage w t : mg_refresh (after_trace w t) = mg_refresh w.
Proof.
  unfold after_trace. revert w.
  induction t as [|r t IH]; intros w; simpl; [reflexivity|].
  now rewrite IH.
Qed.

Lemma after_trace_sent w t : sent (after_trace w t) = (sent w ++ t)%list.
Proof.
  unfold after_trace. revert w.
  induction t as [|r t IH]; intros w; simpl.
  - now rewrite app_nil_r.
  - rewrite IH. simpl. now rewrite <- app_assoc.
Qed.

Lemma log_request_sent r w : sent (log_request r w) = (sent w ++ [r])%list.
Proof. reflexivity. Qed.

Lemma logout_eq (w : World) : logout w = (Return tt, logged_out w).
Proof. reflexivity. Qed.

(** [api.request] as a total function of the world. *)
Lemma api_request_eq (meth path : string) (b : value) (w : World) :
  let first := build_request meth path b (token (state w)) in
  let w1 := log_request first w in
  api.request meth path b w =
  match answer w first with
  | NetworkFailure msg => (Throw (TypeError msg), w1)
  | Response res =>
      if status res =? 401 then
        match refresh_payload w1 with
        | Some data =>
            let w2 := refreshed_world w1 data in
            let again := with_authorization (bearer (token (state w2))) first in
            match answer w2 again with
            | NetworkFailure msg => (Throw (TypeError msg), log_request again w2)
            | Response retry => (retry_result retry, log_request again w2)
            end
        | None =>
            (Throw (Error "Session expired"),
             logged_out (after_trace w1 (refresh_trace w1)))
        end
      else (first_result res, w1)
  end.
Proof.
  intros first w1. unfold api.request, bind, gets. rewrite fetch_eq.
  fold first. fold w1.
  destruct (answer w first) as [msg|res]; [reflexivity|].
  destruct (status res =? 401); [|reflexivity].
  rewrite refreshToken_eq.
  destruct (refresh_payload w1) as [data|].
  - rewrite fetch_eq. cbv zeta.
    match goal with |- context [answer ?a ?b] => destruct (answer a b) as [msg|retry] end;
      reflexivity.
  - reflexivity.
Qed.

Lemma refresh_trace_short (w : World) : (List.length (refresh_trace w) <= 1)%nat.
Proof.
  unfold refresh_trace. destruct (mg_refresh w) as [s|]; simpl; [|lia].
  destruct (String.eqb s ""); simpl; lia.
Qed.

Lemma refreshed_world_sent w data :
  sent (refreshed_world w data) = (sent w ++ refresh_trace w)%list.
Proof. unfold refreshed_world. simpl. apply after_trace_sent. Qed.

(** C10. [api.refreshToken] always returns a boolean and never throws.
    With no stored refresh token (or an empty one), with a transport
    failure of the fetch, with an answer that is not 2xx, and with a 2xx
    answer whose body does not parse to a truthy payload, it returns
    [false]; whenever it returns [false] the in-memory access token and the
    stored refresh token are those it started with.  When the refresh call
    is answered 2xx with a truthy payload it returns [true], and the access
    token and the stored refresh token are the ones of the payload; it
    returns [true] in no other case. *)
Theorem refreshToken_never_throws (w : World) :
  exists (refreshed : bool) (w' : World),
    api.refreshToken w = (Return refreshed, w')
    /\ (mg_refresh w = None -> refreshed = false /\ sent w' = sent w)
    /\ (forall refresh msg,
          mg_refresh w = Some refresh ->
          answer w (refresh_request refresh) = NetworkFailure msg ->
          refreshed = false)
    /\ (forall refresh r,
          mg_refresh w = Some refresh ->
          answer w (refresh_request refresh) = Response r ->
          ok r = false ->
          refreshed = false)
    /\ (refreshed = false ->
        token (state w') = token (state w) /\ mg_refresh w' = mg_refresh w)
    /\ (refreshed = true ->
        exists refresh r data,
          mg_refresh w = Some refresh
          /\ answer w (refresh_request refresh) = Response r
          /\ ok r = true
          /\ json_body r = Return data
          /\ truthy data = true
          /\ token (state w') = or_undefined (prop data "access_token")
          /\ mg_refresh w'
             = Some (to_string (or_undefined (prop data "refresh_token"))))
    /\ (forall refresh r data,
          mg_refresh w = Some refresh ->
          refresh <> "" ->
          answer w (refresh_request refresh) = Response r ->
          ok r = true ->
          json_body r = Return data ->
          truthy data = true ->
          refreshed = true
          /\ token (state w') = or_undefined (prop data "access_token")
          /\ mg_refresh w'
             = Some (to_string (or_undefined (prop data "refresh_token")))
          /\ sent w' = (sent w ++ [refresh_request refresh])%list)
    /\ (forall refresh r,
          mg_refresh w = Some refresh ->
          answer w (refresh_request refresh) = Response r ->
          ok r = true ->
          (forall data, json_body r = Return data -> truthy data = false) ->
          refreshed = false)
    /\ (mg_refresh w = Some "" -> refreshed = false /\ sent w' = sent w).
Proof.
  assert (Hsucc : forall refresh r data,
             mg_refresh w = Some refresh -> refresh <> "" ->
             answer w (refresh_request refresh) = Response r ->
             ok r = true -> json_body r = Return data -> truthy data = true ->
             refresh_payload w = Some data
             /\ refresh_trace w = [refresh_request refresh]).
  { intros refresh r data Hs Hne Ha Hok Hj Ht.
    unfold refresh_payload, refresh_trace. rewrite Hs.
    destruct (String.eqb_spec refresh "") as [->|_]; [contradiction|].
    rewrite Ha, Hok, Hj, Ht. split; reflexivity. }
  rewrite refreshToken_eq.
  destruct (refresh_payload w) as [data|] eqn:Hp.
  - exists true, (refreshed_world w data).
    pose proof Hp as Hp0.
    unfold refresh_payload in Hp.
    destruct (mg_refresh w) as [refresh|] eqn:Hs; [|discriminate].
    destruct (String.eqb refresh "") eqn:He; [discriminate|].
    destruct (answer w (refresh_request refresh)) as [msg|r] eqn:Ha; [discriminate|].
    destruct (ok r) eqn:Hok; [|discriminate].
    destruct (json_body r) as [d|e] eqn:Hj; [|discriminate].
    destruct (truthy d) eqn:Ht; [|discriminate].
    injection Hp as ->.
    split; [reflexivity|].
    split; [discriminate|].
    split; [intros refresh' msg [= <-]; rewrite Ha; discriminate|].
    split; [intros refresh' r' [= <-]; rewrite Ha; intros [= <-]; rewrite Hok;
            discriminate|].
    split; [discriminate|].
    split; [intros _; exists refresh, r, data; repeat split; assumption|].
    split.
    { intros refresh' r' data' [= <-] Hne Ha' Hok' Hj' Ht'.
      rewrite Ha' in Ha. injection Ha as ->.
      rewrite Hj' in Hj. injection Hj as ->.
      split; [reflexivity|]. split; [reflexivity|]. split; [reflexivity|].
      rewrite refreshed_world_sent.
      now rewrite (proj2 (Hsucc refresh r data eq_refl Hne Ha' Hok Hj' Ht)). }
    split.
    { intros refresh' r' [= <-] Ha' _ Hfalsy.
      rewrite Ha' in Ha. injection Ha as ->.
      rewrite (Hfalsy data Hj) in Ht. discriminate. }
    intros [= ->]. discriminate.
  - exists false, (after_trace w (refresh_trace w)).
    split; [reflexivity|].
    split.
    { intros Hs. split; [reflexivity|]. unfold refresh_trace. now rewrite Hs. }
    split; [reflexivity|]. split; [reflexivity|].
    split; [intros _; now rewrite after_trace_state, after_trace_storage|].
    split; [discriminate|].
    split.
    { intros refresh r data Hs Hne Ha Hok Hj Ht.
      destruct (Hsucc refresh r data Hs Hne Ha Hok Hj Ht) as [H _].
      rewrite H in Hp. discriminate. }
    split; [reflexivity|].
    intros Hs. split; [reflexivity|]. unfold refresh_trace. now rewrite Hs.
Qed.

(** Witness of C10: the server accepts the stored token "r1" and answers
    with a new pair. *)
Lemma refreshToken_never_throws_witness :
  let w := session DiscoverPage (refreshing_server book7) in
  exists w',
    api.refreshToken w = (Return true, w')
    /\ token (state w') = VStr "new"
    /\ mg_refresh w' = Some "r2"
    /\ map url (sent w') = ["/api/auth/refresh"].
Proof.
  intros w.
  destruct (refreshToken_never_throws w)
    as (refreshed & w' & Hrun & _ & _ & _ & _ & _ & Hsucc & _).
  destruct (Hsucc "r1"
              {| status := 200; json_body := Return (token_pair "new" "r2") |}
              (token_pair "new" "r2") eq_refl ltac:(discriminate) eq_refl eq_refl
              eq_refl eq_refl)
    as (-> & Ht & Hs & Hsent).
  exists w'. split; [exact Hrun|]. split; [exact Ht|]. split; [exact Hs|].
  rewrite Hsent. reflexivity.
Defined.

Lemma retry_result_not_ok (retry : http_response) :
  ok retry = false -> exists e, retry_result retry = Throw e.
Proof.
  intros H. unfold retry_result. rewrite H. simpl.
  destruct (json_body retry) as [payload|e]; [|now exists e].
  destruct (prop payload "detail") as [d|e]; eexists; reflexivity.
Qed.

(** C1 (as amended). When the answer to a request of [api.request] is
    401, [api.refreshToken] is called once, which sends at most one refresh
    call.  If it fails, the session is torn down as [logout()] does and
    [Error("Session expired")] is thrown.  If it succeeds, the request is
    sent once more with the new token and nothing else is sent; the result
    of that retry is returned, and when the retry fails — a transport
    failure or an answer that is not 2xx — an error is thrown while the
    refreshed session stays in place. *)
Theorem unauthorized_refresh_once_retry_once
  (w : World) (meth path : string) (b : value) (r : http_response) :
  answer w (build_request meth path b (token (state w))) = Response r ->
  status r = 401 ->
  let first := build_request meth path b (token (state w)) in
  let run := api.request meth path b w in
  exists (refreshed : bool) (w2 : World),
    api.refreshToken (log_request first w) = (Return refreshed, w2)
    /\ sent w2 = (sent w ++ first :: refresh_trace (log_request first w))%list
    /\ (List.length (refresh_trace (log_request first w)) <= 1)%nat
    /\ (refreshed = false ->
        run = (Throw (Error "Session expired"), logged_out w2))
    /\ (refreshed = true ->
        let again := with_authorization (bearer (token (state w2))) first in
        world_of run = log_request again w2
        /\ sent (world_of run)
           = (sent w ++ first :: refresh_trace (log_request first w) ++ [again])%list
        /\ (forall msg, answer w2 again = NetworkFailure msg ->
            result_of run = Throw (TypeError msg))
        /\ (forall retry, answer w2 again = Response retry ->
            result_of run = retry_result retry
            /\ (ok retry = false -> exists e, result_of run = Throw e))).
Proof.
  intros Ha Hs first run.
  pose proof (api_request_eq meth path b w) as E. cbv zeta in E.
  fold first in E, Ha. rewrite Ha, Hs in E. simpl (401 =? 401) in E. cbv iota in E.
  rewrite refreshToken_eq.
  pose proof (refresh_trace_short (log_request first w)) as Hlen.
  destruct (refresh_payload (log_request first w)) as [data|] eqn:Hp.
  - exists true, (refreshed_world (log_request first w) data).
    assert (Hsent : sent (refreshed_world (log_request first w) data)
                    = (sent w ++ first :: refresh_trace (log_request first w))%list).
    { rewrite refreshed_world_sent. simpl. now rewrite <- app_assoc. }
    split; [reflexivity|]. split; [exact Hsent|]. split; [exact Hlen|].
    split; [discriminate|].
    intros _ again. subst run. fold again in E.
    assert (Hw : world_of (api.request meth path b w)
                 = log_request again (refreshed_world (log_request first w) data)).
    { rewrite E. destruct (answer _ again); reflexivity. }
    split; [exact Hw|]. split.
    { rewrite Hw, log_request_sent, Hsent, <- app_assoc. reflexivity. }
    split.
    + intros msg Hm. rewrite E, Hm. reflexivity.
    + intros retry Hr. rewrite E, Hr. split; [reflexivity|].
      intros Hok. unfold result_of. simpl. now apply retry_result_not_ok.
  - exists false, (after_trace (log_request first w) (refresh_trace (log_request first w))).
    split; [reflexivity|].
    split; [rewrite after_trace_sent; simpl; now rewrite <- app_assoc|].
    split; [exact Hlen|].
    split; [|discriminate].
    intros _. subst run. exact E.
Qed.

(** Witness of C1: the token has expired, the refresh succeeds, the retry
    with the new token returns the book; three requests are sent. *)
Lemma unauthorized_refresh_once_retry_once_witness :
  let w := session DiscoverPage (expiring_server book7) in
  (exists r, answer w (get_book7 (token (state w))) = Response r /\ status r = 401)
  /\ result_of (api.request "GET" "/books/7" VNull w) = json_body book7
  /\ sent (world_of (api.request "GET" "/books/7" VNull w))
     = [get_book7 (VStr "old"); refresh_request "r1"; get_book7 (VStr "new")].
Proof.
  intros w.
  split; [eexists; split; reflexivity|].
  destruct (unauthorized_refresh_once_retry_once w "GET" "/books/7" VNull
              {| status := 401; json_body := Return (detail_body "Token expired") |}
              eq_refl eq_refl)
    as (refreshed & w2 & Href & _ & _ & _ & Hok).
  vm_compute in Href. injection Href as <- <-.
  destruct (Hok eq_refl) as (_ & Hsent & _ & Hretry).
  split.
  - exact (proj1 (Hretry book7 eq_refl)).
  - exact Hsent.
Defined.

(** Counterexample to C1 as stated: the refresh succeeds and the retried
    request is answered 401 again.  The error thrown is the server's
    message, not "Session expired", and the session is not torn down: the
    refreshed tokens stay and the page is not replaced. *)
Lemma retry_failure_keeps_session :
  let w := session DiscoverPage (refreshing_server unauthorized) in
  let run := api.request "GET" "/books/7" VNull w in
  answer w (get_book7 (token (state w))) = Response unauthorized
  /\ api.refreshToken (log_request (get_book7 (token (state w))) w)
     = (Return true, refreshed_world (log_request (get_book7 (token (state w))) w)
                       (token_pair "new" "r2"))
  /\ sent (world_of run)
     = [get_book7 (VStr "old"); refresh_request "r1"; get_book7 (VStr "new")]
  /\ answer (refreshed_world (log_request (get_book7 (token (state w))) w)
               (token_pair "new" "r2"))
       (get_book7 (VStr "new")) = Response unauthorized
  /\ result_of run = Throw (Error "Not authenticated")
  /\ result_of run <> Throw (Error "Session expired")
  /\ token (state (world_of run)) = VStr "new"
  /\ mg_refresh (world_of run) = Some "r2"
  /\ app (world_of run) = DiscoverPage
  /\ world_of run <> logged_out (world_of run).
Proof.
  intros w run.
  split; [reflexivity|]. split; [reflexivity|]. split; [reflexivity|].
  split; [reflexivity|]. split; [reflexivity|]. split; [discriminate|].
  split; [reflexivity|]. split; [reflexivity|]. split; [reflexivity|].
  intros H. apply (f_equal app) in H. discriminate H.
Qed.

Lemma first_result_not_ok (res : http_response) :
  ok res = false ->
  first_result res =
  match prop (match json_body res with
              | Return payload => payload
              | Throw _ => VObj []
              end) "detail" with
  | Throw e => Throw e
  | Return detail =>
      Throw (Error (to_string
                      (or_else detail (VStr ("Error " ++ num_to_string (status res))))))
  end.
Proof. intros H. unfold first_result. now rewrite H. Qed.




(* ================================================================== *)
(** ** Frames: what a computation leaves alone                          *)
(* ================================================================== *)

Section Frames.

Context {X : Type} (f : World -> X).

Lemma keeps_ret {A} (a : A) : keeps f (ret a).
Proof. intros w; reflexivity. Qed.

Lemma keeps_throw {A} (e : exn) : keeps f (@throw A e).
Proof. intros w; reflexivity. Qed.

Lemma keeps_lift {A} (o : outcome A) : keeps f (lift o).
Proof. intros w; reflexivity. Qed.

Lemma keeps_gets {A} (g : World -> A) : keeps f (gets g).
Proof. intros w; reflexivity. Qed.

Lemma keeps_modify (g : World -> World) :
  (forall w, f (g w) = f w) -> keeps f (modify g).
Proof. intros H w; apply H. Qed.

Lemma after_bind {A B} (c : M A) (k : A -> M B) (w : World) :
  (forall a, keeps f (k a)) ->
  f (world_of (bind c k w)) = f (world_of (c w)).
Proof.
  intros Hk. unfold bind. destruct (c w) as [[a|e] w1]; [|reflexivity].
  apply Hk.
Qed.

Lemma after_try {A} (c : M A) (h : exn -> M A) (w : World) :
  (forall e, keeps f (h e)) ->
  f (world_of (try_catch c h w)) = f (world_of (c w)).
Proof.
  intros Hh. unfold try_catch. destruct (c w) as [[a|e] w1]; [reflexivity|].
  apply Hh.
Qed.

Lemma keeps_bind {A B} (c : M A) (k : A -> M B) :
  keeps f c -> (forall a, keeps f (k a)) -> keeps f (bind c k).
Proof. intros Hc Hk w. rewrite after_bind by assumption. apply Hc. Qed.

Lemma keeps_try {A} (c : M A) (h : exn -> M A) :
  keeps f c -> (forall e, keeps f (h e)) -> keeps f (try_catch c h).
Proof. intros Hc Hh w. rewrite after_try by assumption. apply Hc. Qed.

End Frames.

Create HintDb frame discriminated.
#[export] Hint Resolve keeps_ret keeps_throw keeps_lift keeps_gets : frame.

(** Splits a computation into its steps, each to be shown a frame. *)
Ltac frame :=
  repeat first
    [ solve [auto with frame]
    | apply keeps_bind; [|intro]
    | apply keeps_try; [|intro]
    | apply keeps_modify; intro; reflexivity
    | match goal with
      | |- keeps _ (if ?b then _ else _) => destruct b
      | |- keeps _ (match ?x with _ => _ end) => destruct x
      end ].

(** *** What api.request sends and what it leaves alone *)

Lemma api_request_sent (meth path : string) (b : value) (w : World) :
  exists extra,
    sent (world_of (api.request meth path b w))
    = (sent w ++ build_request meth path b (token (state w)) :: extra)%list
    /\ (List.length extra <= 2)%nat
    /\ Forall (refresh_or meth path b) extra.
Proof.
  pose proof (api_request_eq meth path b w) as E. cbv zeta in E. rewrite E. clear E.
  set (first := build_request meth path b (token (state w))).
  set (w1 := log_request first w).
  assert (Hrt : Forall (refresh_or meth path b) (refresh_trace w1)).
  { unfold refresh_trace. destruct (mg_refresh w1) as [s|]; [|constructor].
    destruct (String.eqb s ""); constructor; [|constructor].
    left. now exists s. }
  pose proof (refresh_trace_short w1) as Hlen.
  destruct (answer w first) as [msg|res].
  { exists []. simpl. repeat split; [lia|constructor]. }
  destruct (status res =? 401).
  2:{ exists []. simpl. repeat split; [lia|constructor]. }
  destruct (refresh_payload w1) as [data|].
  - set (w2 := refreshed_world w1 data).
    set (again := with_authorization (bearer (token (state w2))) first).
    exists (refresh_trace w1 ++ [again])%list.
    assert (Hs : sent (log_request again w2)
                 = (sent w ++ first :: refresh_trace w1 ++ [again])%list).
    { rewrite log_request_sent. unfold w2. rewrite refreshed_world_sent.
      unfold w1. rewrite log_request_sent. now rewrite <- !app_assoc. }
    assert (Hf : Forall (refresh_or meth path b) (refresh_trace w1 ++ [again])).
    { apply Forall_app. split; [exact Hrt|]. constructor; [|constructor].
      right. repeat split. }
    assert (Hl : (List.length (refresh_trace w1 ++ [again]) <= 2)%nat).
    { rewrite length_app. simpl. lia. }
    destruct (answer w2 again); unfold world_of; cbn [snd]; auto.
  - exists (refresh_trace w1). unfold world_of; cbn [snd].
    split; [|split; [lia|exact Hrt]].
    change (sent (logged_out ?x)) with (sent x).
    rewrite after_trace_sent. unfold w1. rewrite log_request_sent.
    now rewrite <- app_assoc.
Qed.

(** The fields of the state that only the views write. *)
Lemma api_request_state {X} (g : AppState -> X) meth path b w :
  (forall t s, g (set_token t s) = g s) ->
  (forall u s, g (set_user u s) = g s) ->
  g (state (world_of (api.request meth path b w))) = g (state w).
Proof.
  intros Ht Hu.
  pose proof (api_request_eq meth path b w) as E. cbv zeta in E. rewrite E. clear E.
  destruct (answer w _) as [msg|res]; [reflexivity|].
  destruct (status res =? 401); [|reflexivity].
  destruct (refresh_payload _) as [data|].
  - match goal with |- context [answer ?a ?r] => destruct (answer a r) end;
      unfold world_of; cbn [snd]; unfold refreshed_world;
      cbn [state log_request set_storage set_state];
      rewrite Ht, after_trace_state; reflexivity.
  - unfold world_of; cbn [snd]. unfold logged_out.
    cbn [state set_app render_auth set_navbar_hidden set_storage set_state].
    rewrite Hu, Ht, after_trace_state. reflexivity.
Qed.

(* ================================================================== *)
(** ** Discover: the list fetch, pagination, search and filter          *)
(* ================================================================== *)

Lemma renderPagination_world v w : world_of (Discover.renderPagination v w) = w.
Proof.
  unfold Discover.renderPagination, bind, gets, ret, world_of.
  destruct (negb (Discover.is_discover (app w))); [reflexivity|].
  destruct (Discover.at_most_one _); reflexivity.
Qed.

Lemma keeps_renderPagination {X} (f : World -> X) v :
  keeps f (Discover.renderPagination v).
Proof. intros w. now rewrite renderPagination_world. Qed.

(** After the fetch, [loadBooks] writes [state.books] and
    [state.totalBooks] and nothing else of the world. *)
Lemma loadBooks_after {X} (f : World -> X) (v : Discover.View) (w : World) :
  (forall b t w, f (set_state (set_books b t) w) = f w) ->
  app w = DiscoverPage ->
  f (world_of (Discover.loadBooks v w))
  = f (world_of (api.get (Discover.books_url (state w)) w)).
Proof.
  intros Hf Hm. unfold Discover.loadBooks.
  unfold bind at 1, gets at 1. rewrite Hm. cbn [Discover.is_discover negb].
  rewrite after_try by (intro; apply keeps_ret).
  unfold bind at 1, gets at 1.
  rewrite after_bind; [reflexivity|].
  intros data. frame; try apply keeps_renderPagination.
  apply keeps_modify. intros w0. apply Hf.
Qed.

Lemma loadBooks_unmounted (v : Discover.View) (w : World) :
  app w <> DiscoverPage -> Discover.loadBooks v w = (Return v, w).
Proof.
  intros Hm. unfold Discover.loadBooks, bind, gets.
  destruct (app w); try reflexivity. contradiction.
Qed.

(** The list fetch: the first request [loadBooks] sends is the GET of the
    URL built from the state; what follows, if anything, is the refresh
    call and the same GET once more. *)
Lemma loadBooks_sent (v : Discover.View) (w : World) :
  app w = DiscoverPage ->
  exists extra,
    sent (world_of (Discover.loadBooks v w))
    = (sent w ++ books_request (state w) :: extra)%list
    /\ (List.length extra <= 2)%nat
    /\ Forall (refresh_or "GET" (Discover.books_url (state w)) VNull) extra.
Proof.
  intros Hm. rewrite (loadBooks_after sent) by (auto; reflexivity).
  apply api_request_sent.
Qed.

Lemma loadBooks_query {X} (g : AppState -> X) (v : Discover.View) (w : World) :
  (forall t s, g (set_token t s) = g s) ->
  (forall u s, g (set_user u s) = g s) ->
  (forall b t s, g (set_books b t s) = g s) ->
  g (state (world_of (Discover.loadBooks v w))) = g (state w).
Proof.
  intros Ht Hu Hb.
  destruct (Discover.is_discover (app w)) eqn:Hm.
  - assert (app w = DiscoverPage) as Hm' by (destruct (app w); auto; discriminate).
    rewrite (loadBooks_after (fun w => g (state w)) v w
               (fun b t w0 => Hb b t (state w0)) Hm').
    now apply api_request_state.
  - rewrite loadBooks_unmounted; [reflexivity|].
    intros E; rewrite E in Hm; discriminate.
Qed.

Lemma search_fire_eq (v : Discover.View) (w : World) :
  Discover.search_fire v w
  = Discover.loadBooks v
      (set_state (fun s => query_state (trim (Discover.input_value v)) s) w).
Proof. reflexivity. Qed.

Lemma on_chip_eq (g : string) (v : Discover.View) (w : World) :
  Discover.on_chip g v w
  = Discover.loadBooks
      (Discover.set_chips
         (map (fun c => (fst c, String.eqb (fst c) g)) (Discover.chips v)) v)
      (set_state (fun s => set_page 1 (set_genreFilter (Discover.data_genre g) s)) w).
Proof. reflexivity. Qed.

(** C3. In the Discover view, when the search timeout fires and when a
    genre chip is clicked, the handler writes the query and sets
    [state.page] to 1 before it fetches: the first request it sends is the
    list fetch for page 1 with the new query, and [state.page] is 1 when it
    is done. *)
Theorem query_change_resets_page (v : Discover.View) (w : World) :
  app w = DiscoverPage ->
  (let s1 := set_page 1 (set_searchQuery (trim (Discover.input_value v)) (state w)) in
   let w' := world_of (Discover.search_fire v w) in
   (exists extra, sent w' = (sent w ++ books_request s1 :: extra)%list)
   /\ (exists rest, url (books_request s1) = "/api/books?page=1&page_size=" ++ rest)
   /\ searchQuery s1 = trim (Discover.input_value v)
   /\ page (state w') = 1
   /\ searchQuery (state w') = trim (Discover.input_value v))
  /\
  (forall g : string,
      let s1 := set_page 1 (set_genreFilter (Discover.data_genre g) (state w)) in
      let w' := world_of (Discover.on_chip g v w) in
      (exists extra, sent w' = (sent w ++ books_request s1 :: extra)%list)
      /\ (exists rest, url (books_request s1) = "/api/books?page=1&page_size=" ++ rest)
      /\ genreFilter s1 = Discover.data_genre g
      /\ page (state w') = 1
      /\ genreFilter (state w') = Discover.data_genre g).
Proof.
  intros Hm. split.
  - intros s1 w'. subst w'. rewrite search_fire_eq.
    split.
    { destruct (loadBooks_sent v
                  (set_state (fun s => query_state (trim (Discover.input_value v)) s) w) Hm)
        as (extra & Hs & _). exists extra. exact Hs. }
    split; [eexists; reflexivity|]. split; [reflexivity|].
    split; rewrite loadBooks_query; reflexivity.
  - intros g s1 w'. subst w'. rewrite on_chip_eq.
    split.
    { match goal with |- context [Discover.loadBooks ?a ?b] =>
        destruct (loadBooks_sent a b Hm) as (extra & Hs & _) end.
      exists extra. exact Hs. }
    split; [eexists; reflexivity|]. split; [reflexivity|].
    split; rewrite loadBooks_query; reflexivity.
Qed.

(** Witness of C3: page 3 of the Fantasy shelf is shown and the user
    searches for "dune"; the list is fetched again from page 1. *)
Lemma query_change_resets_page_witness :
  let srv := constant_server
               (Response {| status := 200;
                            json_body := Return (VObj [("books", VArr []);
                                                       ("total", VNum 0)]) |}) in
  let w := set_state (fun s => set_page 3 (set_genreFilter "Fantasy" s))
             (session DiscoverPage srv) in
  let v := Discover.set_input " dune" (Discover.mount (state w)) in
  app w = DiscoverPage
  /\ page (state w) = 3
  /\ map url (sent (world_of (Discover.search_fire v w)))
     = ["/api/books?page=1&page_size=20&search=dune&genre=Fantasy"]
  /\ page (state (world_of (Discover.search_fire v w))) = 1.
Proof.
  intros srv w v.
  split; [reflexivity|]. split; [reflexivity|].
  destruct (proj1 (query_change_resets_page v w eq_refl))
    as (_ & _ & _ & Hpage & _).
  split; [reflexivity|exact Hpage].
Defined.




(** *** The search timeout *)

Lemma on_input_armed (s : string) (v : Discover.View) :
  single_slot v ->
  armed (Discover.on_input s v)
  /\ Discover.input_value (Discover.on_input s v) = s
  /\ Discover.now (Discover.on_input s v) = Discover.now v.
Proof.
  intros [Hts | (id & due & Hts & Hslot)]; unfold armed, Discover.on_input; simpl.
  - rewrite Hts.
    assert (Discover.clearTimeout (Discover.searchTimer v) [] = []) as ->
        by (destruct (Discover.searchTimer v); reflexivity).
    split; [|split; reflexivity]. eexists; split; reflexivity.
  - rewrite Hts, Hslot. simpl. rewrite Z.eqb_refl.
    split; [|split; reflexivity]. eexists; split; reflexivity.
Qed.

Lemma wait_armed (gap : Z) (v : Discover.View) (w : World) :
  armed v -> gap < Discover.delay ->
  Discover.wait gap v w = (Return (Discover.set_now (Discover.now v + gap) v), w).
Proof.
  intros (id & Hts & _) Hgap. unfold Discover.wait. rewrite Hts. simpl.
  destruct (_ <=? _) eqn:E; [apply Z.leb_le in E; lia|reflexivity].
Qed.

Lemma wait_idle (gap : Z) (v : Discover.View) (w : World) :
  Discover.timers v = [] ->
  Discover.wait gap v w = (Return (Discover.set_now (Discover.now v + gap) v), w).
Proof. intros Hts. unfold Discover.wait. now rewrite Hts. Qed.

Lemma bind_ret_r {A} (c : M A) (w : World) : bind c ret w = c w.
Proof. unfold bind, ret. destruct (c w) as [[a|e] w']; reflexivity. Qed.

(** When the armed timeout is due the callback runs once, on a view with
    no timeout pending. *)
Lemma wait_fires (quiet : Z) (v : Discover.View) (w : World) :
  armed v -> Discover.delay <= quiet ->
  exists v_end,
    Discover.input_value v_end = Discover.input_value v
    /\ Discover.timers v_end = []
    /\ Discover.wait quiet v w = Discover.search_fire v_end w.
Proof.
  intros (id & Hts & Hslot) Hq.
  exists (Discover.set_timers (Discover.searchTimer v) [] (Discover.next_timer v)
            (Discover.set_now (Discover.now v + quiet) v)).
  split; [reflexivity|]. split; [reflexivity|].
  unfold Discover.wait. rewrite Hts. cbn [Discover.run_due].
  destruct (_ <=? _) eqn:E; [|apply Z.leb_gt in E; lia].
  cbn [Discover.timers Discover.set_now Discover.searchTimer Discover.next_timer].
  rewrite Hts. cbn [Discover.remove_timer]. rewrite Z.eqb_refl.
  apply (bind_ret_r (Discover.search_fire _) w).
Qed.

Lemma last_cons_default {A} (l : list A) :
  forall a d, last (a :: l) d = last l a.
Proof.
  induction l as [|x l IH]; intros a d; [reflexivity|].
  change (last (a :: x :: l) d) with (last (x :: l) d).
  now rewrite !IH.
Qed.

(** Keys that follow one another within the delay fetch nothing and
    leave the timeout of the last one armed. *)
Lemma type_keys_armed (keys : list (Z * string)) :
  forall (v : Discover.View) (w : World),
    armed v ->
    (forall gap s, In (gap, s) keys -> 0 <= gap < Discover.delay) ->
    exists v',
      type_keys keys v w = (Return v', w)
      /\ armed v'
      /\ Discover.input_value v' = typed (Discover.input_value v) keys.
Proof.
  induction keys as [|[gap s] rest IH]; intros v w Harmed Hgaps.
  - exists v. split; [reflexivity|]. split; [exact Harmed|reflexivity].
  - assert (Hgap : 0 <= gap < Discover.delay) by (apply (Hgaps gap s); now left).
    cbn [type_keys]. unfold bind at 1.
    rewrite (wait_armed gap v w Harmed) by lia.
    set (v1 := Discover.set_now (Discover.now v + gap) v).
    assert (Hs1 : single_slot v1).
    { destruct Harmed as (id & Hts & Hslot). right.
      exists id, (Discover.now v + Discover.delay). split; assumption. }
    destruct (on_input_armed s v1 Hs1) as (Ha & Hi & _).
    destruct (IH (Discover.on_input s v1) w Ha) as (v' & Hrun & Ha' & Hi').
    { intros g' s' Hin. apply (Hgaps g' s'). now right. }
    exists v'. split; [exact Hrun|]. split; [exact Ha'|].
    rewrite Hi', Hi. unfold typed. cbn [map snd].
    symmetry. apply last_cons_default.
Qed.

(** Unless it is answered 401, the list fetch is one request. *)
Lemma loadBooks_sent_once (v : Discover.View) (w : World) :
  app w = DiscoverPage ->
  match answer w (books_request (state w)) with
  | Response r => status r <> 401
  | NetworkFailure _ => True
  end ->
  sent (world_of (Discover.loadBooks v w))
  = (sent w ++ [books_request (state w)])%list.
Proof.
  intros Hm Hans. rewrite (loadBooks_after sent) by (auto; reflexivity).
  unfold api.get.
  pose proof (api_request_eq "GET" (Discover.books_url (state w)) VNull w) as E.
  cbv zeta in E. rewrite E. clear E.
  change (build_request "GET" (Discover.books_url (state w)) VNull (token (state w)))
    with (books_request (state w)).
  destruct (answer w (books_request (state w))) as [msg|r]; [reflexivity|].
  destruct (status r =? 401) eqn:H; [apply Z.eqb_eq in H; contradiction|].
  reflexivity.
Qed.

(** C8 (as amended). In the Discover view every key cancels the pending
    search timeout and arms a new one of 350 ms.  For keys that follow one
    another within the delay and are followed by a pause of at least the
    delay, the whole burst does what one run of the callback on the last
    value does: one list fetch, for page 1 and the trimmed last value;
    nothing is fetched for the values typed on the way.  The list fetch is
    exactly one GET /books call unless that call is answered 401; then the
    401 protocol adds at most two requests, each the refresh call or the
    same GET again. *)
Theorem search_is_debounced
  (first : string) (keys : list (Z * string)) (quiet : Z)
  (v : Discover.View) (w : World) :
  single_slot v ->
  app w = DiscoverPage ->
  (forall gap s, In (gap, s) keys -> 0 <= gap < Discover.delay) ->
  Discover.delay <= quiet ->
  let run := (v1 <- type_keys keys (Discover.on_input first v) ;;
              Discover.wait quiet v1) w in
  let s1 := query_state (trim (typed first keys)) (state w) in
  (forall s v0, single_slot v0 -> armed (Discover.on_input s v0))
  /\ (exists v_end,
         Discover.input_value v_end = typed first keys
         /\ Discover.timers v_end = []
         /\ run = Discover.search_fire v_end w)
  /\ (exists extra,
         sent (world_of run) = (sent w ++ books_request s1 :: extra)%list
         /\ (List.length extra <= 2)%nat
         /\ Forall (refresh_or "GET" (Discover.books_url s1) VNull) extra)
  /\ (match answer w (books_request s1) with
      | Response r => status r <> 401
      | NetworkFailure _ => True
      end ->
      sent (world_of run) = (sent w ++ [books_request s1])%list)
  /\ searchQuery s1 = trim (typed first keys)
  /\ page s1 = 1.
Proof.
  intros Hslot Hm Hgaps Hq run s1.
  split; [intros s v0 H0; exact (proj1 (on_input_armed s v0 H0))|].
  destruct (on_input_armed first v Hslot) as (Ha & Hi & _).
  destruct (type_keys_armed keys (Discover.on_input first v) w Ha Hgaps)
    as (v' & Hrun & Ha' & Hi').
  destruct (wait_fires quiet v' w Ha' Hq) as (v_end & He & Hts & Hfire).
  assert (Erun : run = Discover.search_fire v_end w).
  { subst run. unfold bind. rewrite Hrun. exact Hfire. }
  assert (Hval : Discover.input_value v_end = typed first keys).
  { rewrite He, Hi', Hi. reflexivity. }
  split; [exists v_end; auto|].
  split; [|split; [|split; reflexivity]].
  - rewrite Erun, search_fire_eq, Hval.
    apply (loadBooks_sent v_end); exact Hm.
  - intros Hans. rewrite Erun, search_fire_eq, Hval.
    apply (loadBooks_sent_once v_end); [exact Hm|exact Hans].
Qed.

(** Witness of C8: "fantasy", a pause within the delay, then on to
    "fantasy novel" and a pause of 350 ms: one request, for the last
    value. *)
Lemma search_is_debounced_witness :
  let w := session DiscoverPage (constant_server (Response empty_list)) in
  let v := Discover.mount (state w) in
  let run := (v1 <- type_keys fantasy_novel_keys (Discover.on_input "f" v) ;;
              Discover.wait 350 v1) w in
  typed "f" fantasy_novel_keys = "fantasy novel"
  /\ map url (sent (world_of run))
     = ["/api/books?page=1&page_size=20&search=fantasy%20novel"]
  /\ exists v_end, run = Discover.search_fire v_end w.
Proof.
  intros w v run.
  assert (Hgaps : forall gap s, In (gap, s) fantasy_novel_keys ->
                                0 <= gap < Discover.delay).
  { intros gap s Hin. unfold Discover.delay.
    repeat (destruct Hin as [[= <- <-] | Hin]; [lia|]). destruct Hin. }
  destruct (search_is_debounced "f" fantasy_novel_keys 350 v w
              (or_introl eq_refl) eq_refl Hgaps ltac:(unfold Discover.delay; lia))
    as (_ & (v_end & _ & _ & Hrun) & _ & Honce & _).
  split; [reflexivity|].
  split; [exact (f_equal (map url) (Honce ltac:(discriminate)))|].
  exists v_end. exact Hrun.
Defined.

(** Counterexample to C8 as stated: the access token has expired when the
    pause ends.  The one list fetch of the burst is answered 401, the
    refresh succeeds and the GET is sent again: two GET /books calls for
    "fantasy novel". *)
Lemma expired_token_search_sends_two_list_fetches :
  let w := session DiscoverPage (expiring_server empty_list) in
  let v := Discover.mount (state w) in
  let run := (v1 <- type_keys fantasy_novel_keys (Discover.on_input "f" v) ;;
              Discover.wait 350 v1) w in
  map url (sent (world_of run))
  = ["/api/books?page=1&page_size=20&search=fantasy%20novel";
     "/api/auth/refresh";
     "/api/books?page=1&page_size=20&search=fantasy%20novel"]
  /\ map method (sent (world_of run)) = ["GET"; "POST"; "GET"]
  /\ List.length (filter (fun r => String.eqb (method r) "GET") (sent (world_of run)))
     <> 1%nat.
Proof.
  intros w v run.
  split; [reflexivity|]. split; [reflexivity|]. discriminate.
Qed.

(* ================================================================== *)
(** ** Book Detail: like, bookmark and rating                           *)
(* ================================================================== *)

Lemma api_request_toasts meth path b w :
  toasts (world_of (api.request meth path b w)) = toasts w.
Proof.
  pose proof (api_request_eq meth path b w) as E. cbv zeta in E. rewrite E. clear E.
  assert (Ht : forall w0 t, toasts (after_trace w0 t) = toasts w0).
  { intros w0 t. unfold after_trace. revert w0.
    induction t as [|r t IH]; intros w0; simpl; [reflexivity|]. now rewrite IH. }
  destruct (answer w _) as [msg|res]; [reflexivity|].
  destruct (status res =? 401); [|reflexivity].
  destruct (refresh_payload _) as [data|].
  - match goal with |- context [answer ?a ?r] => destruct (answer a r) end;
      unfold world_of; cbn [snd]; unfold refreshed_world;
      cbn [toasts log_request set_storage set_state]; now rewrite Ht.
  - unfold world_of; cbn [snd]. unfold logged_out.
    cbn [toasts set_app render_auth set_navbar_hidden set_storage set_state]. now rewrite Ht.
Qed.

Lemma on_like_eq (v : Detail.View) (w : World) :
  Detail.on_like v w =
  if Detail.contains "active-like" (Detail.like_btn v) then (Return v, w)
  else
    match api.post "/interactions" (Detail.interaction (Detail.bookId v) "like") w with
    | (Return _, w1) =>
        match Detail.activate "active-like" " Liked" (Detail.like_btn v) with
        | Return b =>
            (Return (Detail.set_like b v),
             add_toast {| toast_text := "Added to your likes ❤️";
                          toast_type := "success" |} w1)
        | Throw e =>
            (Return (Detail.set_like
                       (Detail.class_add "active-like" (Detail.like_btn v)) v),
             add_toast (error_toast e) w1)
        end
    | (Throw e, w1) => (Return v, add_toast (error_toast e) w1)
    end.
Proof.
  unfold Detail.on_like.
  destruct (Detail.contains _ _); [reflexivity|].
  unfold try_catch, bind.
  destruct (api.post _ _ w) as [[r|e] w1]; [|reflexivity].
  destruct (Detail.activate _ _ _); reflexivity.
Qed.

Lemma on_bookmark_eq (v : Detail.View) (w : World) :
  Detail.on_bookmark v w =
  if Detail.contains "active-bookmark" (Detail.bookmark_btn v) then (Return v, w)
  else
    match api.post "/interactions"
            (Detail.interaction (Detail.bookId v) "bookmark") w with
    | (Return _, w1) =>
        match Detail.activate "active-bookmark" " Bookmarked" (Detail.bookmark_btn v) with
        | Return b =>
            (Return (Detail.set_bookmark b v),
             add_toast {| toast_text := "Bookmarked! 🔖";
                          toast_type := "success" |} w1)
        | Throw e =>
            (Return (Detail.set_bookmark
                       (Detail.class_add "active-bookmark" (Detail.bookmark_btn v)) v),
             add_toast (error_toast e) w1)
        end
    | (Throw e, w1) => (Return v, add_toast (error_toast e) w1)
    end.
Proof.
  unfold Detail.on_bookmark.
  destruct (Detail.contains _ _); [reflexivity|].
  unfold try_catch, bind.
  destruct (api.post _ _ w) as [[r|e] w1]; [|reflexivity].
  destruct (Detail.activate _ _ _); reflexivity.
Qed.

(** What holds of C5: an active button is inert, and a failed write
    leaves both buttons as they were and shows one error toast. *)
Lemma active_like_is_inert (v : Detail.View) (w : World) :
  Detail.contains "active-like" (Detail.like_btn v) = true ->
  Detail.on_like v w = (Return v, w).
Proof. intros H. rewrite on_like_eq. now rewrite H. Qed.

Lemma active_bookmark_is_inert (v : Detail.View) (w : World) :
  Detail.contains "active-bookmark" (Detail.bookmark_btn v) = true ->
  Detail.on_bookmark v w = (Return v, w).
Proof. intros H. rewrite on_bookmark_eq. now rewrite H. Qed.

Lemma failed_like_changes_nothing (v : Detail.View) (w w1 : World) (e : exn) :
  Detail.contains "active-like" (Detail.like_btn v) = false ->
  api.post "/interactions" (Detail.interaction (Detail.bookId v) "like") w
  = (Throw e, w1) ->
  Detail.on_like v w = (Return v, add_toast (error_toast e) w1)
  /\ toasts (add_toast (error_toast e) w1) = (toasts w ++ [error_toast e])%list.
Proof.
  intros Ha Hp. rewrite on_like_eq, Ha, Hp. split; [reflexivity|].
  simpl. f_equal.
  change w1 with (world_of (Throw (A := value) e, w1)). rewrite <- Hp.
  apply api_request_toasts.
Qed.

Lemma failed_bookmark_changes_nothing (v : Detail.View) (w w1 : World) (e : exn) :
  Detail.contains "active-bookmark" (Detail.bookmark_btn v) = false ->
  api.post "/interactions" (Detail.interaction (Detail.bookId v) "bookmark") w
  = (Throw e, w1) ->
  Detail.on_bookmark v w = (Return v, add_toast (error_toast e) w1)
  /\ toasts (add_toast (error_toast e) w1) = (toasts w ++ [error_toast e])%list.
Proof.
  intros Ha Hp. rewrite on_bookmark_eq, Ha, Hp. split; [reflexivity|].
  simpl. f_equal.
  change w1 with (world_of (Throw (A := value) e, w1)). rewrite <- Hp.
  apply api_request_toasts.
Qed.

(** C5, where the code departs from it.  The Like button of a book not
    yet liked shows the icon and "Like".  When the write is confirmed the
    class is added, but the child removed is the last element, which is the
    icon, and " Liked" is appended to the text that stays: the button reads
    "Like Liked" and has no icon.  The Bookmark button does the same. *)
Theorem confirmed_like_keeps_old_label
  (id : Z) (w w1 : World) (data : value) :
  api.post "/interactions" (Detail.interaction id "like") w = (Return data, w1) ->
  let v := Detail.mount id Detail.no_marks in
  Detail.label (Detail.children (Detail.like_btn v)) = "Like"
  /\ Detail.has_svg (Detail.children (Detail.like_btn v)) = true
  /\ exists v' w',
       Detail.on_like v w = (Return v', w')
       /\ Detail.contains "active-like" (Detail.like_btn v') = true
       /\ Detail.children (Detail.like_btn v') = [Detail.TextNode "Like";
                                                  Detail.TextNode " Liked"]
       /\ Detail.label (Detail.children (Detail.like_btn v')) = "Like Liked"
       /\ Detail.label (Detail.children (Detail.like_btn v')) <> "Liked".
Proof.
  intros Hp v. split; [reflexivity|]. split; [reflexivity|].
  eexists _, _. rewrite on_like_eq.
  change (Detail.bookId v) with id. rewrite Hp. simpl.
  split; [reflexivity|]. split; [reflexivity|]. split; [reflexivity|].
  split; [reflexivity|discriminate].
Qed.

(** Witness: the server confirms the like of book 7. *)
Lemma confirmed_like_keeps_old_label_witness :
  let w := session BookPage (constant_server (Response created)) in
  exists v' w',
    Detail.on_like (Detail.mount 7 Detail.no_marks) w = (Return v', w')
    /\ sent w' = [like_request 7 (VStr "old")]
    /\ Detail.label (Detail.children (Detail.like_btn v')) = "Like Liked".
Proof.
  intros w.
  destruct (confirmed_like_keeps_old_label 7 w
              (log_request (like_request 7 (VStr "old")) w)
              (VObj [("id", VNum 1)]) eq_refl)
    as (_ & _ & v' & w' & Hrun & _ & _ & Hlabel & _).
  exists v', w'. split; [exact Hrun|]. split; [|exact Hlabel].
  vm_compute in Hrun. injection Hrun as _ <-. reflexivity.
Defined.

Lemma confirmed_bookmark_keeps_old_label :
  let w := session BookPage (constant_server (Response created)) in
  exists v' w',
    Detail.on_bookmark (Detail.mount 7 Detail.no_marks) w = (Return v', w')
    /\ Detail.label (Detail.children (Detail.bookmark_btn v')) = "Bookmark Bookmarked".
Proof. intros w. eexists _, _. split; reflexivity. Qed.

Lemma strict_eq_num (n : Z) (x : value) : strict_eq (VNum n) x = true <-> x = VNum n.
Proof.
  unfold strict_eq, value_eqb. destruct x; split; intros H; try discriminate.
  - apply Z.eqb_eq in H. now subst.
  - injection H as ->. apply Z.eqb_refl.
Qed.

Lemma on_star_eq (s : Detail.star) (v : Detail.View) (w : World) :
  let val := Detail.data_value s in
  Detail.on_star s v w =
  if strict_eq (VNum val) (Detail.currentRating v) then (Return v, w)
  else
    match api.post "/interactions" (Detail.rate_body (Detail.bookId v) val) w with
    | (Return _, w1) =>
        (Return (Detail.set_rating (VNum val)
                   (Detail.fill_stars val 0 (Detail.stars v))
                   ("You rated " ++ num_to_string val ++ "/5") v),
         add_toast {| toast_text := "Rated " ++ num_to_string val ++ " star"
                                    ++ (if 1 <? val then "s" else "") ++ " ⭐";
                      toast_type := "success" |} w1)
    | (Throw e, w1) => (Return v, add_toast (error_toast e) w1)
    end.
Proof.
  intros val. unfold Detail.on_star. fold val.
  destruct (strict_eq _ _); [reflexivity|].
  unfold try_catch, bind.
  destruct (api.post _ _ w) as [[r|e] w1]; reflexivity.
Qed.

(** C6 (as amended). A click on a star of value [val]: when [val] is the
    confirmed rating nothing is sent and nothing changes.  Otherwise one
    rating write is issued through [api.post] — its POST, which the 401
    protocol may follow with the refresh call and the POST once more.  When
    the write is confirmed the rating, the stars and the label show [val],
    and a second click on the same star sends nothing.  When the write
    fails the view is as it was, an error toast is shown, and a second
    click issues the write again. *)
Theorem rating_write_on_change (s : Detail.star) (v : Detail.View) (w : World) :
  let val := Detail.data_value s in
  let write := api.post "/interactions" (Detail.rate_body (Detail.bookId v) val) w in
  (Detail.currentRating v = VNum val -> Detail.on_star s v w = (Return v, w))
  /\ (Detail.currentRating v <> VNum val ->
      exists v' w',
        Detail.on_star s v w = (Return v', w')
        /\ sent w' = sent (world_of write)
        /\ (exists extra,
               sent w' = (sent w ++ rate_request (Detail.bookId v) val (token (state w))
                            :: extra)%list
               /\ (List.length extra <= 2)%nat
               /\ Forall (refresh_or "POST" "/interactions"
                            (Detail.rate_body (Detail.bookId v) val)) extra)
        /\ (forall data, result_of write = Return data ->
               Detail.currentRating v' = VNum val
               /\ Detail.rating_label v' = "You rated " ++ num_to_string val ++ "/5"
               /\ Detail.stars v' = Detail.fill_stars val 0 (Detail.stars v)
               /\ Detail.on_star s v' w' = (Return v', w'))
        /\ (forall e, result_of write = Throw e ->
               v' = v
               /\ toasts w' = (toasts w ++ [error_toast e])%list
               /\ sent (world_of (Detail.on_star s v' w'))
                  = sent (world_of
                            (api.post "/interactions"
                               (Detail.rate_body (Detail.bookId v) val) w')))).
Proof.
  intros val write. split.
  - intros Hc. rewrite on_star_eq. fold val.
    now rewrite (proj2 (strict_eq_num val _) Hc).
  - intros Hc.
    assert (Hne : strict_eq (VNum val) (Detail.currentRating v) = false).
    { destruct (strict_eq _ _) eqn:E; [|reflexivity].
      apply strict_eq_num in E. contradiction. }
    pose proof (on_star_eq s v w) as E. cbv zeta in E. fold val in E.
    rewrite Hne in E.
    pose proof (api_request_sent "POST" "/interactions"
                  (Detail.rate_body (Detail.bookId v) val) w) as Hsent.
    pose proof (api_request_toasts "POST" "/interactions"
                  (Detail.rate_body (Detail.bookId v) val) w) as Htoasts.
    subst write. unfold api.post in *.
    destruct (api.request "POST" "/interactions"
                (Detail.rate_body (Detail.bookId v) val) w) as [[data|e] w1];
      unfold world_of, result_of in *;
      cbn [fst snd] in *; eexists _, _; (split; [exact E|]);
      (split; [reflexivity|]); (split; [exact Hsent|]); split.
    + intros data' _. split; [reflexivity|]. split; [reflexivity|].
      split; [reflexivity|].
      rewrite on_star_eq. cbv zeta. cbn [Detail.currentRating Detail.set_rating].
      fold val. now rewrite (proj2 (strict_eq_num val _) eq_refl).
    + intros e' [=].
    + intros data' [=].
    + intros e' [= <-]. split; [reflexivity|]. split.
      { simpl. now rewrite Htoasts. }
      rewrite on_star_eq. cbv zeta. fold val. rewrite Hne. unfold api.post.
      set (w' := add_toast (error_toast e) w1).
      destruct (api.request "POST" "/interactions"
                  (Detail.rate_body (Detail.bookId v) val) w') as [[d2|e2] w2];
        reflexivity.
Qed.

(** Witness of C6: the book is unrated and the third star is clicked
    twice; the server confirms the write, which is sent once. *)
Lemma rating_write_on_change_witness :
  let w := session BookPage (constant_server (Response created)) in
  let v := Detail.mount 7 Detail.no_marks in
  let s := nth 2 (Detail.stars v) (Detail.mkStar 0 false false) in
  Detail.data_value s = 3
  /\ Detail.currentRating v <> VNum 3
  /\ exists v1 w1,
       Detail.on_star s v w = (Return v1, w1)
       /\ Detail.on_star s v1 w1 = (Return v1, w1)
       /\ sent w1 = [rate_request 7 3 (VStr "old")]
       /\ Detail.rating_label v1 = "You rated 3/5"
       /\ map Detail.filled (Detail.stars v1) = [true; true; true; false; false].
Proof.
  intros w v s.
  split; [reflexivity|]. split; [discriminate|].
  destruct (proj2 (rating_write_on_change s v w) ltac:(discriminate))
    as (v1 & w1 & Hrun & _ & _ & Hok & _).
  exists v1, w1.
  destruct (Hok (VObj [("id", VNum 1)]) eq_refl) as (_ & _ & _ & Hagain).
  split; [exact Hrun|]. split; [exact Hagain|].
  vm_compute in Hrun. injection Hrun as <- <-.
  split; [reflexivity|]. split; reflexivity.
Defined.

(** Counterexample to C6 as stated: the server answers 500 to the write.
    The third star clicked twice in a row sends the write twice. *)
Lemma failed_rating_is_sent_again :
  let w := session BookPage (constant_server (Response server_error)) in
  let v := Detail.mount 7 Detail.no_marks in
  let s := nth 2 (Detail.stars v) (Detail.mkStar 0 false false) in
  exists v1 w1 v2 w2,
    Detail.on_star s v w = (Return v1, w1)
    /\ Detail.on_star s v1 w1 = (Return v2, w2)
    /\ Detail.data_value s = 3
    /\ sent w1 = [rate_request 7 3 (VStr "old")]
    /\ sent w2 = [rate_request 7 3 (VStr "old"); rate_request 7 3 (VStr "old")]
    /\ List.length (sent w2) <> 1%nat
    /\ Detail.currentRating v2 = VNum 0.
Proof.
  intros w v s. eexists _, _, _, _.
  split; [reflexivity|]. split; [reflexivity|]. split; [reflexivity|].
  split; [reflexivity|]. split; [reflexivity|]. split; [discriminate|reflexivity].
Qed.

(* ================================================================== *)
(** ** Library: one fetch of the history, filters on the client         *)
(* ================================================================== *)











(* ================================================================== *)
(** ** Identity from the access token                                   *)
(* ================================================================== *)

(** decodeAndSetUser never throws. *)
Lemma decodeAndSetUser_returns (parse : string -> outcome value) (tok : value) (w : World) :
  exists w', decodeAndSetUser parse tok w = (Return tt, w').
Proof.
  unfold decodeAndSetUser, try_catch.
  match goal with |- context [match ?c w with _ => _ end] =>
    destruct (c w) as [[[]|e] w1] end; eexists; reflexivity.
Qed.

(** A failure to split, decode or parse leaves the world as it was. *)
Lemma decode_failure_leaves_identity
  (parse : string -> outcome value) (tok : value) (w : World) :
  (forall seg text payload,
      middle_segment tok = Return seg ->
      atob (to_string seg) = Return text ->
      parse text = Return payload ->
      payload = VNull \/ payload = VUndefined) ->
  decodeAndSetUser parse tok w = (Return tt, w).
Proof.
  intros H. unfold decodeAndSetUser, try_catch, bind, lift, ret.
  destruct (middle_segment tok) as [seg|e] eqn:Es; [|reflexivity].
  destruct (atob (to_string seg)) as [text|e] eqn:Ea; [|reflexivity].
  destruct (parse text) as [payload|e] eqn:Ep; [|reflexivity].
  destruct (H seg text payload eq_refl Ea Ep) as [-> | ->]; reflexivity.
Qed.

(** When the middle segment decodes with [atob] and parses to an object,
    the identity is the one of its members. *)
Lemma decode_sets_identity
  (parse : string -> outcome value) (tok seg : value) (text : string)
  (members : list (string * value)) (w : World) :
  middle_segment tok = Return seg ->
  atob (to_string seg) = Return text ->
  parse text = Return (VObj members) ->
  let sub := lookup "sub" members in
  let u := {| user_id := parseInt (to_string sub);
              role := or_else (lookup "role" members) (VStr "user");
              username := or_else (lookup "username" members)
                            (VStr ("User " ++ to_string sub)) |} in
  decodeAndSetUser parse tok w
  = (Return tt, set_nav_username (as_text (username u))
                  (set_state (set_user (Some u)) w)).
Proof.
  intros Hs Ha Hp sub u.
  unfold decodeAndSetUser, try_catch, bind, lift, ret.
  rewrite Hs, Ha, Hp. reflexivity.
Qed.

(** C7, where the code departs from it.  The middle segment of the token
    is the URL-safe base64 of the JSON object with sub "7", role "user" and
    username "a~b"; it holds the character [-].  [atob] knows the alphabet
    of base64 only and rejects it, the exception is swallowed, and the
    identity stays unset.  The token of the user "reader", whose segment
    has no such character, gives the identity. *)
Theorem url_safe_token_leaves_identity_unset
  (parse : string -> outcome value) (w : World) :
  base64url_decode tilde_segment = Return (claims_text "7" "user" "a~b")
  /\ atob tilde_segment = Throw invalid_character
  /\ decodeAndSetUser parse (jwt tilde_segment) w = (Return tt, w)
  /\ user (state (world_of (decodeAndSetUser parse (jwt tilde_segment) w)))
     = user (state w)
  /\ atob reader_segment = Return (claims_text "7" "user" "reader")
  /\ user (state (world_of (decodeAndSetUser example_parse (jwt reader_segment) w)))
     = Some {| user_id := Some 7; role := VStr "user"; username := VStr "reader" |}.
Proof.
  assert (Hfail : decodeAndSetUser parse (jwt tilde_segment) w = (Return tt, w)).
  { apply decode_failure_leaves_identity. intros seg text payload Hs Ha.
    vm_compute in Hs. injection Hs as <-. vm_compute in Ha. discriminate Ha. }
  split; [vm_compute; reflexivity|]. split; [vm_compute; reflexivity|].
  split; [exact Hfail|]. split; [now rewrite Hfail|].
  split; [vm_compute; reflexivity|].
  rewrite (decode_sets_identity example_parse (jwt reader_segment)
             (VStr reader_segment) (claims_text "7" "user" "reader")
             [("sub", VStr "7"); ("role", VStr "user"); ("username", VStr "reader")] w);
    reflexivity.
Qed.

(* ================================================================== *)
(** ** More of the API client                                           *)
(* ================================================================== *)

Lemma ok_not_401 (r : http_response) : ok r = true -> (status r =? 401) = false.
Proof.
  unfold ok. intros H. apply andb_prop in H. destruct H as [_ H].
  apply Z.leb_le in H. apply Z.eqb_neq. lia.
Qed.

Lemma api_request_other_world
  (w : World) (meth path : string) (b : value) (r : http_response) :
  answer w (build_request meth path b (token (state w))) = Response r ->
  status r <> 401 ->
  world_of (api.request meth path b w)
  = log_request (build_request meth path b (token (state w))) w.
Proof.
  intros Ha Hs.
  pose proof (api_request_eq meth path b w) as E. cbv zeta in E. rewrite E, Ha.
  destruct (status r =? 401) eqn:H; [apply Z.eqb_eq in H; contradiction|].
  reflexivity.
Qed.

(** X1. Unless the answer is 401, [api.request] sends one request and
    changes nothing else: a transport failure throws its TypeError, a 204
    returns [null] without reading the body, any other 2xx returns the
    parsed body or throws what parsing it throws. *)
Theorem one_request_unless_unauthorized
  (w : World) (meth path : string) (b : value) :
  let first := build_request meth path b (token (state w)) in
  (forall msg, answer w first = NetworkFailure msg ->
               api.request meth path b w = (Throw (TypeError msg), log_request first w))
  /\ (forall r, answer w first = Response r -> ok r = true ->
                api.request meth path b w
                = (if status r =? 204 then Return VNull else json_body r,
                   log_request first w))
  /\ (forall r, answer w first = Response r -> status r <> 401 ->
                world_of (api.request meth path b w) = log_request first w).
Proof.
  intros first.
  pose proof (api_request_eq meth path b w) as E. cbv zeta in E. fold first in E.
  split; [intros msg Ha; now rewrite E, Ha|]. split.
  - intros r Ha Hok. rewrite E, Ha, (ok_not_401 r Hok).
    unfold first_result. now rewrite Hok.
  - intros r Ha Hs. rewrite E, Ha.
    destruct (status r =? 401) eqn:H; [apply Z.eqb_eq in H; contradiction|].
    reflexivity.
Qed.

Lemma one_request_unless_unauthorized_witness :
  let w := session BookPage (constant_server (Response book7)) in
  api.request "GET" "/books/7" VNull w
  = (Return (VObj [("id", VNum 7); ("title", VStr "Emma")]),
     log_request (get_book7 (VStr "old")) w).
Proof.
  intros w.
  exact (proj1 (proj2 (one_request_unless_unauthorized w "GET" "/books/7" VNull))
           book7 eq_refl eq_refl).
Defined.

Lemma refresh_trace_refresh (w : World) :
  Forall (fun r => exists refresh, r = refresh_request refresh) (refresh_trace w).
Proof.
  unfold refresh_trace. destruct (mg_refresh w) as [s|]; [|constructor].
  destruct (String.eqb s ""); constructor; [now exists s|constructor].
Qed.

(** X2. The request [api.request] sends first carries the header
    "Bearer <token>" exactly when [state.token] is truthy.  Whatever it
    sends after that is the refresh call, which carries no Authorization
    header, or the retry, which carries the token the session holds in the
    end. *)
Theorem requests_carry_the_token (w : World) (meth path : string) (b : value) :
  let run := api.request meth path b w in
  exists first extra,
    sent (world_of run) = (sent w ++ first :: extra)%list
    /\ authorization first
       = (if truthy (token (state w))
          then Some ("Bearer " ++ to_string (token (state w)))
          else None)
    /\ Forall (fun r =>
                 (authorization r = None /\ exists refresh, r = refresh_request refresh)
                 \/ authorization r
                    = Some ("Bearer " ++ to_string (token (state (world_of run)))))
         extra.
Proof.
  intros run. subst run.
  pose proof (api_request_eq meth path b w) as E. cbv zeta in E. rewrite E. clear E.
  set (first := build_request meth path b (token (state w))).
  set (w1 := log_request first w).
  assert (Hrt : forall t,
             Forall (fun r =>
                       (authorization r = None
                        /\ exists refresh, r = refresh_request refresh)
                       \/ authorization r = Some ("Bearer " ++ to_string t))
               (refresh_trace w1)).
  { intros t. eapply Forall_impl; [|apply refresh_trace_refresh].
    intros r (s & ->). left. split; [reflexivity|now exists s]. }
  exists first.
  destruct (answer w first) as [msg|res].
  { exists []. split; [reflexivity|]. split; [reflexivity|constructor]. }
  destruct (status res =? 401).
  2:{ exists []. split; [reflexivity|]. split; [reflexivity|constructor]. }
  destruct (refresh_payload w1) as [data|].
  - set (w2 := refreshed_world w1 data).
    set (again := with_authorization (bearer (token (state w2))) first).
    exists (refresh_trace w1 ++ [again])%list.
    assert (Hw : forall o : outcome value,
               world_of (o, log_request again w2) = log_request again w2)
      by reflexivity.
    assert (Hgoal :
              sent (log_request again w2)
              = (sent w ++ first :: refresh_trace w1 ++ [again])%list
              /\ authorization first
                 = (if truthy (token (state w))
                    then Some ("Bearer " ++ to_string (token (state w)))
                    else None)
              /\ Forall (fun r =>
                           (authorization r = None
                            /\ exists refresh, r = refresh_request refresh)
                           \/ authorization r
                              = Some ("Bearer "
                                      ++ to_string (token (state (log_request again w2)))))
                   (refresh_trace w1 ++ [again])).
    { split.
      - rewrite log_request_sent. unfold w2. rewrite refreshed_world_sent.
        unfold w1. rewrite log_request_sent. now rewrite <- !app_assoc.
      - split; [reflexivity|]. apply Forall_app. split; [apply Hrt|].
        constructor; [|constructor]. right. reflexivity. }
    destruct (answer w2 again); rewrite Hw; exact Hgoal.
  - exists (refresh_trace w1). unfold world_of; cbn [snd].
    split; [|split; [reflexivity|apply Hrt]].
    change (sent (logged_out ?x)) with (sent x).
    rewrite after_trace_sent. unfold w1. rewrite log_request_sent.
    now rewrite <- app_assoc.
Qed.

Lemma logged_out_twice (w : World) : logged_out (logged_out w) = logged_out w.
Proof. reflexivity. Qed.

(** X3. After [logout()] the session holds no token and no refresh
    token: a second [logout()] changes nothing, and a request answered 401
    is sent without Authorization header, is followed by no refresh call
    and by no retry, and throws "Session expired". *)
Theorem signed_out_request_is_not_refreshed
  (w : World) (meth path : string) (b : value) (r : http_response) :
  let first := build_request meth path b VNull in
  answer (logged_out w) first = Response r ->
  status r = 401 ->
  (logout ;;; logout) w = logout w
  /\ authorization first = None
  /\ api.request meth path b (logged_out w)
     = (Throw (Error "Session expired"), logged_out (log_request first w))
  /\ sent (world_of (api.request meth path b (logged_out w)))
     = (sent w ++ [first])%list.
Proof.
  intros first Ha Hs.
  split; [reflexivity|]. split; [reflexivity|].
  pose proof (api_request_eq meth path b (logged_out w)) as E. cbv zeta in E.
  change (build_request meth path b (token (state (logged_out w)))) with first in E.
  rewrite Ha, Hs in E. simpl (401 =? 401) in E. cbv iota in E.
  change (refresh_payload (log_request first (logged_out w))) with (@None value) in E.
  rewrite E. split; reflexivity.
Qed.

(** Witness: the user signs out of the session of the examples and
    the stale page asks for a book. *)
Lemma signed_out_request_is_not_refreshed_witness :
  let w := session DiscoverPage (constant_server (Response unauthorized)) in
  map url (sent (world_of (api.request "GET" "/books/7" VNull (logged_out w))))
  = ["/api/books/7"]
  /\ result_of (api.request "GET" "/books/7" VNull (logged_out w))
     = Throw (Error "Session expired").
Proof.
  intros w.
  destruct (signed_out_request_is_not_refreshed w "GET" "/books/7" VNull
              unauthorized eq_refl eq_refl) as (_ & _ & Hrun & _).
  rewrite Hrun. split; reflexivity.
Defined.

(** X4. An error answer whose body is the JSON value [null]: the
    fallback message is not reached, reading [detail] of [null] throws a
    TypeError, both for the answer to the request and for the answer to the
    retry. *)
Theorem null_error_body_is_a_type_error (r : http_response) :
  ok r = false ->
  json_body r = Return VNull ->
  (exists m, first_result r = Throw (TypeError m))
  /\ (exists m, retry_result r = Throw (TypeError m))
  /\ (forall (w : World) (meth path : string) (b : value),
         answer w (build_request meth path b (token (state w))) = Response r ->
         status r <> 401 ->
         exists m, result_of (api.request meth path b w) = Throw (TypeError m)).
Proof.
  intros Hok Hj.
  assert (H1 : exists m, first_result r = Throw (TypeError m)).
  { unfold first_result. rewrite Hok, Hj. simpl. eexists. reflexivity. }
  split; [exact H1|]. split.
  - unfold retry_result. rewrite Hok, Hj. simpl. eexists. reflexivity.
  - intros w meth path b Ha Hs.
    pose proof (api_request_eq meth path b w) as E. cbv zeta in E.
    rewrite Ha in E.
    destruct (status r =? 401) eqn:H; [apply Z.eqb_eq in H; contradiction|].
    rewrite E. exact H1.
Qed.

(** Witness: a 500 answered with the body [null]. *)
Lemma null_error_body_is_a_type_error_witness :
  let r := {| status := 500; json_body := Return VNull |} in
  let w := session DiscoverPage (constant_server (Response r)) in
  exists m, result_of (api.request "GET" "/books/7" VNull w) = Throw (TypeError m).
Proof.
  intros r w.
  destruct (null_error_body_is_a_type_error r eq_refl eq_refl) as (_ & _ & H).
  apply (H w "GET" "/books/7" VNull eq_refl). discriminate.
Defined.

(** X5. The refresh token rotates: after a refresh that succeeded, the
    stored token is the text of the [refresh_token] of the answer, and the
    next refresh presents it; when that text is empty the next refresh
    sends nothing and fails. *)
Theorem refresh_rotates_the_token (w w1 : World) :
  api.refreshToken w = (Return true, w1) ->
  exists data stored,
    refresh_payload w = Some data
    /\ stored = to_string (or_undefined (prop data "refresh_token"))
    /\ mg_refresh w1 = Some stored
    /\ (stored <> "" ->
        sent (world_of (api.refreshToken w1))
        = (sent w1 ++ [refresh_request stored])%list)
    /\ (stored = "" -> api.refreshToken w1 = (Return false, w1)).
Proof.
  intros H. rewrite refreshToken_eq in H.
  destruct (refresh_payload w) as [data|] eqn:Hp; [|discriminate].
  injection H as <-.
  exists data, (to_string (or_undefined (prop data "refresh_token"))).
  split; [reflexivity|]. split; [reflexivity|]. split; [reflexivity|].
  set (w1 := refreshed_world w data).
  set (stored := to_string (or_undefined (prop data "refresh_token"))).
  assert (Hs : mg_refresh w1 = Some stored) by reflexivity.
  assert (Ht : forall x, sent (world_of (api.refreshToken x))
                         = (sent x ++ refresh_trace x)%list).
  { intros x. rewrite refreshToken_eq.
    destruct (refresh_payload x); unfold world_of; cbn [snd].
    - apply refreshed_world_sent.
    - apply after_trace_sent. }
  split.
  - intros Hne. rewrite Ht. unfold refresh_trace. rewrite Hs.
    destruct (String.eqb stored "") eqn:E; [apply String.eqb_eq in E; contradiction|].
    reflexivity.
  - intros He. rewrite refreshToken_eq. unfold refresh_payload, refresh_trace.
    rewrite Hs, He. reflexivity.
Qed.

(** Witness: the session of the examples restores twice. *)
Lemma refresh_rotates_the_token_witness :
  let w := session DiscoverPage (refreshing_server unauthorized) in
  exists w1,
    api.refreshToken w = (Return true, w1)
    /\ mg_refresh w1 = Some "r2"
    /\ sent (world_of (api.refreshToken w1))
       = [refresh_request "r1"; refresh_request "r2"].
Proof.
  intros w. eexists. split; [reflexivity|].
  match goal with |- mg_refresh ?w1 = _ /\ _ =>
    destruct (refresh_rotates_the_token w w1 eq_refl)
      as (data & stored & _ & _ & Hs & Hnext & _)
  end.
  split; [reflexivity|].
  vm_compute in Hs. injection Hs as <-.
  rewrite Hnext by discriminate. reflexivity.
Defined.

(* ================================================================== *)
(** ** More of the identity decoding                                    *)
(* ================================================================== *)

Lemma split_dot_no_dot (s : string) :
  occurrences "." s = O -> forall cur, split_dot s cur = [cur ++ s].
Proof.
  induction s as [|c rest IH]; intros H cur; cbn [split_dot].
  - f_equal. clear. induction cur as [|x cur IH]; [reflexivity|].
    simpl. now rewrite <- IH.
  - cbn [occurrences] in H.
    destruct (Ascii.eqb c ".") eqn:E; [discriminate|].
    rewrite IH by exact H. f_equal.
    clear. induction cur as [|x cur IH]; [reflexivity|]. simpl. now rewrite IH.
Qed.

(** X6. A token that is not a string, or a string without a dot, has no
    middle segment: [decodeAndSetUser] swallows the exception and leaves
    the world as it was. *)
Theorem token_without_segments_is_ignored
  (parse : string -> outcome value) (tok : value) (w : World) :
  (forall s, tok = VStr s -> occurrences "." s = O) ->
  decodeAndSetUser parse tok w = (Return tt, w).
Proof.
  intros H. apply decode_failure_leaves_identity.
  intros seg text payload Hs Ha.
  destruct tok; try discriminate Hs.
  cbn [middle_segment] in Hs.
  rewrite (split_dot_no_dot s (H s eq_refl)) in Hs.
  injection Hs as <-. vm_compute in Ha. discriminate Ha.
Qed.

(** Witness: the login answer had no access_token ([undefined]); and an
    opaque token. *)
Lemma token_without_segments_is_ignored_witness :
  let w := session DiscoverPage (constant_server (Response book7)) in
  decodeAndSetUser example_parse VUndefined w = (Return tt, w)
  /\ decodeAndSetUser example_parse (VStr "3f9a0c57e1") w = (Return tt, w).
Proof.
  intros w. split.
  - apply token_without_segments_is_ignored. discriminate.
  - apply token_without_segments_is_ignored. intros s [= <-]. reflexivity.
Defined.

Lemma sextets_none (c : ascii) (l : list ascii) :
  In c l -> sextet c = None -> sextets l = None.
Proof.
  induction l as [|x l IH]; intros Hin Hc; [destruct Hin|].
  cbn [sextets]. destruct Hin as [-> | Hin].
  - now rewrite Hc.
  - rewrite (IH Hin Hc). destruct (sextet x); reflexivity.
Qed.

Lemma strip_padding_keeps (c : ascii) (l : list ascii) :
  In c l -> c <> "="%char -> In c (strip_padding l).
Proof.
  intros Hin Hne. unfold strip_padding.
  destruct (Nat.eqb _ 0); [|exact Hin].
  apply in_rev in Hin.
  destruct (rev l) as [|a r] eqn:E; [rewrite <- (rev_involutive l), E; exact Hin|].
  assert (Hback : In c (rev l) -> In c l) by (intros; now apply in_rev).
  rewrite E in Hback.
  destruct (Ascii.eqb_spec a "="%char) as [-> | Ha].
  - destruct Hin as [Hc | Hin]; [now subst|].
    destruct r as [|a2 r2]; [destruct Hin|].
    destruct (Ascii.eqb_spec a2 "="%char) as [-> | Ha2].
    + destruct Hin as [Hc | Hin]; [now subst|]. apply -> in_rev. exact Hin.
    + assert (Hr : In c (rev (a2 :: r2))) by (apply -> in_rev; exact Hin).
      destruct a2 as [[] [] [] [] [] [] [] []]; try exact Hr; contradiction.
  - assert (Hl : In c l) by (apply Hback; exact Hin).
    destruct a as [[] [] [] [] [] [] [] []]; try exact Hl; contradiction.
Qed.

(** [atob] rejects every string that holds a character outside the
    alphabet of base64, white space and padding apart. *)
Lemma atob_rejects (s : string) (c : ascii) :
  In c (list_ascii_of_string s) ->
  sextet c = None -> is_base64_space c = false -> c <> "="%char ->
  atob s = Throw invalid_character.
Proof.
  intros Hin Hc Hsp Hne. unfold atob.
  set (l := filter _ _).
  assert (Hl : In c l).
  { apply filter_In. split; [exact Hin|]. now rewrite Hsp. }
  pose proof (strip_padding_keeps c l Hl Hne) as Hp.
  destruct (Nat.eqb _ 1); [reflexivity|].
  now rewrite (sextets_none c _ Hp Hc).
Qed.

(** X7. A middle segment that holds [-] or [_], the two characters by
    which the URL-safe alphabet differs from that of base64, is rejected by
    [atob]: the identity is not set and the world stays as it was. *)
Theorem url_safe_characters_are_rejected
  (parse : string -> outcome value) (tok : value) (seg : string) (w : World) :
  middle_segment tok = Return (VStr seg) ->
  In "-"%char (list_ascii_of_string seg) \/ In "_"%char (list_ascii_of_string seg) ->
  atob seg = Throw invalid_character
  /\ decodeAndSetUser parse tok w = (Return tt, w).
Proof.
  intros Hs Hin.
  assert (Ha : atob seg = Throw invalid_character).
  { destruct Hin as [Hin | Hin];
      apply (atob_rejects seg _ Hin); try reflexivity; discriminate. }
  split; [exact Ha|].
  apply decode_failure_leaves_identity.
  intros seg' text payload Hs'. rewrite Hs in Hs'. injection Hs' as <-.
  cbn [to_string]. rewrite Ha. discriminate.
Qed.

(** Witness: the claims of a user called "x?", whose segment holds [_]. *)
Lemma url_safe_characters_are_rejected_witness :
  let seg := "eyJzdWIiOiI3Iiwicm9sZSI6InVzZXIiLCJ1c2VybmFtZSI6Ing_In0" in
  let w := session DiscoverPage (constant_server (Response book7)) in
  base64url_decode seg = Return (claims_text "7" "user" "x?")
  /\ decodeAndSetUser example_parse (jwt seg) w = (Return tt, w).
Proof.
  intros seg w. split; [vm_compute; reflexivity|].
  apply (url_safe_characters_are_rejected example_parse (jwt seg) seg w eq_refl).
  right. vm_compute. tauto.
Defined.

(** X8. When the middle segment decodes and parses to an object whose
    [sub] is the number [n], or its decimal text, with [n] an integer
    within 2^53 either way (beyond, parseInt rounds), the identity has
    user id [n]; a missing role is "user" and a missing username is
    "User n".  The name goes to the navigation bar; tokens are not
    touched. *)
Theorem identity_of_numeric_subject
  (parse : string -> outcome value) (tok seg : value) (text : string)
  (members : list (string * value)) (n : Z) (w : World) :
  middle_segment tok = Return seg ->
  atob (to_string seg) = Return text ->
  parse text = Return (VObj members) ->
  to_string (lookup "sub" members) = num_to_string n ->
  exact_integer n ->
  let w' := world_of (decodeAndSetUser parse tok w) in
  let name := or_else (lookup "username" members)
                (VStr ("User " ++ num_to_string n)) in
  user (state w')
  = Some {| user_id := Some n;
            role := or_else (lookup "role" members) (VStr "user");
            username := name |}
  /\ nav_username w' = as_text name
  /\ token (state w') = token (state w)
  /\ mg_refresh w' = mg_refresh w
  /\ sent w' = sent w.
Proof.
  intros Hs Ha Hp Hsub _ w' name. subst w' name.
  rewrite (decode_sets_identity parse tok seg text members w Hs Ha Hp).
  cbv zeta. rewrite Hsub, parseInt_num_to_string.
  repeat split.
Qed.

(** Witness: the token of the user "reader" with subject "7". *)
Lemma identity_of_numeric_subject_witness :
  let w := session DiscoverPage (constant_server (Response book7)) in
  user (state (world_of (decodeAndSetUser example_parse (jwt reader_segment) w)))
  = Some {| user_id := Some 7; role := VStr "user"; username := VStr "reader" |}.
Proof.
  intros w.
  exact (proj1 (identity_of_numeric_subject example_parse (jwt reader_segment)
                  (VStr reader_segment) (claims_text "7" "user" "reader")
                  [("sub", VStr "7"); ("role", VStr "user");
                   ("username", VStr "reader")] 7 w
                  eq_refl eq_refl eq_refl eq_refl
                  ltac:(unfold exact_integer; lia))).
Defined.

(* ================================================================== *)
(** ** Entering Discover; sign in and start                             *)
(* ================================================================== *)

Lemma try_catch_returns {A} (c : M A) (h : exn -> M A) (w : World) :
  (forall e w0, exists a, result_of (h e w0) = Return a) ->
  exists a, result_of (try_catch c h w) = Return a.
Proof.
  intros Hh. unfold try_catch. destruct (c w) as [[a|e] w1].
  - now exists a.
  - apply Hh.
Qed.

Lemma loadBooks_returns (v : Discover.View) (w : World) :
  exists v', result_of (Discover.loadBooks v w) = Return v'.
Proof.
  unfold Discover.loadBooks. unfold bind at 1, gets at 1.
  destruct (negb _); [now exists v|].
  apply try_catch_returns. intros e w0. eexists. reflexivity.
Qed.

Lemma renderGenreChips_world (v : Discover.View) (w : World) :
  exists v', Discover.renderGenreChips v w = (Return v', w).
Proof.
  unfold Discover.renderGenreChips, bind, gets, ret.
  destruct (negb _); eexists; reflexivity.
Qed.

(** [renderDiscover] always ends on a view; the world it leaves is the
    one of the list fetch, [state.books] and [state.totalBooks] apart. *)
Lemma renderDiscover_eq (w : World) :
  exists v,
    result_of (Discover.renderDiscover w) = Return v
    /\ world_of (Discover.renderDiscover w)
       = world_of (Discover.loadBooks (Discover.mount (state w)) (set_app DiscoverPage w)).
Proof.
  unfold Discover.renderDiscover.
  change ((modify (set_app DiscoverPage) ;;;
           (s <- gets state ;;
            v <- Discover.loadBooks (Discover.mount s) ;;
            Discover.renderGenreChips v)) w)
    with ((v <- Discover.loadBooks (Discover.mount (state w)) ;;
           Discover.renderGenreChips v) (set_app DiscoverPage w)).
  destruct (loadBooks_returns (Discover.mount (state w)) (set_app DiscoverPage w))
    as (v1 & H1).
  unfold bind. unfold result_of in H1.
  destruct (Discover.loadBooks _ _) as [[v2|e] w1]; cbn [fst] in H1;
    [|discriminate].
  destruct (renderGenreChips_world v2 w1) as (v3 & ->).
  exists v3. split; reflexivity.
Qed.

Lemma renderDiscover_after {X} (f : World -> X) (w : World) :
  (forall b t w, f (set_state (set_books b t) w) = f w) ->
  f (world_of (Discover.renderDiscover w))
  = f (world_of (api.get (Discover.books_url (state w)) (set_app DiscoverPage w))).
Proof.
  intros Hf. destruct (renderDiscover_eq w) as (v & _ & ->).
  now rewrite (loadBooks_after f) by (auto; reflexivity).
Qed.

Lemma navigate_discover (id : Z) (w : World) :
  navigate "discover" id w
  = (v <- Discover.renderDiscover ;; ret (OnDiscover v))
      (set_state (set_currentPage (Some "discover")) w).
Proof. reflexivity. Qed.

Section DecodeFrames.

Variable parse : string -> outcome value.

Lemma decode_world (tok : value) (w : World) :
  world_of (decodeAndSetUser parse tok w) = w
  \/ exists u n,
       world_of (decodeAndSetUser parse tok w)
       = set_nav_username n (set_state (set_user (Some u)) w).
Proof.
  unfold decodeAndSetUser, try_catch, bind, lift, ret, modify.
  destruct (middle_segment tok) as [seg|e]; [|now left].
  destruct (atob (to_string seg)) as [text|e]; [|now left].
  destruct (parse text) as [payload|e]; [|now left].
  destruct (prop payload "sub") as [sub|e] eqn:E1; [|now left].
  assert (forall k, exists x, prop payload k = Return x) as Hk.
  { intros k. destruct payload; try discriminate E1; eexists; reflexivity. }
  destruct (Hk "role") as (r & ->). destruct (Hk "username") as (n & ->).
  right. eexists _, _. reflexivity.
Qed.

Lemma decode_keeps {X} (f : World -> X) (tok : value) :
  (forall u n w, f (set_nav_username n (set_state (set_user u) w)) = f w) ->
  keeps f (decodeAndSetUser parse tok).
Proof.
  intros Hf w. destruct (decode_world tok w) as [-> | (u & n & ->)];
    [reflexivity|apply Hf].
Qed.

Lemma decode_result (tok : value) (w : World) :
  result_of (decodeAndSetUser parse tok w) = Return tt.
Proof. destruct (decodeAndSetUser_returns parse tok w) as (w' & ->). reflexivity. Qed.

End DecodeFrames.

Lemma prop_readable (data : value) (k : string) :
  readable data -> prop data k = Return (or_undefined (prop data k)).
Proof. intros [H1 H2]. destruct data; try reflexivity; contradiction. Qed.

(** Decoding the identity, showing the navigation bar and navigating to
    Discover: the tail that sign-in, registration and start share. *)
Lemma enter_discover {B} (parse : string -> outcome value) (access : value)
      (k : screen -> M B) (w : World) :
  token (state w) = access ->
  exists v wd,
    (decodeAndSetUser parse access ;;; showApp ;;;
     (s <- navigate "discover" 0 ;; k s)) w = k (OnDiscover v) wd
    /\ (exists extra, sent wd = (sent w ++ opening_request access w :: extra)%list)
    /\ toasts wd = toasts w
    /\ currentPage (state wd) = Some "discover"
    /\ (forall r, answer w (opening_request access w) = Response r ->
                  status r <> 401 ->
                  token (state wd) = access
                  /\ mg_refresh wd = mg_refresh w
                  /\ navbar_hidden wd = false
                  /\ app wd = DiscoverPage).
Proof.
  intros Htok.
  unfold bind at 1. 
  pose proof (decode_result parse access w) as Hres.
  destruct (decodeAndSetUser parse access w) as [o w3] eqn:Ed.
  unfold result_of in Hres. cbn [fst] in Hres. subst o.
  assert (Hw3 : w3 = w \/ exists u n,
               w3 = set_nav_username n (set_state (set_user (Some u)) w)).
  { pose proof (decode_world parse access w) as H. rewrite Ed in H. exact H. }
  unfold bind at 1, showApp at 1, modify at 1.
  unfold bind at 1. rewrite navigate_discover.
  set (w4 := set_state (set_currentPage (Some "discover"))
               (set_navbar_hidden false w3)).
  destruct (renderDiscover_eq w4) as (v & Hv & _).
  pose proof (renderDiscover_after sent w4 (fun _ _ _ => eq_refl)) as Hsent.
  pose proof (renderDiscover_after toasts w4 (fun _ _ _ => eq_refl)) as Htoasts.
  pose proof (renderDiscover_after (fun w => currentPage (state w)) w4
                (fun _ _ _ => eq_refl)) as Hcur.
  pose proof (renderDiscover_after (fun w => token (state w)) w4
                (fun _ _ _ => eq_refl)) as Htoken.
  pose proof (renderDiscover_after mg_refresh w4 (fun _ _ _ => eq_refl)) as Hst.
  pose proof (renderDiscover_after navbar_hidden w4 (fun _ _ _ => eq_refl)) as Hnav.
  pose proof (renderDiscover_after app w4 (fun _ _ _ => eq_refl)) as Happ.
  unfold bind, ret.
  destruct (Discover.renderDiscover w4) as [[v'|e] wd];
    unfold result_of in Hv; cbn [fst] in Hv; [|discriminate].
  injection Hv as ->.
  change (world_of (Return v, wd)) with wd in *.
  exists v, wd. split; [reflexivity|].
  set (w0 := set_app DiscoverPage w4) in *.
  assert (Hreq : build_request "GET" (Discover.books_url (state w4)) VNull
                   (token (state w0)) = opening_request access w).
  { unfold opening_request. rewrite <- Htok.
    destruct Hw3 as [-> | (u & n & ->)]; reflexivity. }
  assert (Hsent0 : sent w0 = sent w)
    by (destruct Hw3 as [-> | (u & n & ->)]; reflexivity).
  assert (Hsrv0 : server w0 = server w)
    by (destruct Hw3 as [-> | (u & n & ->)]; reflexivity).
  split.
  { rewrite Hsent.
    destruct (api_request_sent "GET" (Discover.books_url (state w4)) VNull w0)
      as (extra & Hs & _).
    exists extra. unfold api.get. rewrite Hs, Hreq, Hsent0. reflexivity. }
  split.
  { rewrite Htoasts. unfold api.get. rewrite api_request_toasts.
    destruct Hw3 as [-> | (u & n & ->)]; reflexivity. }
  split.
  { rewrite Hcur. unfold api.get.
    rewrite (api_request_state currentPage) by reflexivity.
    destruct Hw3 as [-> | (u & n & ->)]; reflexivity. }
  intros r Ha Hs.
  assert (Ha0 : answer w0 (build_request "GET" (Discover.books_url (state w4)) VNull
                             (token (state w0))) = Response r).
  { rewrite Hreq. unfold answer in *. now rewrite Hsrv0, Hsent0. }
  pose proof (api_request_other_world w0 "GET" (Discover.books_url (state w4)) VNull
                r Ha0 Hs) as Hw.
  unfold api.get in *.
  rewrite Htoken, Hst, Hnav, Happ, Hw. rewrite <- Htok.
  destruct Hw3 as [-> | (u & n & ->)]; repeat split.
Qed.

(** X9. A sign-in the server accepts with a payload: the tokens of the
    payload are stored, the navigation bar is shown, Discover is opened and
    the welcome toast is added.  The request after the login call is the
    list fetch, under the new access token; unless it is answered 401 the
    session holds the tokens of the payload when sign-in is done. *)
Theorem sign_in_opens_discover
  (parse : string -> outcome value) (email password : string)
  (w w1 : World) (data : value) :
  api.post "/auth/login" (Auth.credentials email password) w = (Return data, w1) ->
  readable data ->
  let access := or_undefined (prop data "access_token") in
  let fresh := to_string (or_undefined (prop data "refresh_token")) in
  let req := opening_request access w1 in
  exists v w',
    Auth.login parse email password w = (Return (OnDiscover v), w')
    /\ (exists extra, sent w' = (sent w1 ++ req :: extra)%list)
    /\ authorization req = (if truthy access then Some (bearer access) else None)
    /\ toasts w' = (toasts w ++ [welcome_back])%list
    /\ currentPage (state w') = Some "discover"
    /\ (forall r, answer w1 req = Response r -> status r <> 401 ->
                  token (state w') = access
                  /\ mg_refresh w' = Some fresh
                  /\ navbar_hidden w' = false
                  /\ app w' = DiscoverPage).
Proof.
  intros Hpost Hread access fresh req.
  unfold Auth.login. unfold bind at 1. rewrite Hpost.
  unfold bind at 1, Auth.store_tokens.
  unfold bind at 1, lift at 1. rewrite (prop_readable data "access_token" Hread).
  fold access. unfold bind at 1, modify at 1.
  unfold bind at 1, lift at 1. rewrite (prop_readable data "refresh_token" Hread).
  unfold bind at 1, modify at 1. unfold ret at 1.
  change (set_storage _ (set_state (set_token access) w1))
    with (tokens_stored data w1).
  destruct (enter_discover parse access
              (fun s => toast "Welcome back! 📚" "success" ;;; ret s)
              (tokens_stored data w1) eq_refl)
    as (v & wd & Hrun & Hsent & Htoasts & Hcur & Hok).
  exists v, (add_toast welcome_back wd).
  split; [rewrite Hrun; reflexivity|].
  split; [exact Hsent|]. split; [reflexivity|].
  split.
  { simpl. rewrite Htoasts. f_equal.
    change (toasts (tokens_stored data w1)) with (toasts w1).
    change w1 with (world_of (Return data, w1)). rewrite <- Hpost.
    apply api_request_toasts. }
  split; [exact Hcur|].
  intros r Ha Hs. exact (Hok r Ha Hs).
Qed.

(** Witness: the reader signs in. *)
Lemma sign_in_opens_discover_witness :
  let w := signed_out login_server in
  exists v w',
    Auth.login example_parse "reader@example.com" "secret" w
    = (Return (OnDiscover v), w')
    /\ map url (sent w') = ["/api/auth/login"; "/api/books?page=1&page_size=20"]
    /\ map authorization (sent w')
       = [None; Some ("Bearer " ++ to_string (jwt reader_segment))]
    /\ token (state w') = jwt reader_segment
    /\ mg_refresh w' = Some "r2"
    /\ user (state w')
       = Some {| user_id := Some 7; role := VStr "user"; username := VStr "reader" |}
    /\ app w' = DiscoverPage.
Proof.
  intros w.
  destruct (sign_in_opens_discover example_parse "reader@example.com" "secret" w
              (log_request (login_request "reader@example.com" "secret" VNull) w)
              (VObj [("access_token", jwt reader_segment); ("refresh_token", VStr "r2")])
              eq_refl)
    as (v & w' & Hrun & _ & _ & _ & _ & Hok).
  { split; discriminate. }
  exists v, w'. split; [exact Hrun|].
  destruct (Hok empty_list eq_refl ltac:(discriminate)) as (Ht & Hs & _ & Happ).
  vm_compute in Hrun. injection Hrun as _ <-.
  repeat split.
Defined.

Lemma on_submit_failure
  (parse : string -> outcome value) (email username password : string)
  (f : Auth.Form) (w w1 : World) (e : exn) :
  Auth.isLogin f = true ->
  api.post "/auth/login" (Auth.credentials email password) (touch_auth w)
  = (Throw e, w1) ->
  exists f',
    Auth.on_submit parse email username password f w
    = (Return {| Auth.written := f';
                 Auth.on_page :=
                   if Auth.is_auth (app w1)
                   then Some (if auth_fresh w1 then Auth.initial_form else f')
                   else None;
                 Auth.opened := None |}, w1)
    /\ shows_error (message e) f'.
Proof.
  intros Hl Hp. unfold Auth.on_submit.
  change ((modify touch_auth ;;; ?c) w) with (c (touch_auth w)).
  unfold bind at 1, try_catch. rewrite Hl.
  unfold bind at 1. unfold Auth.login. unfold bind at 1. rewrite Hp.
  eexists. split; [reflexivity|]. repeat split.
Qed.

(** X10. A sign-in the server rejects with a status other than 401 and a
    [detail]: the form on the page is the one the listener wrote, it shows
    the detail and the button is enabled again under the label "Sign In";
    nothing but the login call is sent, and the session is as it was. *)
Theorem rejected_sign_in_shows_the_detail
  (parse : string -> outcome value) (email username password detail : string)
  (f : Auth.Form) (w : World) (r : http_response) (payload : value) :
  Auth.isLogin f = true ->
  answer w (login_request email password (token (state w))) = Response r ->
  ok r = false -> status r <> 401 ->
  json_body r = Return payload ->
  prop payload "detail" = Return (VStr detail) -> detail <> "" ->
  exists f',
    Auth.on_submit parse email username password f w
    = (Return {| Auth.written := f';
                 Auth.on_page := if Auth.is_auth (app w) then Some f' else None;
                 Auth.opened := None |},
       log_request (login_request email password (token (state w))) (touch_auth w))
    /\ shows_error detail f'.
Proof.
  intros Hl Ha Hok Hs Hj Hd Hne.
  apply (on_submit_failure parse email username password f w
           (log_request (login_request email password (token (state w))) (touch_auth w))
           (Error detail) Hl).
  unfold api.post. pose proof (api_request_eq "POST" "/auth/login"
                                 (Auth.credentials email password) (touch_auth w)) as E.
  cbv zeta in E. unfold login_request in Ha.
  change (answer (touch_auth w)) with (answer w) in E.
  change (token (state (touch_auth w))) with (token (state w)) in E.
  rewrite Ha in E.
  destruct (status r =? 401) eqn:H; [apply Z.eqb_eq in H; contradiction|].
  rewrite E, (first_result_not_ok r Hok), Hj, Hd. unfold or_else.
  cbn [truthy]. destruct (String.eqb detail "") eqn:Ee.
  - apply String.eqb_eq in Ee. contradiction.
  - reflexivity.
Qed.

(** Witness: the server answers 422 to the sign-in. *)
Lemma rejected_sign_in_shows_the_detail_witness :
  let r := {| status := 422; json_body := Return (detail_body "Invalid email") |} in
  let w := signed_out (constant_server (Response r)) in
  exists f',
    Auth.on_submit example_parse "reader" "" "secret" Auth.initial_form w
    = (Return {| Auth.written := f'; Auth.on_page := Some f'; Auth.opened := None |},
       log_request (login_request "reader" "secret" VNull) (touch_auth w))
    /\ Auth.error_text f' = "Invalid email".
Proof.
  intros r w.
  destruct (rejected_sign_in_shows_the_detail example_parse "reader" "" "secret"
              "Invalid email" Auth.initial_form w r (detail_body "Invalid email")
              eq_refl eq_refl eq_refl ltac:(discriminate) eq_refl eq_refl
              ltac:(discriminate))
    as (f' & Hrun & Herr & _).
  exists f'. split; assumption.
Defined.

(** X11. A sign-in the server answers with 401 while no refresh token is
    stored: the 401 protocol of [api.request] applies to the login call
    too.  No refresh call is sent and [logout()] runs, which renders a new
    sign-in form.  The listener then writes "Session expired" to the
    elements it holds, which are those of the old form: the form on the
    page is the new one, in sign-in mode, with its button enabled and no
    error shown. *)
Theorem unauthorized_sign_in_loses_its_error
  (parse : string -> outcome value) (email username password : string)
  (f : Auth.Form) (w : World) (r : http_response) :
  Auth.isLogin f = true ->
  mg_refresh w = None ->
  answer w (login_request email password (token (state w))) = Response r ->
  status r = 401 ->
  exists f',
    Auth.on_submit parse email username password f w
    = (Return {| Auth.written := f';
                 Auth.on_page := Some Auth.initial_form;
                 Auth.opened := None |},
       logged_out (log_request (login_request email password (token (state w))) w))
    /\ shows_error "Session expired" f'
    /\ Auth.error_visible Auth.initial_form = false
    /\ Auth.error_text Auth.initial_form = ""
    /\ Auth.submit_disabled Auth.initial_form = false.
Proof.
  intros Hl Hst Ha Hs.
  destruct (on_submit_failure parse email username password f w
              (logged_out (log_request (login_request email password (token (state w))) w))
              (Error "Session expired") Hl)
    as (f' & Hrun & Herr).
  { unfold api.post. pose proof (api_request_eq "POST" "/auth/login"
                                   (Auth.credentials email password) (touch_auth w)) as E.
    cbv zeta in E. unfold login_request in Ha.
    change (answer (touch_auth w)) with (answer w) in E.
    change (token (state (touch_auth w))) with (token (state w)) in E.
    rewrite Ha, Hs in E.
    simpl (401 =? 401) in E. cbv iota in E.
    unfold refresh_payload, refresh_trace in E.
    cbn [mg_refresh log_request touch_auth] in E.
    rewrite Hst in E. exact E. }
  exists f'. split; [exact Hrun|]. split; [exact Herr|]. repeat split.
Qed.

(** Witness: wrong password, answered 401 with a detail. *)
Lemma unauthorized_sign_in_loses_its_error_witness :
  let r := {| status := 401;
              json_body := Return (detail_body "Invalid email or password") |} in
  let w := signed_out (constant_server (Response r)) in
  exists s,
    result_of (Auth.on_submit example_parse "reader" "" "wrong" Auth.initial_form w)
    = Return s
    /\ Auth.error_text (Auth.written s) = "Session expired"
    /\ Auth.on_page s = Some Auth.initial_form
    /\ map url (sent (world_of (Auth.on_submit example_parse "reader" "" "wrong"
                                  Auth.initial_form w)))
       = ["/api/auth/login"].
Proof.
  intros r w.
  destruct (unauthorized_sign_in_loses_its_error example_parse "reader" ""
              "wrong" Auth.initial_form w r eq_refl eq_refl eq_refl eq_refl)
    as (f' & Hrun & Herr & _).
  eexists. rewrite Hrun. split; [reflexivity|]. split; [exact (proj1 Herr)|].
  split; reflexivity.
Defined.

(** X12. Start: with no stored refresh token, or when the refresh fails,
    the sign-in form is shown, and a refresh that failed leaves the stored
    token and the access token as they were; when the refresh succeeds the
    identity is decoded, the navigation bar shown and Discover opened with
    the list fetch under the new access token. *)
Theorem start_restores_or_signs_in (parse : string -> outcome value) (w : World) :
  (forall w1, api.refreshToken w = (Return false, w1) ->
              Auth.init parse w = (Return (Auth.SignIn Auth.initial_form),
                                   render_auth w1)
              /\ mg_refresh w1 = mg_refresh w
              /\ token (state w1) = token (state w)
              /\ (mg_refresh w = None -> sent w1 = sent w))
  /\ (forall w1, api.refreshToken w = (Return true, w1) ->
                 exists v wd,
                   Auth.init parse w = (Return (Auth.Restored (OnDiscover v)), wd)
                   /\ (exists extra,
                          sent wd = (sent w1 ++ opening_request (token (state w1)) w1
                                       :: extra)%list)
                   /\ (forall r,
                          answer w1 (opening_request (token (state w1)) w1) = Response r ->
                          status r <> 401 ->
                          token (state wd) = token (state w1)
                          /\ mg_refresh wd = mg_refresh w1
                          /\ navbar_hidden wd = false
                          /\ app wd = DiscoverPage)).
Proof.
  split.
  - intros w1 Hr.
    assert (Hinit : Auth.init parse w = (Return (Auth.SignIn Auth.initial_form),
                                         render_auth w1)).
    { unfold Auth.init. unfold bind at 1, gets at 1.
      pose proof Hr as Hr'. rewrite refreshToken_eq in Hr'.
      unfold refresh_payload, refresh_trace in Hr'.
      destruct (mg_refresh w) as [s|].
      - destruct (String.eqb s "").
        + injection Hr' as <-. reflexivity.
        + unfold bind at 1. rewrite Hr. reflexivity.
      - injection Hr' as <-. reflexivity. }
    split; [exact Hinit|].
    rewrite refreshToken_eq in Hr.
    destruct (refresh_payload w); [discriminate|]. injection Hr as <-.
    rewrite after_trace_storage, after_trace_state, after_trace_sent.
    split; [reflexivity|]. split; [reflexivity|].
    intros Hn. unfold refresh_trace. rewrite Hn. apply app_nil_r.
  - intros w1 Hr.
    assert (Hinit : Auth.init parse w
                    = (decodeAndSetUser parse (token (state w1)) ;;; showApp ;;;
                       (s <- navigate "discover" 0 ;; ret (Auth.Restored s))) w1).
    { unfold Auth.init. unfold bind at 1, gets at 1.
      pose proof Hr as Hr'. rewrite refreshToken_eq in Hr'.
      unfold refresh_payload in Hr'.
      destruct (mg_refresh w) as [s|]; [|discriminate].
      destruct (String.eqb s ""); [discriminate|].
      unfold bind at 1. rewrite Hr. reflexivity. }
    destruct (enter_discover parse (token (state w1))
                (fun s => ret (Auth.Restored s)) w1 eq_refl)
      as (v & wd & Hrun & Hsent & _ & _ & Hok).
    exists v, wd. rewrite Hinit, Hrun.
    split; [reflexivity|]. split; [exact Hsent|exact Hok].
Qed.

Lemma start_restores_or_signs_in_witness :
  let w := session AuthPage (refreshing_server empty_list) in
  exists v wd,
    Auth.init example_parse w = (Return (Auth.Restored (OnDiscover v)), wd)
    /\ token (state wd) = VStr "new"
    /\ navbar_hidden wd = false
    /\ app wd = DiscoverPage.
Proof.
  intros w.
  pose (w1 := world_of (api.refreshToken w)).
  assert (Hr : api.refreshToken w = (Return true, w1)) by (vm_compute; reflexivity).
  destruct (proj2 (start_restores_or_signs_in example_parse w) w1 Hr)
    as (v & wd & Hinit & _ & Hrest).
  destruct (Hrest empty_list eq_refl ltac:(discriminate)) as (Ht & _ & Hn & Ha).
  exists v, wd. split; [exact Hinit|]. split; [rewrite Ht; reflexivity|].
  split; assumption.
Defined.

(* ================================================================== *)
(** ** More of Discover                                                 *)
(* ================================================================== *)

Lemma occurrences_app (c : ascii) (a b : string) :
  occurrences c (a ++ b) = (occurrences c a + occurrences c b)%nat.
Proof. induction a as [|x a IH]; simpl; [reflexivity|]. rewrite IH. lia. Qed.

Lemma all_chars_app (p : ascii -> bool) (a b : string) :
  all_chars p (a ++ b) = all_chars p a && all_chars p b.
Proof.
  induction a as [|x a IH]; simpl; [reflexivity|].
  rewrite IH. now rewrite andb_assoc.
Qed.

Lemma occurrences_none (p : ascii -> bool) (c : ascii) (s : string) :
  all_chars p s = true -> p c = false -> occurrences c s = O.
Proof.
  intros Hs Hc. induction s as [|x s IH]; [reflexivity|].
  simpl in *. apply andb_prop in Hs. destruct Hs as [Hx Hs].
  destruct (Ascii.eqb_spec x c) as [-> | _]; [congruence|].
  now rewrite IH.
Qed.

Lemma numeral_url_safe (d : Decimal.uint) :
  all_chars url_safe (NilEmpty.string_of_uint d) = true.
Proof. induction d; simpl; auto. Qed.

Lemma num_to_string_url_safe (n : Z) : all_chars url_safe (num_to_string n) = true.
Proof.
  unfold num_to_string.
  destruct (Z.to_int n) as [d|d]; cbn [NilZero.string_of_int];
    unfold NilZero.string_of_uint;
    destruct d; try reflexivity;
    try (cbn [all_chars]; rewrite ?andb_true_iff; repeat split;
         try reflexivity);
    try apply (numeral_url_safe (Decimal.D0 d));
    try apply (numeral_url_safe (Decimal.D1 d));
    try apply (numeral_url_safe (Decimal.D2 d));
    try apply (numeral_url_safe (Decimal.D3 d));
    try apply (numeral_url_safe (Decimal.D4 d));
    try apply (numeral_url_safe (Decimal.D5 d));
    try apply (numeral_url_safe (Decimal.D6 d));
    try apply (numeral_url_safe (Decimal.D7 d));
    try apply (numeral_url_safe (Decimal.D8 d));
    try apply (numeral_url_safe (Decimal.D9 d)).
Qed.

Lemma hex_digits_url_safe (c : ascii) :
  url_safe (hex_digit (Nat.div (nat_of_ascii c) 16)) = true
  /\ url_safe (hex_digit (Nat.modulo (nat_of_ascii c) 16)) = true.
Proof. destruct c as [[] [] [] [] [] [] [] []]; split; reflexivity. Qed.

(** What encodeURIComponent returns holds unreserved characters and [%]
    only. *)
Lemma encodeURIComponent_url_safe (s : string) :
  all_chars url_safe (encodeURIComponent s) = true.
Proof.
  induction s as [|c s IH]; [reflexivity|]. cbn [encodeURIComponent].
  destruct (unreserved c) eqn:E.
  - cbn [all_chars]. unfold url_safe at 1. now rewrite E, IH.
  - cbn [all_chars]. destruct (hex_digits_url_safe c) as [H1 H2].
    now rewrite H1, H2, IH.
Qed.

(** X13. The URL of the list fetch has the parameters the code appends
    and no other, whatever the search field and the filter hold: one [?],
    one [&] and one [=] per parameter, no [#] and no space.  [search] and
    [genre] are there exactly when they are not empty. *)
Theorem list_url_has_its_parameters_only (s : AppState) :
  let optional :=
    ((if String.eqb (searchQuery s) "" then 0 else 1)
     + (if String.eqb (genreFilter s) "" then 0 else 1))%nat in
  occurrences "?" (Discover.books_url s) = 1%nat
  /\ occurrences "&" (Discover.books_url s) = (1 + optional)%nat
  /\ occurrences "=" (Discover.books_url s) = (2 + optional)%nat
  /\ occurrences "#" (Discover.books_url s) = O
  /\ occurrences " " (Discover.books_url s) = O.
Proof.
  intros optional. subst optional.
  assert (Hnum : forall c n, url_safe c = false -> occurrences c (num_to_string n) = O).
  { intros c n Hc. exact (occurrences_none url_safe c _ (num_to_string_url_safe n) Hc). }
  assert (Henc : forall c q, url_safe c = false ->
                             occurrences c (encodeURIComponent q) = O).
  { intros c q Hc.
    exact (occurrences_none url_safe c _ (encodeURIComponent_url_safe q) Hc). }
  unfold Discover.books_url.
  repeat split; rewrite !occurrences_app, !Hnum by reflexivity;
    destruct (String.eqb (searchQuery s) "");
    destruct (String.eqb (genreFilter s) "");
    rewrite ?occurrences_app, ?Henc by reflexivity; reflexivity.
Qed.

(** X14. A search timeout that becomes due after the user has left
    Discover still runs: it rewrites [state.searchQuery] and resets
    [state.page], and fetches nothing. *)
Theorem stale_search_timeout_fetches_nothing
  (quiet : Z) (v : Discover.View) (w : World) :
  armed v ->
  Discover.delay <= quiet ->
  app w <> DiscoverPage ->
  let w' := world_of (Discover.wait quiet v w) in
  sent w' = sent w
  /\ searchQuery (state w') = trim (Discover.input_value v)
  /\ page (state w') = 1
  /\ app w' = app w.
Proof.
  intros Ha Hq Hm w'. subst w'.
  destruct (wait_fires quiet v w Ha Hq) as (v_end & Hv & _ & ->).
  rewrite search_fire_eq, loadBooks_unmounted by exact Hm.
  rewrite Hv. repeat split.
Qed.

(** Witness: the user types "dune" and opens the Library before the
    timeout is due. *)
Lemma stale_search_timeout_fetches_nothing_witness :
  let w := session LibraryPage (constant_server (Response empty_list)) in
  let v := Discover.on_input "dune" (Discover.mount (state w)) in
  sent (world_of (Discover.wait 350 v w)) = []
  /\ searchQuery (state (world_of (Discover.wait 350 v w))) = "dune".
Proof.
  intros w v.
  destruct (stale_search_timeout_fetches_nothing 350 v w) as (Hs & Hq & _).
  - eexists. split; reflexivity.
  - unfold Discover.delay. lia.
  - discriminate.
  - split; [exact Hs|exact Hq].
Defined.

(** X15. One book of the answer that cannot be drawn fails the whole
    list: the grid shows the error, although [state.books] and
    [state.totalBooks] already hold the answer, and the pagination bar is
    left as it was. *)
Theorem one_bad_book_fails_the_list
  (v : Discover.View) (w w1 : World) (data total : value) (items : list value)
  (e : exn) :
  app w = DiscoverPage ->
  api.get (Discover.books_url (state w)) w = (Return data, w1) ->
  prop data "books" = Return (VArr items) ->
  prop data "total" = Return total ->
  Discover.for_each_card items = Throw e ->
  exists v',
    Discover.loadBooks v w
    = (Return v', set_state (set_books (VArr items) total) w1)
    /\ Discover.grid v' = Discover.LoadError (message e)
    /\ Discover.pagination v' = Discover.pagination v
    /\ Discover.pagination_listeners v' = Discover.pagination_listeners v.
Proof.
  intros Hm Hget Hb Ht He.
  assert (Hne : items <> []) by (intros ->; discriminate He).
  exists (Discover.set_grid (Discover.LoadError (message e))
            (Discover.set_grid Discover.Skeleton v)).
  split; [|repeat split].
  unfold Discover.loadBooks. unfold bind at 1, gets at 1. rewrite Hm.
  cbn [Discover.is_discover negb]. unfold try_catch.
  unfold bind at 1, gets at 1. unfold bind at 1. rewrite Hget.
  unfold bind at 1, lift at 1. rewrite Hb.
  unfold bind at 1, lift at 1. rewrite Ht.
  unfold bind at 1, modify at 1.
  unfold bind at 1, lift at 1. cbn [prop]. simpl (String.eqb "length" "length").
  cbv iota.
  assert (strict_eq (VNum (Z.of_nat (List.length items))) (VNum 0) = false) as ->.
  { unfold strict_eq, value_eqb. apply Z.eqb_neq.
    destruct items; [contradiction|]. simpl List.length. lia. }
  unfold bind at 1. unfold bind at 1, lift at 1. rewrite He. reflexivity.
Qed.

(** Witness: the list holds one good book and [null]. *)
Lemma one_bad_book_fails_the_list_witness :
  let good := VObj [("id", VNum 7); ("title", VStr "Emma"); ("avg_rating", VNum 4)] in
  let w := session DiscoverPage
             (constant_server (Response (list_response [good; VNull] 45))) in
  exists v' w',
    Discover.loadBooks (Discover.mount (state w)) w = (Return v', w')
    /\ (exists text, Discover.grid v' = Discover.LoadError text)
    /\ Discover.pagination v' = None
    /\ totalBooks (state w') = VNum 45.
Proof.
  intros good w.
  destruct (one_bad_book_fails_the_list (Discover.mount (state w)) w
              (log_request (books_request (state w)) w)
              (book_list [good; VNull] 45) (VNum 45) [good; VNull]
              (TypeError (cannot_read "genre" "null"))
              eq_refl eq_refl eq_refl eq_refl eq_refl)
    as (v' & Hrun & Hgrid & Hpag & _).
  exists v', (set_state (set_books (VArr [good; VNull]) (VNum 45))
                (log_request (books_request (state w)) w)).
  split; [exact Hrun|]. split; [eexists; exact Hgrid|].
  split; [rewrite Hpag; reflexivity|reflexivity].
Defined.

(** *** Under a server that lists the same books on every request *)

Lemma request_answered_ok (w : World) (res : http_response) (meth path : string)
      (b : value) :
  always_answers w res -> ok res = true ->
  api.request meth path b w
  = (if status res =? 204 then Return VNull else json_body res,
     log_request (build_request meth path b (token (state w))) w).
Proof.
  intros Hsrv Hok.
  pose proof (api_request_eq meth path b w) as E. cbv zeta in E.
  unfold answer in E at 1. rewrite Hsrv in E.
  rewrite E, (ok_not_401 res Hok). unfold first_result. now rewrite Hok.
Qed.

Lemma loadBooks_listed (v : Discover.View) (w : World) (bs cards : list value)
      (total : Z) :
  always_answers w (list_response bs total) ->
  Discover.for_each_card bs = Return cards ->
  app w = DiscoverPage ->
  let w' := set_state (set_books (VArr bs) (VNum total))
              (log_request (books_request (state w)) w) in
  Discover.loadBooks v w = (Return (listed bs cards (state w') v), w').
Proof.
  intros Hsrv Hcards Hm w'.
  unfold Discover.loadBooks. unfold bind at 1, gets at 1. rewrite Hm.
  cbn [Discover.is_discover negb]. unfold try_catch.
  unfold bind at 1, gets at 1. unfold bind at 1. unfold api.get.
  rewrite (request_answered_ok w _ "GET" _ VNull Hsrv eq_refl).
  cbn [status list_response json_body]. simpl (200 =? 204). cbv iota.
  unfold bind at 1, lift at 1. cbn [prop book_list lookup].
  simpl (String.eqb "books" "books"). cbv iota.
  unfold bind at 1, lift at 1. cbn [prop book_list lookup].
  simpl (String.eqb "total" "books"). simpl (String.eqb "total" "total"). cbv iota.
  unfold bind at 1, modify at 1.
  unfold bind at 1, lift at 1. cbn [prop]. simpl (String.eqb "length" "length").
  cbv iota.
  fold (books_request (state w)). fold w'.
  assert (Happ : app w' = DiscoverPage) by exact Hm.
  destruct bs as [|b0 bs'].
  - unfold strict_eq, value_eqb. simpl (Z.of_nat (List.length []) =? 0). cbv iota.
    unfold bind at 1, ret at 1.
    unfold Discover.renderPagination, bind, gets, ret. rewrite Happ.
    cbn [Discover.is_discover negb]. unfold listed.
    destruct (Discover.at_most_one _); reflexivity.
  - assert (strict_eq (VNum (Z.of_nat (List.length (b0 :: bs')))) (VNum 0) = false)
      as ->.
    { unfold strict_eq, value_eqb. apply Z.eqb_neq. simpl List.length. lia. }
    unfold bind at 1. unfold bind at 1, lift at 1. rewrite Hcards.
    unfold ret at 1.
    unfold Discover.renderPagination, bind, gets, ret. rewrite Happ.
    cbn [Discover.is_discover negb]. unfold listed.
    destruct (Discover.at_most_one _); reflexivity.
Qed.

Lemma steady_refl (w : World) : steady w w.
Proof. repeat split. Qed.

Lemma steady_trans (a b c : World) : steady a b -> steady b c -> steady a c.
Proof.
  intros (H1 & H2 & H3 & H4 & H5 & H6) (K1 & K2 & K3 & K4 & K5 & K6).
  repeat split; congruence.
Qed.

Lemma page_request_steady (p : Z) (w w' : World) :
  steady w w' -> page_request p w' = page_request p w.
Proof.
  intros (H1 & H2 & H3 & H4 & _).
  unfold page_request, books_request, Discover.books_url.
  cbn [token page pageSize searchQuery genreFilter set_page].
  now rewrite H1, H2, H3, H4.
Qed.

Lemma totalPages_listed (total : Z) (w w' : World) (bs : value) :
  steady w w' -> totalBooks (state w') = VNum total ->
  Discover.totalPages (state w')
  = Discover.ceil_div (Some total) (pageSize (state w)).
Proof.
  intros (_ & H2 & _) Ht. unfold Discover.totalPages. now rewrite Ht, H2.
Qed.

(** One listener of the bar, for an enabled button, under a server that
    lists [bs]: the page is set, the list is fetched once and drawn. *)
Lemma on_page_button_listed
  (btn : Discover.button) (v : Discover.View) (w : World)
  (bs cards : list value) (total : Z) :
  always_answers w (list_response bs total) ->
  Discover.for_each_card bs = Return cards ->
  app w = DiscoverPage ->
  Discover.disabled btn = false ->
  exists w',
    Discover.on_page_button btn v w
    = (Return (listed bs cards (state w') v), w')
    /\ sent w' = (sent w ++ [page_request (Discover.data_page btn) w])%list
    /\ steady w w'
    /\ page (state w') = Discover.data_page btn
    /\ totalBooks (state w') = VNum total.
Proof.
  intros Hsrv Hcards Hm Hd.
  unfold Discover.on_page_button. rewrite Hd.
  change ((modify (set_state (set_page (Discover.data_page btn))) ;;;
           Discover.loadBooks v) w)
    with (Discover.loadBooks v (set_state (set_page (Discover.data_page btn)) w)).
  rewrite (loadBooks_listed v _ bs cards total) by assumption.
  eexists. split; [reflexivity|]. repeat split.
Qed.

Lemma dispatch_listed
  (btn : Discover.button) (bs cards : list value) (total : Z) (n : nat) :
  Discover.for_each_card bs = Return cards ->
  Discover.disabled btn = false ->
  forall (v : Discover.View) (w : World),
    always_answers w (list_response bs total) ->
    app w = DiscoverPage ->
    exists v' w',
      dispatch_page_click n btn v w = (Return v', w')
      /\ sent w' = (sent w ++ repeat (page_request (Discover.data_page btn) w) n)%list
      /\ steady w w'
      /\ Discover.pagination_listeners v'
         = (Discover.pagination_listeners v
            + if Discover.at_most_one
                   (Discover.ceil_div (Some total) (pageSize (state w)))
              then 0 else n)%nat
      /\ (n <> O ->
          page (state w') = Discover.data_page btn
          /\ totalBooks (state w') = VNum total
          /\ Discover.pagination v'
             = if Discover.at_most_one (Discover.totalPages (state w'))
               then None else Some (Discover.render_bar (state w')))
      /\ (n = O -> v' = v /\ w' = w).
Proof.
  intros Hcards Hd. induction n as [|n IH]; intros v w Hsrv Hm.
  - exists v, w. split; [reflexivity|]. split; [now rewrite app_nil_r|].
    split; [apply steady_refl|].
    split; [destruct (Discover.at_most_one _); now rewrite Nat.add_0_r|].
    split; [intros H; contradiction|]. intros _. split; reflexivity.
  - destruct (on_page_button_listed btn v w bs cards total Hsrv Hcards Hm Hd)
      as (w1 & Hrun & Hsent1 & Hst1 & Hp1 & Ht1).
    assert (Hsrv1 : always_answers w1 (list_response bs total)).
    { intros log. destruct Hst1 as (_ & _ & _ & _ & _ & ->). apply Hsrv. }
    assert (Hm1 : app w1 = DiscoverPage).
    { destruct Hst1 as (_ & _ & _ & _ & -> & _). exact Hm. }
    set (v1 := listed bs cards (state w1) v) in *.
    destruct (IH v1 w1 Hsrv1 Hm1) as (v' & w' & Hrest & Hsent & Hst & Hl & Hpos & Hzero).
    exists v', w'. cbn [dispatch_page_click]. unfold bind. rewrite Hrun.
    split; [exact Hrest|].
    split.
    { rewrite Hsent, Hsent1, (page_request_steady _ w w1 Hst1).
      cbn [repeat]. now rewrite <- app_assoc. }
    split; [exact (steady_trans _ _ _ Hst1 Hst)|].
    assert (Hsize : pageSize (state w1) = pageSize (state w))
      by (destruct Hst1 as (_ & H & _); exact H).
    assert (Hl1 : Discover.pagination_listeners v1
                  = (Discover.pagination_listeners v
                     + if Discover.at_most_one
                            (Discover.ceil_div (Some total) (pageSize (state w)))
                       then 0 else 1)%nat).
    { unfold v1, listed.
      rewrite (totalPages_listed total w w1 (VArr bs) Hst1 Ht1).
      destruct (Discover.at_most_one
                  (Discover.ceil_div (Some total) (pageSize (state w))));
        simpl; lia. }
    split.
    { rewrite Hl, Hl1, Hsize.
      destruct (Discover.at_most_one
                  (Discover.ceil_div (Some total) (pageSize (state w)))); lia. }
    split; [|intros H; discriminate H].
    intros _. destruct n as [|n'].
    + destruct (Hzero eq_refl) as [-> ->].
      split; [exact Hp1|]. split; [exact Ht1|].
      unfold v1, listed. destruct (Discover.at_most_one _); reflexivity.
    + assert (Hn : S n' <> O) by discriminate.
      destruct (Hpos Hn) as (Hp & Ht & Hbar). auto.
Qed.

(** X16. Every rendering of the pagination bar adds a click listener to
    [#pagination], and a click runs them all.  Under a server that lists
    the same books with more than one page, a click on an enabled button
    with [n] listeners registered sends the list fetch [n] times and leaves
    [2 n] listeners. *)
Theorem page_click_runs_every_listener
  (btn : Discover.button) (v : Discover.View) (w : World)
  (bs cards : list value) (total : Z) :
  always_answers w (list_response bs total) ->
  Discover.for_each_card bs = Return cards ->
  app w = DiscoverPage ->
  Discover.disabled btn = false ->
  Discover.at_most_one (Discover.ceil_div (Some total) (pageSize (state w))) = false ->
  exists v' w',
    click_page btn v w = (Return v', w')
    /\ sent w'
       = (sent w ++ repeat (page_request (Discover.data_page btn) w)
                      (Discover.pagination_listeners v))%list
    /\ Discover.pagination_listeners v' = (2 * Discover.pagination_listeners v)%nat.
Proof.
  intros Hsrv Hcards Hm Hd Hpages.
  destruct (dispatch_listed btn bs cards total (Discover.pagination_listeners v)
              Hcards Hd v w Hsrv Hm) as (v' & w' & Hrun & Hsent & _ & Hl & _).
  exists v', w'. split; [exact Hrun|]. split; [exact Hsent|].
  rewrite Hl, Hpages. lia.
Qed.

(** Witness: 45 books in pages of 20.  Discover is opened, "Next" is
    clicked twice: the second click sends the list fetch twice. *)
Lemma page_click_runs_every_listener_witness :
  let w := session DiscoverPage (constant_server (Response (list_response [emma] 45))) in
  let r0 := Discover.renderDiscover w in
  let v0 := returned (Discover.mount (state w)) r0 in
  let r1 := click_page (shown_button true v0) v0 (world_of r0) in
  let v1 := returned v0 r1 in
  let r2 := click_page (shown_button true v1) v1 (world_of r1) in
  Discover.pagination_listeners v0 = 1%nat
  /\ Discover.pagination_listeners v1 = 2%nat
  /\ map url (sent_since (world_of r0) (world_of r1))
     = ["/api/books?page=2&page_size=20"]
  /\ map url (sent_since (world_of r1) (world_of r2))
     = ["/api/books?page=3&page_size=20"; "/api/books?page=3&page_size=20"]
  /\ Discover.pagination_listeners (returned v1 r2) = 4%nat.
Proof.
  intros w r0 v0 r1 v1 r2.
  destruct (page_click_runs_every_listener (shown_button true v1) v1 (world_of r1)
              [emma] [emma] 45)
    as (v2 & w2 & Hrun & Hsent & Hl); try reflexivity.
  { intros log. reflexivity. }
  split; [reflexivity|]. split; [reflexivity|]. split; [reflexivity|].
  subst r2. rewrite Hrun. unfold sent_since, world_of, returned. cbn [fst snd].
  rewrite Hsent, Hl. split; reflexivity.
Defined.

Lemma dispatch_disabled (n : nat) (btn : Discover.button) (v : Discover.View)
      (w : World) :
  Discover.disabled btn = true ->
  dispatch_page_click n btn v w = (Return v, w).
Proof.
  intros Hd. induction n as [|n IH]; [reflexivity|].
  cbn [dispatch_page_click]. unfold bind, Discover.on_page_button.
  rewrite Hd. exact IH.
Qed.

Lemma browse_within
  (bs cards : list value) (total tp : Z) (clicks : list bool) :
  Discover.for_each_card bs = Return cards ->
  forall (v : Discover.View) (w : World),
    always_answers w (list_response bs total) ->
    app w = DiscoverPage ->
    totalBooks (state w) = VNum total ->
    Discover.totalPages (state w) = Some tp ->
    1 <= page (state w) <= tp ->
    bar_is_current v w ->
    exists v' w' extra,
      browse clicks v w = (Return v', w')
      /\ steady w w'
      /\ 1 <= page (state w') <= tp
      /\ sent w' = (sent w ++ extra)%list
      /\ Forall (fun r => exists p, 1 <= p <= tp /\ r = page_request p w) extra.
Proof.
  intros Hcards. induction clicks as [|c rest IH];
    intros v w Hsrv Hm Ht Htp Hp Hbar.
  - exists v, w, []. split; [reflexivity|]. split; [apply steady_refl|].
    split; [exact Hp|]. split; [now rewrite app_nil_r|constructor].
  - cbn [browse].
    destruct Hbar as [Hnone | Hsome].
    { rewrite Hnone. apply IH; auto. now left. }
    rewrite Hsome.
    set (btn := if c then Discover.next (Discover.render_bar (state w))
                else Discover.previous (Discover.render_bar (state w))).
    unfold click_page, bind.
    destruct (Discover.disabled btn) eqn:Hd.
    { rewrite (dispatch_disabled _ btn v w Hd). apply IH; auto. now right. }
    assert (Hrange : 1 <= Discover.data_page btn <= tp).
    { subst btn. destruct c; cbn [Discover.disabled Discover.data_page
        Discover.next Discover.previous Discover.render_bar] in *.
      - rewrite Htp in Hd. cbn [Discover.reaches] in Hd.
        apply Z.leb_gt in Hd. lia.
      - apply Z.leb_gt in Hd. lia. }
    destruct (dispatch_listed btn bs cards total (Discover.pagination_listeners v)
                Hcards Hd v w Hsrv Hm)
      as (v1 & w1 & Hrun & Hsent1 & Hst1 & _ & Hpos & Hzero).
    rewrite Hrun.
    destruct (Nat.eq_dec (Discover.pagination_listeners v) 0) as [Hn | Hn].
    { destruct (Hzero Hn) as [-> ->]. apply IH; auto. now right. }
    destruct (Hpos Hn) as (Hp1 & Ht1 & Hbar1).
    assert (Hsrv1 : always_answers w1 (list_response bs total)).
    { intros log. destruct Hst1 as (_ & _ & _ & _ & _ & ->). apply Hsrv. }
    assert (Hm1 : app w1 = DiscoverPage).
    { destruct Hst1 as (_ & _ & _ & _ & -> & _). exact Hm. }
    assert (Htp1 : Discover.totalPages (state w1) = Some tp).
    { rewrite (totalPages_listed total w w1 (VArr bs) Hst1 Ht1).
      unfold Discover.totalPages in Htp. now rewrite Ht in Htp. }
    assert (Hcur1 : bar_is_current v1 w1).
    { unfold bar_is_current. rewrite Hbar1.
      destruct (Discover.at_most_one _); [now left|now right]. }
    destruct (IH v1 w1 Hsrv1 Hm1 Ht1 Htp1 ltac:(rewrite Hp1; exact Hrange) Hcur1)
      as (v' & w' & extra & Hrest & Hst & Hp' & Hsent & Hall).
    exists v', w',
      (repeat (page_request (Discover.data_page btn) w)
         (Discover.pagination_listeners v) ++ extra)%list.
    split; [exact Hrest|]. split; [exact (steady_trans _ _ _ Hst1 Hst)|].
    split; [exact Hp'|].
    split; [rewrite Hsent, Hsent1; now rewrite <- app_assoc|].
    apply Forall_app. split.
    + apply Forall_forall. intros r Hin. apply repeat_spec in Hin. subst r.
      exists (Discover.data_page btn). split; [exact Hrange|reflexivity].
    + eapply Forall_impl; [|exact Hall].
      intros r (p & Hpr & ->). exists p. split; [exact Hpr|].
      now apply page_request_steady.
Qed.

(** X17. Under a server that answers every request with the same list
    of books and the same total:
    from a page within [1..totalPages] with the bar drawn from the state,
    whatever sequence of "Next" and "Previous" the user clicks, the page
    stays within [1..totalPages] and every request sent is the list fetch
    of a page in that range. *)
Theorem pages_stay_within_the_list
  (clicks : list bool) (v : Discover.View) (w : World)
  (bs cards : list value) (total tp : Z) :
  always_answers w (list_response bs total) ->
  Discover.for_each_card bs = Return cards ->
  app w = DiscoverPage ->
  totalBooks (state w) = VNum total ->
  Discover.totalPages (state w) = Some tp ->
  1 <= page (state w) <= tp ->
  bar_is_current v w ->
  exists v' w' extra,
    browse clicks v w = (Return v', w')
    /\ 1 <= page (state w') <= tp
    /\ sent w' = (sent w ++ extra)%list
    /\ Forall (fun r => exists p, 1 <= p <= tp /\ r = page_request p w) extra.
Proof.
  intros Hsrv Hcards Hm Ht Htp Hp Hbar.
  destruct (browse_within bs cards total tp clicks Hcards v w Hsrv Hm Ht Htp Hp Hbar)
    as (v' & w' & extra & Hrun & _ & Hp' & Hsent & Hall).
  exists v', w', extra. auto.
Qed.

(** Witness: 45 books in pages of 20, Discover just opened; the user
    clicks Next, Next, Next, Previous. *)
Lemma pages_stay_within_the_list_witness :
  let w := session DiscoverPage (constant_server (Response (list_response [emma] 45))) in
  let r0 := Discover.renderDiscover w in
  let v0 := returned (Discover.mount (state w)) r0 in
  let w0 := world_of r0 in
  Discover.totalPages (state w0) = Some 3
  /\ exists v' w' extra,
       browse [true; true; true; false] v0 w0 = (Return v', w')
       /\ 1 <= page (state w') <= 3
       /\ sent w' = (sent w0 ++ extra)%list
       /\ Forall (fun r => exists p, 1 <= p <= 3 /\ r = page_request p w0) extra.
Proof.
  intros w r0 v0 w0. split; [reflexivity|].
  apply (pages_stay_within_the_list [true; true; true; false] v0 w0
           [emma] [emma] 45 3).
  - intros log. reflexivity.
  - reflexivity.
  - reflexivity.
  - reflexivity.
  - reflexivity.
  - vm_compute. split; discriminate.
  - right. reflexivity.
Defined.

(* ================================================================== *)
(** ** Book Detail: the marks and the entry                             *)
(* ================================================================== *)

Lemma readable_prop (i : value) :
  readable i -> exists f, forall k, prop i k = Return (f k).
Proof.
  intros [H1 H2]. destruct i; try contradiction;
    eexists (fun k => _); intros k; cbn [prop]; reflexivity.
Qed.

Lemma mark_all_readable (id : Z) (rs : list value) :
  Forall readable rs ->
  forall m,
    Detail.mark_all id rs m
    = ({| Detail.userLiked := Detail.userLiked m || existsb (is_mark id "like") rs;
          Detail.userBookmarked :=
            Detail.userBookmarked m || existsb (is_mark id "bookmark") rs;
          Detail.userRating := last (ratings_of id rs) (Detail.userRating m) |},
       None).
Proof.
  induction 1 as [|i rest Hi _ IH]; intros m.
  - destruct m. cbn. now rewrite !orb_false_r.
  - cbn [Detail.mark_all]. unfold Detail.mark_one.
    destruct (readable_prop i Hi) as (f & Hf).
    unfold ratings_of. cbn [existsb filter]. unfold is_mark at 1 3 5.
    rewrite !Hf. cbn [or_undefined].
    destruct (strict_eq (f "book_id") (VNum id)).
    + rewrite IH. cbn [Detail.userLiked Detail.userBookmarked Detail.userRating
                       andb].
      rewrite !orb_assoc. f_equal. f_equal.
      destruct (strict_eq (f "interaction_type") (VStr "rate")
                && truthy (f "rating")); [|reflexivity].
      cbn [map]. rewrite last_cons_default, Hf. reflexivity.
    + rewrite IH. reflexivity.
Qed.

(** X18. The marks of the user on a book (lines 411-421): over records
    that are objects, the book is liked (bookmarked) exactly when some
    record of this book has the type like (bookmark), and the rating shown
    is the truthy rating of the last record that rates this book, 0 when
    there is none; the loop does not throw. *)
Theorem marks_are_folded_from_the_history (id : Z) (rs : list value) :
  Forall readable rs ->
  Detail.mark_all id rs Detail.no_marks
  = ({| Detail.userLiked := existsb (is_mark id "like") rs;
        Detail.userBookmarked := existsb (is_mark id "bookmark") rs;
        Detail.userRating := last (ratings_of id rs) (VNum 0) |},
     None).
Proof. intros H. now rewrite (mark_all_readable id rs H). Qed.

Lemma marks_are_folded_from_the_history_witness :
  let rs := [VObj [("book_id", VNum 7); ("interaction_type", VStr "rate");
                   ("rating", VNum 3)];
             VObj [("book_id", VNum 8); ("interaction_type", VStr "like")];
             VObj [("book_id", VNum 7); ("interaction_type", VStr "rate");
                   ("rating", VNum 5)];
             VObj [("book_id", VNum 7); ("interaction_type", VStr "bookmark")]] in
  Forall readable rs
  /\ Detail.mark_all 7 rs Detail.no_marks
     = ({| Detail.userLiked := false; Detail.userBookmarked := true;
           Detail.userRating := VNum 5 |}, None).
Proof.
  intros rs.
  assert (H : Forall readable rs)
    by (repeat constructor; discriminate).
  split; [exact H|].
  rewrite (marks_are_folded_from_the_history 7 rs H). reflexivity.
Defined.

(** Under a server that never answers 2xx every request throws; it is
    sent once, followed at most by the one refresh call. *)
Lemma request_never_ok (w : World) (meth path : string) (b : value) :
  never_ok w ->
  exists e w1 extra,
    api.request meth path b w = (Throw e, w1)
    /\ sent w1 = (sent w ++ build_request meth path b (token (state w)) :: extra)%list
    /\ (extra = [] \/ exists r, extra = [refresh_request r])
    /\ server w1 = server w
    /\ toasts w1 = toasts w
    /\ (forall res, answer w (build_request meth path b (token (state w))) = Response res ->
        status res = 401 ->
        token (state w1) = VNull /\ mg_refresh w1 = None
        /\ navbar_hidden w1 = true /\ app w1 = AuthPage)
    /\ ((forall res, answer w (build_request meth path b (token (state w))) = Response res ->
         status res <> 401) ->
        w1 = log_request (build_request meth path b (token (state w))) w).
Proof.
  intros Hn.
  pose proof (api_request_eq meth path b w) as E. cbv zeta in E. rewrite E. clear E.
  set (first := build_request meth path b (token (state w))).
  pose proof (Hn (sent w ++ [first])%list) as H1.
  change (answer w first) with (server w (sent w ++ [first])%list).
  destruct (server w (sent w ++ [first])) as [msg|res].
  - exists (TypeError msg), (log_request first w), [].
    split; [reflexivity|]. split; [reflexivity|]. split; [now left|].
    split; [reflexivity|]. split; [reflexivity|]. split; [discriminate|reflexivity].
  - destruct (status res =? 401) eqn:H401.
    + assert (Hp : refresh_payload (log_request first w) = None).
      { unfold refresh_payload. destruct (mg_refresh _) as [s|]; [|reflexivity].
        destruct (String.eqb s ""); [reflexivity|].
        unfold answer. cbn [server log_request].
        pose proof (Hn ((sent w ++ [first]) ++ [refresh_request s])%list) as H2.
        cbn [sent log_request].
        destruct (server w _) as [msg|r]; [reflexivity|]. now rewrite H2. }
      rewrite Hp.
      exists (Error "Session expired"),
        (logged_out (after_trace (log_request first w)
                       (refresh_trace (log_request first w)))),
        (refresh_trace (log_request first w)).
      split; [reflexivity|].
      split.
      { change (sent (logged_out ?x)) with (sent x).
        rewrite after_trace_sent, log_request_sent. now rewrite <- app_assoc. }
      split.
      { unfold refresh_trace. destruct (mg_refresh _) as [s|]; [|now left].
        destruct (String.eqb s ""); [now left|right; now exists s]. }
      split.
      { change (server (logged_out ?x)) with (server x).
        assert (G : forall t w0, server (after_trace w0 t) = server w0).
        { clear. unfold after_trace. induction t as [|r t IH]; intros w0;
            [reflexivity|]. simpl. now rewrite IH. }
        rewrite G. reflexivity. }
      split.
      { change (toasts (logged_out ?x)) with (toasts x).
        assert (G : forall t w0, toasts (after_trace w0 t) = toasts w0).
        { clear. unfold after_trace. induction t as [|r t IH]; intros w0;
            [reflexivity|]. simpl. now rewrite IH. }
        rewrite G. reflexivity. }
      split.
      { intros _ _ _. repeat split; reflexivity. }
      intros Hno. exfalso. apply (Hno res eq_refl). now apply Z.eqb_eq.
    + rewrite (first_result_not_ok res H1).
      assert (Ht : exists e,
                 match prop (match json_body res with
                             | Return payload => payload
                             | Throw _ => VObj []
                             end) "detail" with
                 | Throw e => Throw e
                 | Return detail =>
                     Throw (Error (to_string
                                     (or_else detail
                                        (VStr ("Error " ++ num_to_string (status res))))))
                 end = Throw (A := value) e).
      { destruct (prop _ "detail") as [d|e]; eexists; reflexivity. }
      destruct Ht as (e & ->).
      exists e, (log_request first w), [].
      split; [reflexivity|]. split; [reflexivity|]. split; [now left|].
      split; [reflexivity|]. split; [reflexivity|]. split; [|reflexivity].
      intros r [= <-] Hs. apply Z.eqb_neq in H401. contradiction.
Qed.

Lemma never_ok_server (w w1 : World) :
  server w1 = server w -> never_ok w -> never_ok w1.
Proof. intros Hs Hn log. rewrite Hs. apply Hn. Qed.



(* ================================================================== *)
(** ** The router                                                       *)
(* ================================================================== *)






(* ================================================================== *)
(** ** Recommendations                                                  *)
(* ================================================================== *)

(** X21. The empty state of the recommendations (lines 619-631): when the
    server answers 2xx with a body whose recommendations are missing,
    falsy or an empty list, the page shows "Not enough data yet"; one
    request is sent, GET /recommendations/top?n=15. *)
Theorem no_recommendations_is_not_enough_data (data : value) (w : World) :
  always_answers w (ok_response data) ->
  nothing_recommended data ->
  Recommendations.renderRecommendations w
  = (Return Recommendations.NotEnoughData,
     log_request (top_request w) (set_app RecommendationsPage w)).
Proof.
  intros Hsrv Hnone.
  unfold Recommendations.renderRecommendations.
  change ((modify (set_app RecommendationsPage) ;;; ?c) w)
    with (c (set_app RecommendationsPage w)).
  unfold try_catch. unfold bind at 1. unfold api.get.
  rewrite (request_answered_ok (set_app RecommendationsPage w) (ok_response data)
             "GET" Recommendations.top_path VNull Hsrv eq_refl).
  cbn [ok_response status json_body Z.eqb Pos.eqb].
  destruct Hnone as [Hf | [[Hr Hf] | Hempty]].
  - rewrite Hf. reflexivity.
  - destruct (truthy data); [|reflexivity]. cbn [negb].
    unfold bind, lift. rewrite (prop_readable data _ Hr), Hf. reflexivity.
  - destruct (truthy data); [|reflexivity]. cbn [negb].
    unfold bind, lift. rewrite Hempty. reflexivity.
Qed.

Lemma no_recommendations_is_not_enough_data_witness :
  let data := VObj [("recommendations", VArr [])] in
  let w := session DiscoverPage (constant_server (Response (ok_response data))) in
  Recommendations.renderRecommendations w
  = (Return Recommendations.NotEnoughData,
     log_request (top_request w) (set_app RecommendationsPage w)).
Proof.
  intros data w.
  apply (no_recommendations_is_not_enough_data data w).
  - intros log. reflexivity.
  - right. right. reflexivity.
Defined.

Lemma items_readable (l : list value) :
  Forall readable l -> Recommendations.items l = Return l.
Proof.
  induction 1 as [|r rest Hr _ IH]; [reflexivity|].
  cbn [Recommendations.items]. unfold Recommendations.item.
  rewrite (prop_readable r _ Hr), IH. reflexivity.
Qed.

(** X22. The list of recommendations (lines 633-650): when the server
    answers 2xx with a non-empty list of objects, every one of them is
    shown, in the order sent (the rank is the position); the list is
    not cut to the 15 asked for. *)
Theorem recommendations_are_shown_as_sent
  (data : value) (r : value) (rest : list value) (w : World) :
  always_answers w (ok_response data) ->
  truthy data = true ->
  prop data "recommendations" = Return (VArr (r :: rest)) ->
  Forall readable (r :: rest) ->
  Recommendations.renderRecommendations w
  = (Return (Recommendations.Items (r :: rest)),
     log_request (top_request w) (set_app RecommendationsPage w)).
Proof.
  intros Hsrv Ht Hp Hr.
  unfold Recommendations.renderRecommendations.
  change ((modify (set_app RecommendationsPage) ;;; ?c) w)
    with (c (set_app RecommendationsPage w)).
  unfold try_catch. unfold bind at 1. unfold api.get.
  rewrite (request_answered_ok (set_app RecommendationsPage w) (ok_response data)
             "GET" Recommendations.top_path VNull Hsrv eq_refl).
  cbn [ok_response status json_body Z.eqb Pos.eqb].
  rewrite Ht. cbn [negb]. unfold bind at 1, lift at 1. rewrite Hp.
  cbn [truthy negb]. unfold bind at 1, lift at 1.
  replace (prop (VArr (r :: rest)) "length")
    with (Return (VNum (Z.of_nat (List.length (r :: rest))))) by reflexivity.
  assert (Hlen : strict_eq (VNum (Z.of_nat (List.length (r :: rest)))) (VNum 0) = false).
  { cbn [List.length strict_eq value_eqb]. unfold strict_eq, value_eqb.
    apply Z.eqb_neq. lia. }
  rewrite Hlen.
  unfold bind, lift. rewrite (items_readable (r :: rest) Hr). reflexivity.
Qed.

Lemma recommendations_are_shown_as_sent_witness :
  let one := VObj [("book_id", VNum 7); ("score", VNum 1)] in
  let l := repeat one 16 in
  let data := VObj [("recommendations", VArr l)] in
  let w := session DiscoverPage (constant_server (Response (ok_response data))) in
  exists w',
    Recommendations.renderRecommendations w = (Return (Recommendations.Items l), w')
    /\ List.length l = 16%nat.
Proof.
  intros one l data w. eexists. split; [|reflexivity].
  apply (recommendations_are_shown_as_sent data one (repeat one 15) w).
  - intros log. reflexivity.
  - reflexivity.
  - reflexivity.
  - repeat constructor; discriminate.
Defined.

(* ================================================================== *)
(** ** Library: the titles                                              *)
(* ================================================================== *)

Lemma strict_eq_true (a b : value) : strict_eq a b = true -> a = b.
Proof.
  unfold strict_eq, value_eqb.
  destruct a, b; try discriminate; intros H; try reflexivity.
  - apply Bool.eqb_prop in H. now subst.
  - apply Z.eqb_eq in H. now subst.
  - apply String.eqb_eq in H. now subst.
Qed.

Lemma distinct_covers (l : list value) (x : value) :
  In x l -> In x (Library.distinct l).
Proof.
  induction l as [|y rest IH]; [contradiction|].
  intros [-> | Hin]; cbn [Library.distinct]; [now left|].
  destruct (strict_eq y x) eqn:E.
  - left. now apply strict_eq_true.
  - right. apply filter_In. split; [now apply IH|]. now rewrite E.
Qed.

Lemma pairwise_distinct_filter (p : value -> bool) (l : list value) :
  pairwise_distinct l -> pairwise_distinct (filter p l).
Proof.
  induction l as [|x rest IH]; [trivial|].
  intros [Hx Hrest]. cbn [filter].
  destruct (p x); [|now apply IH].
  split; [|now apply IH].
  apply Forall_forall. intros y Hy. apply filter_In in Hy.
  rewrite Forall_forall in Hx. now apply Hx.
Qed.

Lemma distinct_pairwise (l : list value) : pairwise_distinct (Library.distinct l).
Proof.
  induction l as [|x rest IH]; [exact I|].
  cbn [Library.distinct]. split.
  - apply Forall_forall. intros y Hy. apply filter_In in Hy.
    destruct Hy as [_ Hy]. now destruct (strict_eq x y).
  - now apply pairwise_distinct_filter.
Qed.

(** One step of the enrichment leaves the world the book fetch left, and
    does not throw. *)
Lemma enrich_step (id : value) (rows : list Library.row) (w : World) :
  let step :=
    try_catch
      (book <- api.get ("/books/" ++ to_string id) ;;
       m <- gets app ;;
       t <- lift (prop book "title") ;;
       ret (if Library.is_library m
            then Library.retitle (to_string id) (as_text t) rows
            else rows))
      (fun _ => ret rows) in
  exists rows',
    step w = (Return rows', world_of (api.get ("/books/" ++ to_string id) w))
    /\ (result_of (api.get ("/books/" ++ to_string id) w) = Return VNull ->
        rows' = rows)
    /\ (forall e, result_of (api.get ("/books/" ++ to_string id) w) = Throw e ->
        rows' = rows).
Proof.
  cbv zeta. unfold try_catch, bind, gets, lift, ret.
  destruct (api.get _ w) as [[book|e] w1].
  - destruct (prop book "title") as [t|e] eqn:Hp.
    + eexists. split; [reflexivity|]. split.
      * intros [= ->]. discriminate.
      * discriminate.
    + exists rows. split; [reflexivity|]. split; trivial.
  - exists rows. split; [reflexivity|]. split; trivial.
Qed.

Lemma enrich_answered (res : http_response) (ids : list value) :
  ok res = true ->
  forall (rows : list Library.row) (w : World),
    always_answers w res ->
    exists rows' w',
      Library.enrich ids rows w = (Return rows', w')
      /\ sent w' = (sent w ++ map (fun id => book_request id (token (state w))) ids)%list.
Proof.
  intros Hok. induction ids as [|id rest IH]; intros rows w Hsrv.
  - exists rows, w. split; [reflexivity|]. now rewrite app_nil_r.
  - cbn [Library.enrich].
    destruct (enrich_step id rows w) as (rows1 & Hstep & _). cbv zeta in Hstep.
    unfold bind at 1. rewrite Hstep.
    unfold api.get.
    rewrite (request_answered_ok w res "GET" _ VNull Hsrv Hok).
    cbn [world_of snd].
    set (w1 := log_request _ w).
    destruct (IH rows1 w1) as (rows' & w' & Hrun & Hsent).
    { intros log. apply Hsrv. }
    exists rows', w'. split; [exact Hrun|].
    rewrite Hsent. subst w1. rewrite log_request_sent, <- app_assoc. reflexivity.
Qed.

(** X23. The title enrichment (lines 763-773), under a server that
    answers every request with the same 2xx answer: one GET /books/{id} is sent for each
    distinct book id of the list, in the order of first appearance, and
    nothing else; no id is fetched twice and every id of the list is
    fetched. *)
Theorem titles_are_fetched_once_each
  (res : http_response) (l : list value) (rows : list Library.row) (w : World) :
  always_answers w res ->
  ok res = true ->
  let ids := Library.distinct (Library.book_ids l) in
  pairwise_distinct ids
  /\ (forall id, In id (Library.book_ids l) -> In id ids)
  /\ exists rows' w',
       Library.enrichLibraryItems l rows w = (Return rows', w')
       /\ sent w' = (sent w ++ map (fun id => book_request id (token (state w))) ids)%list.
Proof.
  intros Hsrv Hok ids.
  split; [apply distinct_pairwise|].
  split; [intros id; apply distinct_covers|].
  exact (enrich_answered res ids Hok rows w Hsrv).
Qed.

Lemma titles_are_fetched_once_each_witness :
  let w := session LibraryPage (constant_server (Response book7)) in
  let rec := fun id kind =>
               VObj [("book_id", VNum id); ("interaction_type", VStr kind)] in
  let l := [rec 7 "like"; rec 9 "view"; rec 7 "bookmark"; rec 9 "like"; rec 3 "view"] in
  Library.distinct (Library.book_ids l) = [VNum 7; VNum 9; VNum 3]
  /\ exists rows' w',
       Library.enrichLibraryItems l [] w = (Return rows', w')
       /\ map url (sent_since w w')
          = ["/api/books/7"; "/api/books/9"; "/api/books/3"].
Proof.
  intros w rec l. split; [reflexivity|].
  destruct (titles_are_fetched_once_each book7 l [] w) as (_ & _ & rows' & w' & Hrun & Hsent).
  - intros log. reflexivity.
  - reflexivity.
  - exists rows', w'. split; [exact Hrun|].
    unfold sent_since. rewrite Hsent. reflexivity.
Defined.

Lemma enrich_never_ok (ids : list value) :
  forall (rows : list Library.row) (w : World),
    never_ok w ->
    exists w', Library.enrich ids rows w = (Return rows, w').
Proof.
  induction ids as [|id rest IH]; intros rows w Hn.
  - exists w. reflexivity.
  - cbn [Library.enrich].
    destruct (enrich_step id rows w) as (rows1 & Hstep & _ & Hthrow).
    cbv zeta in Hstep. unfold bind at 1. rewrite Hstep.
    destruct (request_never_ok w "GET" ("/books/" ++ to_string id) VNull Hn)
      as (e & w1 & extra & Hrun & _ & _ & Hsrv & _).
    unfold api.get in *. rewrite Hrun in Hthrow |- *.
    rewrite (Hthrow e eq_refl). cbn [world_of snd].
    apply IH. exact (never_ok_server w w1 Hsrv Hn).
Qed.

(** X24. Titles that cannot be fetched (lines 767-772): under a server
    that never answers 2xx the enrichment does not throw and leaves every
    row as it was written, with its "Book #id" placeholder. *)
Theorem failed_title_fetch_keeps_placeholder
  (l : list value) (rows : list Library.row) (w : World) :
  never_ok w ->
  Library.render_rows l = Return rows ->
  exists w',
    Library.enrichLibraryItems l rows w = (Return rows, w')
    /\ Forall (fun r => Library.title r = "Book #" ++ Library.data_book_id r) rows.
Proof.
  intros Hn Hrows.
  destruct (enrich_never_ok (Library.distinct (Library.book_ids l)) rows w Hn)
    as (w' & Hrun).
  exists w'. split; [exact Hrun|].
  clear Hrun Hn. revert rows Hrows.
  induction l as [|i rest IH]; intros rows Hrows; cbn [Library.render_rows] in Hrows.
  - injection Hrows as <-. constructor.
  - destruct (prop i "book_id") as [id|e]; [|discriminate].
    destruct (Library.render_rows rest) as [rs|e]; [|discriminate].
    injection Hrows as <-. constructor; [reflexivity|]. now apply IH.
Qed.

Lemma failed_title_fetch_keeps_placeholder_witness :
  let w := session LibraryPage (constant_server (Response server_error)) in
  let l := [VObj [("book_id", VNum 7); ("interaction_type", VStr "like")]] in
  let rows := [{| Library.data_book_id := "7"; Library.title := "Book #7";
                  Library.record := VObj [("book_id", VNum 7);
                                          ("interaction_type", VStr "like")] |}] in
  exists w', Library.enrichLibraryItems l rows w = (Return rows, w').
Proof.
  intros w l rows.
  destruct (failed_title_fetch_keeps_placeholder l rows w) as (w' & Hrun & _).
  - intros log. reflexivity.
  - reflexivity.
  - exists w'. exact Hrun.
Defined.

(* ================================================================== *)
(** ** Utilities                                                        *)
(* ================================================================== *)

Lemma escape_text_no_angle (n : nat) :
  forall s, (String.length s <= n)%nat -> all_chars no_angle (escape_text s) = true.
Proof.
  induction n as [|n IH]; intros s Hlen.
  - destruct s; [reflexivity|]. cbn in Hlen. lia.
  - destruct s as [|c rest]; [reflexivity|].
    cbn [String.length] in Hlen.
    assert (Hrest : all_chars no_angle (escape_text rest) = true)
      by (apply IH; lia).
    cbn [escape_text].
    destruct (Nat.eqb (nat_of_ascii c) 38) eqn:E38.
    { rewrite all_chars_app, Hrest. reflexivity. }
    destruct (Nat.eqb (nat_of_ascii c) 60) eqn:E60.
    { rewrite all_chars_app, Hrest. reflexivity. }
    destruct (Nat.eqb (nat_of_ascii c) 62) eqn:E62.
    { rewrite all_chars_app, Hrest. reflexivity. }
    assert (Hc : no_angle c = true) by (unfold no_angle; now rewrite E60, E62).
    destruct rest as [|c2 rest2].
    { cbn [all_chars]. now rewrite Hc. }
    destruct (Nat.eqb (nat_of_ascii c) 194 && Nat.eqb (nat_of_ascii c2) 160).
    + rewrite all_chars_app. cbn [String.length] in Hlen.
      rewrite (IH rest2) by lia. reflexivity.
    + cbn [all_chars]. now rewrite Hc, Hrest.
Qed.

(** X25. The text escapeHtml returns (lines 776-781) holds no angle
    bracket, whatever value it is given; a falsy argument gives the empty
    text.  This is about the values that go through escapeHtml, not about
    the fields the templates write without it. *)
Theorem escapeHtml_has_no_angle_brackets (str : value) :
  occurrences "<" (escapeHtml str) = O
  /\ occurrences ">" (escapeHtml str) = O
  /\ (truthy str = false -> escapeHtml str = "").
Proof.
  assert (H : all_chars no_angle (escapeHtml str) = true).
  { unfold escapeHtml. destruct (truthy str); [|reflexivity].
    now apply (escape_text_no_angle (String.length (to_string str))). }
  split; [|split].
  - now apply (occurrences_none no_angle).
  - now apply (occurrences_none no_angle).
  - intros Hf. unfold escapeHtml. now rewrite Hf.
Qed.



(* ================================================================== *)
(** ** Book Detail: the bookmark                                        *)
(* ================================================================== *)





(* ================================================================== *)
(** ** Discover: the search field and the chips                         *)
(* ================================================================== *)

Lemma escape_text_quotes (n : nat) :
  forall s, (String.length s <= n)%nat ->
            occurrences quote (escape_text s) = occurrences quote s.
Proof.
  assert (Hne : forall c k, Nat.eqb (nat_of_ascii c) k = true -> k <> 34%nat ->
                            Ascii.eqb c quote = false).
  { intros c k Hk Hq. apply Nat.eqb_eq in Hk.
    destruct (Ascii.eqb_spec c quote) as [-> | _]; [|reflexivity].
    exfalso. apply Hq. rewrite <- Hk. reflexivity. }
  induction n as [|n IH]; intros s Hlen.
  - destruct s; [reflexivity|]. cbn in Hlen. lia.
  - destruct s as [|c rest]; [reflexivity|].
    cbn [String.length] in Hlen.
    assert (Hrest : occurrences quote (escape_text rest) = occurrences quote rest)
      by (apply IH; lia).
    cbn [escape_text occurrences].
    destruct (Nat.eqb (nat_of_ascii c) 38) eqn:E38.
    { rewrite occurrences_app, Hrest, (Hne c 38%nat E38) by discriminate. reflexivity. }
    destruct (Nat.eqb (nat_of_ascii c) 60) eqn:E60.
    { rewrite occurrences_app, Hrest, (Hne c 60%nat E60) by discriminate. reflexivity. }
    destruct (Nat.eqb (nat_of_ascii c) 62) eqn:E62.
    { rewrite occurrences_app, Hrest, (Hne c 62%nat E62) by discriminate. reflexivity. }
    destruct rest as [|c2 rest2]; [reflexivity|].
    destruct (Nat.eqb (nat_of_ascii c) 194 && Nat.eqb (nat_of_ascii c2) 160) eqn:E.
    + apply andb_prop in E. destruct E as [E1 E2].
      cbn [String.length] in Hlen.
      rewrite occurrences_app, (IH rest2) by lia.
      cbn [occurrences].
      rewrite (Hne c 194%nat E1), (Hne c2 160%nat E2) by discriminate. reflexivity.
    + cbn [occurrences]. now rewrite Hrest.
Qed.

Lemma until_quote_all (s : string) :
  Discover.until_quote s = s <-> occurrences quote s = O.
Proof.
  induction s as [|c rest IH]; [split; reflexivity|].
  cbn [Discover.until_quote occurrences].
  destruct (Ascii.eqb_spec c quote) as [-> | Hc].
  - cbn. split; discriminate.
  - assert (Hn : Nat.eqb (nat_of_ascii c) 34 = false).
    { apply Nat.eqb_neq. intros E. apply Hc.
      rewrite <- (ascii_nat_embedding c), E. reflexivity. }
    rewrite Hn. cbn [Nat.add]. rewrite <- IH. split.
    + intros [= H]. exact H.
    + intros ->. reflexivity.
Qed.

(** X28. escapeHtml leaves double quotes as they are (lines 776-781),
    and the search field is written inside a double-quoted value attribute
    (line 266): when Discover is rendered again, the field holds the whole
    query exactly when the query has no double quote, and else only what
    precedes the first one. *)
Theorem quotes_survive_escapeHtml (s : AppState) :
  occurrences quote (escapeHtml (VStr (searchQuery s)))
  = occurrences quote (searchQuery s)
  /\ (Discover.input_value (Discover.mount s) = searchQuery s
      <-> occurrences quote (searchQuery s) = O)
  /\ occurrences quote (Discover.input_value (Discover.mount s)) = O.
Proof.
  split; [|split].
  - unfold escapeHtml. cbn [truthy to_string].
    destruct (searchQuery s) as [|c rest] eqn:E; [reflexivity|].
    cbn [truthy negb String.eqb].
    replace (truthy (VStr (String c rest))) with true by reflexivity.
    now apply (escape_text_quotes (String.length (String c rest))).
  - cbn [Discover.mount Discover.input_value]. apply until_quote_all.
  - cbn [Discover.mount Discover.input_value].
    induction (searchQuery s) as [|c rest IH]; [reflexivity|].
    cbn [Discover.until_quote].
    destruct (Nat.eqb (nat_of_ascii c) 34) eqn:E; [reflexivity|].
    cbn [occurrences]. rewrite IH.
    destruct (Ascii.eqb_spec c quote) as [-> | _]; [discriminate|reflexivity].
Qed.

Lemma loadBooks_chips (v : Discover.View) (w : World) :
  forall v' w', Discover.loadBooks v w = (Return v', w') ->
                Discover.chips v' = Discover.chips v.
Proof.
  intros v' w'. unfold Discover.loadBooks.
  unfold bind at 1, gets at 1.
  destruct (negb _); [intros [= <- _]; reflexivity|].
  unfold try_catch.
  match goal with |- (let (_, _) := ?c w in _) = _ -> _ =>
    destruct (c w) as [[v1|e] w1] eqn:Hbody end.
  - intros [= <- _].
    unfold Discover.renderPagination in Hbody.
    unfold bind, gets, lift, modify, ret, throw in Hbody.
    repeat match type of Hbody with
           | context [match ?x with _ => _ end] => destruct x; try discriminate
           end;
      injection Hbody as <- _; reflexivity.
  - intros [= <- _]. reflexivity.
Qed.

(** X29. A click on a genre chip (lines 305-313) leaves exactly that chip
    active and stores its data-genre, the empty text for "All", as the
    filter; this is the marking renderGenreChips draws from the state
    (lines 297-299): drawing the chips again changes nothing. *)
Theorem chip_click_agrees_with_the_state (g : string) (v : Discover.View) (w : World) :
  In g Discover.genres ->
  map fst (Discover.chips v) = Discover.genres ->
  exists v' w',
    Discover.on_chip g v w = (Return v', w')
    /\ genreFilter (state w') = Discover.data_genre g
    /\ Discover.chips v' = only_active g
    /\ exists v2, Discover.renderGenreChips v' w' = (Return v2, w')
                  /\ Discover.chips v2 = Discover.chips v'.
Proof.
  intros Hg Hchips. rewrite on_chip_eq.
  set (v0 := Discover.set_chips _ v).
  set (w0 := set_state _ w).
  destruct (loadBooks_returns v0 w0) as (v' & Hv).
  pose proof (loadBooks_query genreFilter v0 w0
                (fun _ _ => eq_refl) (fun _ _ => eq_refl) (fun _ _ _ => eq_refl)) as Hq.
  destruct (Discover.loadBooks v0 w0) as [r w'] eqn:Hrun.
  cbn [result_of fst] in Hv. subst r. cbn [world_of snd] in Hq.
  assert (Hc : Discover.chips v' = only_active g).
  { rewrite (loadBooks_chips v0 w0 v' w' Hrun). subst v0.
    cbn [Discover.chips Discover.set_chips]. unfold only_active.
    rewrite <- Hchips, map_map. reflexivity. }
  exists v', w'. split; [reflexivity|]. split; [exact Hq|]. split; [exact Hc|].
  unfold Discover.renderGenreChips, bind, gets, ret.
  destruct (negb _); [exists v'; split; reflexivity|].
  eexists. split; [reflexivity|].
  cbn [Discover.chips Discover.set_chips]. rewrite Hc, Hq.
  unfold only_active.
  cbn in Hg.
  repeat (destruct Hg as [<- | Hg]; [reflexivity|]). contradiction.
Qed.

Lemma chip_click_agrees_with_the_state_witness :
  let w := session DiscoverPage (constant_server (Response empty_list)) in
  let v := returned (Discover.mount (state w)) (Discover.renderDiscover w) in
  exists v' w',
    Discover.on_chip "Fantasy" v (world_of (Discover.renderDiscover w)) = (Return v', w')
    /\ genreFilter (state w') = "Fantasy"
    /\ filter snd (Discover.chips v') = [("Fantasy", true)].
Proof.
  intros w v.
  destruct (chip_click_agrees_with_the_state "Fantasy" v
              (world_of (Discover.renderDiscover w)))
    as (v' & w' & Hrun & Hf & Hc & _).
  - cbn. tauto.
  - reflexivity.
  - exists v', w'. split; [exact Hrun|]. split; [exact Hf|].
    rewrite Hc. reflexivity.
Defined.

(* ================================================================== *)
(** ** Registration                                                     *)
(* ================================================================== *)

(** X30. A registration the server accepts (lines 98-106) goes on as a
    sign-in does: the tokens of the payload are stored, the navigation bar
    is shown, Discover is opened with the list fetch under the new access
    token, and one toast is added, "Account created! Happy reading". *)
Theorem registration_opens_discover
  (parse : string -> outcome value) (email username password : string)
  (w w1 : World) (data : value) :
  api.post "/auth/register" (Auth.registration email username password) w
  = (Return data, w1) ->
  readable data ->
  let access := or_undefined (prop data "access_token") in
  let fresh := to_string (or_undefined (prop data "refresh_token")) in
  let req := opening_request access w1 in
  exists v w',
    Auth.register parse email username password w = (Return (OnDiscover v), w')
    /\ (exists extra, sent w' = (sent w1 ++ req :: extra)%list)
    /\ toasts w' = (toasts w ++ [account_created])%list
    /\ currentPage (state w') = Some "discover"
    /\ (forall r, answer w1 req = Response r -> status r <> 401 ->
                  token (state w') = access
                  /\ mg_refresh w' = Some fresh
                  /\ navbar_hidden w' = false
                  /\ app w' = DiscoverPage).
Proof.
  intros Hpost Hread access fresh req.
  unfold Auth.register. unfold bind at 1. rewrite Hpost.
  unfold bind at 1, Auth.store_tokens.
  unfold bind at 1, lift at 1. rewrite (prop_readable data "access_token" Hread).
  fold access. unfold bind at 1, modify at 1.
  unfold bind at 1, lift at 1. rewrite (prop_readable data "refresh_token" Hread).
  unfold bind at 1, modify at 1. unfold ret at 1.
  change (set_storage _ (set_state (set_token access) w1))
    with (tokens_stored data w1).
  destruct (enter_discover parse access
              (fun s => toast "Account created! Happy reading 🎉" "success" ;;; ret s)
              (tokens_stored data w1) eq_refl)
    as (v & wd & Hrun & Hsent & Htoasts & Hcur & Hok).
  exists v, (add_toast account_created wd).
  split; [rewrite Hrun; reflexivity|].
  split; [exact Hsent|].
  split.
  { simpl. rewrite Htoasts. f_equal.
    change (toasts (tokens_stored data w1)) with (toasts w1).
    change w1 with (world_of (Return data, w1)). rewrite <- Hpost.
    apply api_request_toasts. }
  split; [exact Hcur|].
  intros r Ha Hs. exact (Hok r Ha Hs).
Qed.

Lemma registration_opens_discover_witness :
  let w := signed_out register_server in
  exists v w',
    Auth.register example_parse "reader@example.com" "reader" "secret" w
    = (Return (OnDiscover v), w')
    /\ map url (sent w') = ["/api/auth/register"; "/api/books?page=1&page_size=20"]
    /\ map body (sent w')
       = [Some (Auth.registration "reader@example.com" "reader" "secret"); None]
    /\ token (state w') = jwt reader_segment
    /\ mg_refresh w' = Some "r2"
    /\ app w' = DiscoverPage.
Proof.
  intros w.
  destruct (registration_opens_discover example_parse "reader@example.com" "reader"
              "secret" w
              (log_request (register_request "reader@example.com" "reader" "secret" VNull) w)
              (VObj [("access_token", jwt reader_segment); ("refresh_token", VStr "r2")])
              eq_refl)
    as (v & w' & Hrun & _ & _ & _ & Hok).
  { split; discriminate. }
  exists v, w'. split; [exact Hrun|].
  destruct (Hok empty_list eq_refl ltac:(discriminate)) as (Ht & Hs & _ & Happ).
  vm_compute in Hrun. injection Hrun as _ <-.
  repeat split.
Defined.
